(** * TUI101: the selectable pane list and the application router

    A shallow embedding of the Go sources: the shared [BasePaneModel] and the
    stash pane (both in [panes/stash.go]) and the two revisions of the
    application model ([Model.Update], [handleKeyMsg], [setActivePane]),
    followed by the properties the specification states about them.

    Conventions.  A Go [int] is a [Z] with the wrap-around of 64-bit
    arithmetic written out ([GoInt]).  A method with a pointer receiver that
    assigns to fields is a function from the old value to the new one; a
    method that only reads returns its result alone.  An expression that can
    panic (an index, a slice expression, a remainder) yields a [result], and
    so does every function that evaluates one. *)

From stdpp Require Import base numbers list strings pretty.

#[local] Open Scope Z_scope.

(** ** Go's [int] and the operations that can panic *)

Module GoInt.

(** [int] is 64 bits wide and signed; arithmetic wraps around. *)
Definition min_int : Z := - 2 ^ 63.
Definition max_int : Z := 2 ^ 63 - 1.

Definition wrap (z : Z) : Z := (z + 2 ^ 63) `mod` 2 ^ 64 - 2 ^ 63.

Definition add (x y : Z) : Z := wrap (x + y).
Definition sub (x y : Z) : Z := wrap (x - y).

(** [x % y] truncates towards zero, like [Z.rem]. *)
Definition rem (x y : Z) : Z := wrap (Z.rem x y).

(** [len(s)] of a slice. *)
Definition len {A} (l : list A) : Z := Z.of_nat (length l).

(** The runtime allocates no object larger than [2^48] bytes, so no slice
    has more than [max_items] elements. *)
Definition max_items : Z := 2 ^ 48.

End GoInt.

(** A computation that either yields a value or panics at run time. *)
Inductive result (A : Type) : Type :=
  | Ok (a : A)
  | Panic.
Arguments Ok {A} a.
Arguments Panic {A}.

Definition rbind {A B} (r : result A) (k : A → result B) : result B :=
  match r with
  | Ok a => k a
  | Panic => Panic
  end.

Notation "x ←! r ; k" := (rbind r (λ x, k))
  (at level 20, r at level 100, k at level 200, right associativity,
   format "x  ←!  r ;  '/' k").

Module Slice.
Import GoInt.

(** [s[lo:hi]]: panics unless [0 ≤ lo ≤ hi ≤ len(s)].  (Go also accepts
    [hi] up to the capacity; every slice expression in the modelled code
    stays within the length, so the capacity is not tracked.) *)
Definition slice {A} (s : list A) (lo hi : Z) : result (list A) :=
  if decide (0 ≤ lo ∧ lo ≤ hi ∧ hi ≤ len s)
  then Ok (take (Z.to_nat (hi - lo)) (drop (Z.to_nat lo) s))
  else Panic.

(** [s[i]]: panics unless [0 ≤ i < len(s)]. *)
Definition index {A} (s : list A) (i : Z) : result A :=
  if decide (0 ≤ i ∧ i < len s)
  then match s !! Z.to_nat i with
       | Some x => Ok x
       | None => Panic
       end
  else Panic.

End Slice.

(** ** The functions of Go's [strings] package the panes call

    A Go string is a sequence of bytes, here a [string] of [ascii]. *)

Module GoStrings.

(** [strings.HasPrefix(s, prefix)]. *)
Fixpoint HasPrefix (s prefix : string) {struct prefix} : bool :=
  match prefix with
  | EmptyString => true
  | String p prefix' =>
      match s with
      | String c s' => bool_decide (p = c) && HasPrefix s' prefix'
      | EmptyString => false
      end
  end.

(** [strings.Index(s, substr)]: the offset of the first occurrence of
    [substr] in [s], or [-1]. *)
Fixpoint Index (s substr : string) : Z :=
  if HasPrefix s substr then 0
  else match s with
       | EmptyString => -1
       | String _ s' =>
           let i := Index s' substr in
           if decide (i < 0) then -1 else i + 1
       end.

(** [strings.Contains(s, substr)] is [Index(s, substr) >= 0]. *)
Definition Contains (s substr : string) : bool :=
  bool_decide (Index s substr >= 0).

(** On ASCII text [strings.ToLower] maps the letters A-Z to a-z and keeps
    every other byte. *)
Definition lower_byte (c : Ascii.ascii) : Ascii.ascii :=
  let n := Ascii.N_of_ascii c in
  if (65 <=? n)%N && (n <=? 90)%N then Ascii.ascii_of_N (n + 32) else c.

Fixpoint ToLowerASCII (s : string) : string :=
  match s with
  | EmptyString => EmptyString
  | String c s' => String (lower_byte c) (ToLowerASCII s')
  end.

(** [sub] occurs in [s]. *)
Definition occurs_in (sub s : string) : Prop :=
  ∃ pre post, s = pre +:+ sub +:+ post.

End GoStrings.

(** ** The shared pane list: [BasePaneModel] *)

Module Panes.
Import GoInt Slice.

Inductive PaneType : Type :=
  | StatusPaneType
  | FilesPaneType
  | BranchesPaneType
  | CommitsPaneType
  | StashPaneType
  | DiffPaneType.

Section WithMetadata.
(** The payload a pane attaches to an item ([Metadata interface{}]): [None]
    is Go's [nil]. *)
Context {Meta : Type}.

Record PaneItem : Type := mkPaneItem {
  Display : string;
  Value : string;
  Icon : string;
  Type_ : string;
  Selected : bool;
  Metadata : option Meta;
  Color : string
}.

Record BasePaneModel : Type := mkBase {
  title : string;
  paneType : PaneType;
  id : string;
  items : list PaneItem;
  selectedIndex : Z;
  active : bool;
  loading : bool;
  showLineNumbers : bool;
  maxDisplayItems : Z;
  filter_ : string;  (* the field [filter] *)
  scrollOffset : Z
}.

(** Assignments to single fields. *)
Definition set_items (v : list PaneItem) (b : BasePaneModel) : BasePaneModel :=
  mkBase (title b) (paneType b) (id b) v (selectedIndex b) (active b)
    (loading b) (showLineNumbers b) (maxDisplayItems b) (filter_ b) (scrollOffset b).

Definition set_selectedIndex (v : Z) (b : BasePaneModel) : BasePaneModel :=
  mkBase (title b) (paneType b) (id b) (items b) v (active b)
    (loading b) (showLineNumbers b) (maxDisplayItems b) (filter_ b) (scrollOffset b).

Definition set_scrollOffset (v : Z) (b : BasePaneModel) : BasePaneModel :=
  mkBase (title b) (paneType b) (id b) (items b) (selectedIndex b) (active b)
    (loading b) (showLineNumbers b) (maxDisplayItems b) (filter_ b) v.

Definition NewBasePaneModel (title : string) (paneType : PaneType) (id : string)
  : BasePaneModel :=
  {| title := title; paneType := paneType; id := id;
     items := []; selectedIndex := 0; active := false; loading := false;
     showLineNumbers := false; maxDisplayItems := 50;
     filter_ := ""; scrollOffset := 0 |}.

Definition GetItems (b : BasePaneModel) : list PaneItem := items b.
Definition GetItemCount (b : BasePaneModel) : Z := len (items b).
Definition GetSelectedIndex (b : BasePaneModel) : Z := selectedIndex b.
Definition GetScrollOffset (b : BasePaneModel) : Z := scrollOffset b.
Definition GetMaxDisplayItems (b : BasePaneModel) : Z := maxDisplayItems b.
Definition IsActive (b : BasePaneModel) : bool := active b.
Definition IsLoading (b : BasePaneModel) : bool := loading b.

Definition SetActive (v : bool) (b : BasePaneModel) : BasePaneModel :=
  mkBase (title b) (paneType b) (id b) (items b) (selectedIndex b) v
    (loading b) (showLineNumbers b) (maxDisplayItems b) (filter_ b) (scrollOffset b).

Definition SetLoading (v : bool) (b : BasePaneModel) : BasePaneModel :=
  mkBase (title b) (paneType b) (id b) (items b) (selectedIndex b) (active b)
    v (showLineNumbers b) (maxDisplayItems b) (filter_ b) (scrollOffset b).

Definition SetShowLineNumbers (v : bool) (b : BasePaneModel) : BasePaneModel :=
  mkBase (title b) (paneType b) (id b) (items b) (selectedIndex b) (active b)
    (loading b) v (maxDisplayItems b) (filter_ b) (scrollOffset b).

Definition SetMaxDisplayItems (v : Z) (b : BasePaneModel) : BasePaneModel :=
  mkBase (title b) (paneType b) (id b) (items b) (selectedIndex b) (active b)
    (loading b) (showLineNumbers b) v (filter_ b) (scrollOffset b).

(** [GetSelectedItem]: [Ok None] is the [nil] pointer, [Ok (Some it)] a
    pointer to the item, [Panic] an index out of range. *)
Definition GetSelectedItem (b : BasePaneModel) : result (option PaneItem) :=
  if decide (len (items b) = 0 ∨ selectedIndex b >= len (items b) ∨ selectedIndex b < 0)
  then Ok None
  else it ←! index (items b) (selectedIndex b); Ok (Some it).

(** [adjustScrollOffset]: three assignments in sequence, each guarded. *)
Definition adjustScrollOffset (b : BasePaneModel) : BasePaneModel :=
  if decide (len (items b) = 0) then set_scrollOffset 0 b
  else
    let b1 :=
      if decide (selectedIndex b < scrollOffset b)
      then set_scrollOffset (selectedIndex b) b else b in
    let b2 :=
      if decide (selectedIndex b1 >= add (scrollOffset b1) (maxDisplayItems b1))
      then set_scrollOffset (add (sub (selectedIndex b1) (maxDisplayItems b1)) 1) b1
      else b1 in
    if decide (scrollOffset b2 < 0) then set_scrollOffset 0 b2 else b2.

Definition MoveUp (b : BasePaneModel) : BasePaneModel :=
  if decide (len (items b) = 0) then b
  else
    adjustScrollOffset
      (if decide (selectedIndex b > 0)
       then set_selectedIndex (sub (selectedIndex b) 1) b
       else set_selectedIndex (sub (len (items b)) 1) b).

Definition MoveDown (b : BasePaneModel) : BasePaneModel :=
  if decide (len (items b) = 0) then b
  else
    adjustScrollOffset
      (if decide (selectedIndex b < sub (len (items b)) 1)
       then set_selectedIndex (add (selectedIndex b) 1) b
       else set_selectedIndex 0 b).

Definition MoveToTop (b : BasePaneModel) : BasePaneModel :=
  set_scrollOffset 0 (set_selectedIndex 0 b).

Definition MoveToBottom (b : BasePaneModel) : BasePaneModel :=
  if decide (len (items b) > 0)
  then adjustScrollOffset (set_selectedIndex (sub (len (items b)) 1) b)
  else b.

Definition SelectItem (index : Z) (b : BasePaneModel) : BasePaneModel :=
  if decide (index >= 0 ∧ index < len (items b))
  then adjustScrollOffset (set_selectedIndex index b)
  else b.

Definition Clear (b : BasePaneModel) : BasePaneModel :=
  set_scrollOffset 0 (set_selectedIndex 0 (set_items [] b)).

Definition AddItem (item : PaneItem) (b : BasePaneModel) : BasePaneModel :=
  set_items (items b ++ [item]) b.

(** [RemoveItem]: [append(b.items[:index], b.items[index+1:]...)] behind the
    bounds check, then the clamp of the selection and the scroll adjustment. *)
Definition RemoveItem (index : Z) (b : BasePaneModel) : result BasePaneModel :=
  if decide (index >= 0 ∧ index < len (items b))
  then
    front ←! slice (items b) 0 index;
    back ←! slice (items b) (add index 1) (len (items b));
    let b1 := set_items (front ++ back) b in
    let b2 :=
      if decide (selectedIndex b1 >= len (items b1) ∧ len (items b1) > 0)
      then set_selectedIndex (sub (len (items b1)) 1) b1 else b1 in
    Ok (adjustScrollOffset b2)
  else Ok b.

(** [GetVisibleItems]: the window [items[start:end]]. *)
Definition GetVisibleItems (b : BasePaneModel) : result (list PaneItem) :=
  if decide (len (items b) = 0) then Ok []
  else
    let start := scrollOffset b in
    let end_ := add start (maxDisplayItems b) in
    let end_ := if decide (end_ > len (items b)) then len (items b) else end_ in
    let start := if decide (start > end_) then end_ else start in
    slice (items b) start end_.

(** *** Filtering *)

Section Filtering.
(** [strings.ToLower] lowers every letter of Unicode; it belongs to Go's
    library, and the filter is modelled over any such function. *)
Variable ToLower : string → string.

Definition containsIgnoreCase (s substr : string) : bool :=
  let s := ToLower s in
  let substr := ToLower substr in
  GoStrings.Contains s substr.

(** [Filter]: the loop appends the matching items to [filtered] in turn. *)
Definition Filter (query : string) (b : BasePaneModel) : list PaneItem :=
  if decide (query = "") then items b
  else
    foldl (λ filtered item,
             if containsIgnoreCase (Display item) query
                || containsIgnoreCase (Value item) query
             then filtered ++ [item] else filtered)
          [] (items b).

(** What the specification asks of an item: its display text or its value
    contains the query, letter case set aside. *)
Definition contains_ignoring_case (s query : string) : Prop :=
  GoStrings.occurs_in (ToLower query) (ToLower s).

Definition matches (query : string) (item : PaneItem) : Prop :=
  contains_ignoring_case (Display item) query ∨
  contains_ignoring_case (Value item) query.

End Filtering.

(** *** The operations as data, and the states they reach *)

Inductive Op : Type :=
  | OpMoveUp
  | OpMoveDown
  | OpMoveToTop
  | OpMoveToBottom
  | OpSelectItem (index : Z)
  | OpAddItem (item : PaneItem)
  | OpRemoveItem (index : Z)
  | OpClear.

Definition apply (o : Op) (b : BasePaneModel) : result BasePaneModel :=
  match o with
  | OpMoveUp => Ok (MoveUp b)
  | OpMoveDown => Ok (MoveDown b)
  | OpMoveToTop => Ok (MoveToTop b)
  | OpMoveToBottom => Ok (MoveToBottom b)
  | OpSelectItem i => Ok (SelectItem i b)
  | OpAddItem it => Ok (AddItem it b)
  | OpRemoveItem i => RemoveItem i b
  | OpClear => Ok (Clear b)
  end.

(** [append] cannot grow a slice past what the runtime can allocate. *)
Definition fits (o : Op) (b : BasePaneModel) : Prop :=
  match o with
  | OpAddItem _ => len (items b) < max_items
  | _ => True
  end.

(** The states a pane list goes through: built by [NewBasePaneModel], then
    changed by the public operations only. *)
Inductive reachable : BasePaneModel → Prop :=
  | reach_new t ty i : reachable (NewBasePaneModel t ty i)
  | reach_step o b b' :
      reachable b → fits o b → apply o b = Ok b' → reachable b'.

(** The cursor and the window of a state, as one arithmetic fact: the
    selection is a valid index (or 0 on an empty list) and lies in the
    window of [maxDisplayItems] rows that starts at [scrollOffset]. *)
Definition wf (b : BasePaneModel) : Prop :=
  1 ≤ maxDisplayItems b ≤ 2 ^ 62 ∧
  len (items b) ≤ max_items ∧
  0 ≤ scrollOffset b ≤ selectedIndex b ∧
  selectedIndex b < scrollOffset b + maxDisplayItems b ∧
  selectedIndex b < Z.max 1 (len (items b)).

(** The invariant of the specification. *)
Definition window_invariant (b : BasePaneModel) : Prop :=
  0 ≤ scrollOffset b ∧
  scrollOffset b ≤ selectedIndex b ∧
  selectedIndex b ≤ scrollOffset b + maxDisplayItems b - 1.

(** *** The setters, and the states reached when they are called too

    The four setters of [BasePaneModel] store their argument and do nothing
    else: [SetMaxDisplayItems] neither checks the size it is given nor
    adjusts the scroll offset to it. *)
Inductive Setter : Type :=
  | CallSetActive (active : bool)
  | CallSetLoading (loading : bool)
  | CallSetShowLineNumbers (show : bool)
  | CallSetMaxDisplayItems (max : Z).

Definition call_setter (s : Setter) (b : BasePaneModel) : BasePaneModel :=
  match s with
  | CallSetActive v => SetActive v b
  | CallSetLoading v => SetLoading v b
  | CallSetShowLineNumbers v => SetShowLineNumbers v b
  | CallSetMaxDisplayItems v => SetMaxDisplayItems v b
  end.

(** The states a pane list goes through when it is built by
    [NewBasePaneModel] and then changed by the eight operations and by the
    setters; [allowed s b] says which calls [s] of a setter are made in a
    state [b]. *)
Inductive reached (allowed : Setter → BasePaneModel → Prop)
  : BasePaneModel → Prop :=
  | reached_new t ty i : reached allowed (NewBasePaneModel t ty i)
  | reached_op o b b' :
      reached allowed b → fits o b → apply o b = Ok b' → reached allowed b'
  | reached_set s b :
      reached allowed b → allowed s b → reached allowed (call_setter s b).

(** Every call of a setter, with any argument an [int] can hold. *)
Definition any_call (s : Setter) (b : BasePaneModel) : Prop :=
  match s with
  | CallSetMaxDisplayItems n => min_int ≤ n ≤ max_int
  | _ => True
  end.

(** The calls that give the window at least one row and leave the cursor
    on one of its rows. *)
Definition window_holds_cursor (s : Setter) (b : BasePaneModel) : Prop :=
  match s with
  | CallSetMaxDisplayItems n =>
      1 ≤ n ≤ max_int ∧ selectedIndex b < scrollOffset b + n
  | _ => True
  end.

(** The operations that end with [adjustScrollOffset], or that set cursor
    and offset to 0: all but [AddItem], and [SelectItem] and [RemoveItem]
    when their index passes the bounds check. *)
Definition adjusts (o : Op) (b : BasePaneModel) : Prop :=
  match o with
  | OpAddItem _ => False
  | OpSelectItem index | OpRemoveItem index => 0 ≤ index < len (items b)
  | _ => True
  end.

End WithMetadata.

Arguments PaneItem : clear implicits.
Arguments BasePaneModel : clear implicits.

End Panes.

(** ** Messages and commands

    A message ([tea.Msg]) is any value; the cases below are the ones the
    modelled code tells apart.  A command ([tea.Cmd]) is a function that the
    runtime runs later to get a message; [option Cmd] adds Go's [nil]. *)

Module Messages.

Inductive Msg : Type :=
  | KeyMsg (key : string)                  (* [tea.KeyMsg], by its [String()] *)
  | WindowSizeMsg (Width Height : Z)
  | StashUpdateMsg (Stashes : list string)
  | ActionCompleteMsg (Action : string) (Success : bool) (Message : string)
  | DiffUpdateMsg (Diff File : string)
  | OtherMsg (name : string).              (* a message of any other type *)

#[warnings="-register-all"]
Inductive Cmd : Type :=
  | Quit                                   (* [tea.Quit] *)
  | Send (msg : Msg)                       (* a closure that returns [msg] *)
  | LoadStashes                            (* runs [gitRepo.GetStashes()] and
                                              returns a [StashUpdateMsg] *)
  | Batched (cmds : list Cmd).             (* a result of [tea.Batch] *)

(** [tea.Batch] is code of the Bubble Tea library, so the router below takes
    it as a parameter.  Two functions it can stand for: Bubble Tea's own
    returns [nil] when it is given no command; the other returns a command
    whatever it is given. *)
Definition teaBatch (cmds : list Cmd) : option Cmd :=
  match cmds with
  | [] => None
  | _ => Some (Batched cmds)
  end.

Definition alwaysBatch (cmds : list Cmd) : option Cmd := Some (Batched cmds).

End Messages.

(** ** The [Pane] interface, as far as the router uses it *)

Module PaneInterface.
Import Messages.

Class Pane (P : Type) : Type := {
  Update : Msg → P → result (P * option Cmd);
  SetActive : bool → P → P;
  IsActive : P → bool;
  Refresh : P → P * option Cmd
}.

(** A slice of panes holds panes of several types: a pane of type [A + B] is
    one of either type, and each call goes to the method of its own type. *)
#[global] Instance sum_Pane {A B : Type} `{!Pane A, !Pane B} : Pane (A + B) := {|
  Update msg p :=
    match p with
    | inl a => r ←! Update msg a; Ok (inl r.1, r.2)
    | inr b => r ←! Update msg b; Ok (inr r.1, r.2)
    end;
  SetActive v p :=
    match p with
    | inl a => inl (SetActive v a)
    | inr b => inr (SetActive v b)
    end;
  IsActive p :=
    match p with
    | inl a => IsActive a
    | inr b => IsActive b
    end;
  Refresh p :=
    match p with
    | inl a => let r := Refresh a in (inl r.1, r.2)
    | inr b => let r := Refresh b in (inr r.1, r.2)
    end
|}.

(** What every pane built on [BasePaneModel] does: [IsActive] reads the flag
    that [SetActive] wrote. *)
Definition active_flag_kept (P : Type) `{!Pane P} : Prop :=
  ∀ (v : bool) (p : P), IsActive (SetActive v p) = v.

End PaneInterface.

(** ** The stash pane *)

Module Stash.
Import GoInt Slice Messages.

Section WithMetadata.
Context {Meta : Type}.

(** [gitRepo] points to the repository the stashes are read from; what
    [GetStashes] returns reaches the pane as an argument or a message. *)
Record StashPane : Type := mkStashPane {
  base : Panes.BasePaneModel Meta;
  gitRepo : string
}.

Definition on_base (f : Panes.BasePaneModel Meta → Panes.BasePaneModel Meta)
    (s : StashPane) : StashPane :=
  mkStashPane (f (base s)) (gitRepo s).

(** The reference of stash [i]: the text up to the first closing brace of a
    line that starts with [stash@{], else [stash@{i}]. *)
Definition stashRefOf (i : Z) (stashLine : string) : string :=
  let stashRef := "stash@{" +:+ pretty i +:+ "}" in
  if GoStrings.HasPrefix stashLine "stash@{"
  then
    let endIndex := GoStrings.Index stashLine "}" in
    if decide (endIndex > 0)
    then String.substring 0 (Z.to_nat (add endIndex 1)) stashLine
    else stashRef
  else stashRef.

Definition stashItem (i : Z) (stashLine : string) : Panes.PaneItem Meta :=
  Panes.mkPaneItem stashLine (stashRefOf i stashLine) "📦" "stash" false None "".

Definition emptyItem : Panes.PaneItem Meta :=
  Panes.mkPaneItem "No stashed changes" "" "" "empty" false None "".

(** The loop [for i, stashLine := range stashes] with its [AddItem]. *)
Fixpoint addStashes (i : Z) (stashes : list string)
    (b : Panes.BasePaneModel Meta) : Panes.BasePaneModel Meta :=
  match stashes with
  | [] => b
  | stashLine :: rest =>
      addStashes (add i 1) rest (Panes.AddItem (stashItem i stashLine) b)
  end.

Definition loadStashes (stashes : list string) (s : StashPane) : StashPane :=
  let b := Panes.Clear (base s) in
  if decide (len stashes = 0)
  then mkStashPane (Panes.AddItem emptyItem b) (gitRepo s)
  else mkStashPane (addStashes 0 stashes b) (gitRepo s).

Definition NewStashPane (stashes : list string) : StashPane :=
  loadStashes stashes
    (mkStashPane (Panes.NewBasePaneModel "Stash" Panes.StashPaneType "stash") ".").

Definition updateFromStashMsg (stashes : list string) (s : StashPane) : StashPane :=
  let b := Panes.Clear (Panes.SetLoading false (base s)) in
  if decide (len stashes = 0)
  then mkStashPane (Panes.AddItem emptyItem b) (gitRepo s)
  else mkStashPane (addStashes 0 stashes b) (gitRepo s).

Definition Refresh (s : StashPane) : StashPane * option Cmd :=
  (on_base (Panes.SetLoading true) s, Some LoadStashes).

(** The command of an action that only reports its completion. *)
Definition completed (action message : string) : option Cmd :=
  Some (Send (ActionCompleteMsg action true message)).

(** [HandleAction]: the selected item is read first, whatever the action. *)
Definition HandleAction (action : string) (s : StashPane) : result (option Cmd) :=
  selectedItem ←! Panes.GetSelectedItem (base s);
  let with_selected (k : string → option Cmd) : option Cmd :=
    match selectedItem with
    | None => None
    | Some item => k (Panes.Value item)
    end in
  Ok (if decide (action = "create_stash")
      then completed "create_stash" "Created new stash"
      else if decide (action = "create_stash_include_untracked")
      then completed "create_stash_include_untracked"
             "Created new stash (including untracked files)"
      else if decide (action = "apply_stash")
      then with_selected (λ ref, completed "apply_stash" ("Applied stash: " +:+ ref))
      else if decide (action = "pop_stash")
      then with_selected (λ ref, completed "pop_stash" ("Popped stash: " +:+ ref))
      else if decide (action = "drop_stash")
      then with_selected (λ ref, completed "drop_stash" ("Dropped stash: " +:+ ref))
      else if decide (action = "show_stash")
      then with_selected
             (λ ref, Some (Send (DiffUpdateMsg
                                   "Stash contents would be shown here" ref)))
      else if decide (action = "clear_all_stashes")
      then completed "clear_all_stashes" "Cleared all stashes"
      else if decide (action = "create_branch_from_stash")
      then with_selected
             (λ _, completed "create_branch_from_stash"
                     "Branch creation dialog would appear here")
      else None).

Definition act (action : string) (s : StashPane) : result (StashPane * option Cmd) :=
  cmd ←! HandleAction action s; Ok (s, cmd).

(** [Update]: keys only when the pane is active, the stash list always. *)
Definition Update (msg : Msg) (s : StashPane) : result (StashPane * option Cmd) :=
  match msg with
  | KeyMsg key =>
      if negb (Panes.IsActive (base s)) then Ok (s, None)
      else if decide (key = "j" ∨ key = "down")
      then Ok (on_base Panes.MoveDown s, None)
      else if decide (key = "k" ∨ key = "up")
      then Ok (on_base Panes.MoveUp s, None)
      else if decide (key = "g") then Ok (on_base Panes.MoveToTop s, None)
      else if decide (key = "G") then Ok (on_base Panes.MoveToBottom s, None)
      else if decide (key = "enter") then act "apply_stash" s
      else if decide (key = "p") then act "pop_stash" s
      else if decide (key = "d") then act "drop_stash" s
      else if decide (key = "s") then act "create_stash" s
      else if decide (key = "S") then act "create_stash_include_untracked" s
      else if decide (key = "r") then Ok (Refresh s)
      else if decide (key = "v") then act "show_stash" s
      else if decide (key = "D") then act "clear_all_stashes" s
      else if decide (key = "b") then act "create_branch_from_stash" s
      else Ok (s, None)
  | StashUpdateMsg stashes => Ok (updateFromStashMsg stashes s, None)
  | _ => Ok (s, None)
  end.

#[global] Instance StashPane_Pane : PaneInterface.Pane StashPane := {|
  PaneInterface.Update := Update;
  PaneInterface.SetActive v := on_base (Panes.SetActive v);
  PaneInterface.IsActive s := Panes.IsActive (base s);
  PaneInterface.Refresh := Refresh
|}.

(** The items a stash list stands for in the pane. *)
Definition stashItems (stashes : list string) : list (Panes.PaneItem Meta) :=
  if decide (len stashes = 0) then [emptyItem]
  else imap (λ i stashLine, stashItem (Z.of_nat i) stashLine) stashes.

End WithMetadata.

Arguments StashPane : clear implicits.

End Stash.

(** ** The application model: five panes and a diff view

    The router is written against the [Pane] interface, so it is modelled
    over any pane type.  [tea.Batch] belongs to the Bubble Tea library, which
    is not part of the repository: the router takes it as [Batch], from the
    commands collected (none of them [nil]) to the command returned. *)

Module App.
Import GoInt Slice Messages.

Section Router.
Context {P : Type} `{!PaneInterface.Pane P}.
Variable Batch : list Cmd → option Cmd.

Record Model : Type := mkModel {
  panes : list P;
  activePane : Z;
  width : Z;
  height : Z;
  quitting : bool;
  filterMode : bool;
  filterText : string;
  diffScrollPos : Z;
  diffLines : list string
}.

Definition set_panes (v : list P) (m : Model) : Model :=
  mkModel v (activePane m) (width m) (height m) (quitting m)
    (filterMode m) (filterText m) (diffScrollPos m) (diffLines m).

Definition set_activePane (v : Z) (m : Model) : Model :=
  mkModel (panes m) v (width m) (height m) (quitting m)
    (filterMode m) (filterText m) (diffScrollPos m) (diffLines m).

Definition set_size (w h : Z) (m : Model) : Model :=
  mkModel (panes m) (activePane m) w h (quitting m)
    (filterMode m) (filterText m) (diffScrollPos m) (diffLines m).

Definition set_quitting (v : bool) (m : Model) : Model :=
  mkModel (panes m) (activePane m) (width m) (height m) v
    (filterMode m) (filterText m) (diffScrollPos m) (diffLines m).

Definition set_diffScrollPos (v : Z) (m : Model) : Model :=
  mkModel (panes m) (activePane m) (width m) (height m) (quitting m)
    (filterMode m) (filterText m) v (diffLines m).

(** [NewModel], given the five panes its constructors build. *)
Definition NewModel (ps : list P) : Model :=
  {| panes := ps; activePane := 1; width := 0; height := 0;
     quitting := false; filterMode := false; filterText := "";
     diffScrollPos := 0; diffLines := [] |}.

(** [setActivePane]: behind the bounds check, the index is stored and every
    pane is told whether it is the active one. *)
Definition setActivePane (index : Z) (m : Model) : Model :=
  if decide (index >= 0 ∧ index < len (panes m))
  then
    set_panes
      (imap (λ i pane, PaneInterface.SetActive (bool_decide (Z.of_nat i = index)) pane) (panes m))
      (set_activePane index m)
  else m.

(** [x % len(m.panes)] panics when there is no pane. *)
Definition mod_len (x : Z) (m : Model) : result Z :=
  if decide (len (panes m) = 0) then Panic else Ok (rem x (len (panes m))).

Definition nextPane (m : Model) : result Model :=
  index ←! mod_len (add (activePane m) 1) m;
  Ok (setActivePane index m).

Definition prevPane (m : Model) : result Model :=
  index ←! mod_len (add (sub (activePane m) 1) (len (panes m))) m;
  Ok (setActivePane index m).

(** The commands a loop has appended so far, plus one more unless [nil]. *)
Definition append_cmd (cmds : list Cmd) (cmd : option Cmd) : list Cmd :=
  match cmd with
  | Some c => cmds ++ [c]
  | None => cmds
  end.

(** [refreshAll]: every pane is refreshed in turn. *)
Definition refreshAll (m : Model) : Model * option Cmd :=
  let '(ps, cmds) :=
    foldl (λ '(ps, cmds) pane,
             let '(pane', cmd) := PaneInterface.Refresh pane in
             (ps ++ [pane'], append_cmd cmds cmd))
          ([], []) (panes m) in
  (set_panes ps m, Batch cmds).

Definition scrollDiffDown (m : Model) : Model :=
  if decide (len (diffLines m) > 0)
  then
    let maxScroll := sub (len (diffLines m)) (sub (height m) 5) in
    let maxScroll := if decide (maxScroll < 0) then 0 else maxScroll in
    if decide (diffScrollPos m < maxScroll)
    then set_diffScrollPos (add (diffScrollPos m) 1) m
    else m
  else m.

Definition scrollDiffUp (m : Model) : Model :=
  if decide (diffScrollPos m > 0)
  then set_diffScrollPos (sub (diffScrollPos m) 1) m
  else m.

(** [handleKeyMsg]: the model after the key and the command returned. *)
Definition handleKeyMsg (key : string) (m : Model) : result (Model * option Cmd) :=
  if decide (key = "q" ∨ key = "ctrl+c") then Ok (set_quitting true m, Some Quit)
  else if decide (key = "tab") then m' ←! nextPane m; Ok (m', Batch [])
  else if decide (key = "shift+tab") then m' ←! prevPane m; Ok (m', Batch [])
  else if decide (key = "1") then Ok (setActivePane 0 m, Batch [])
  else if decide (key = "2") then Ok (setActivePane 1 m, Batch [])
  else if decide (key = "3") then Ok (setActivePane 2 m, Batch [])
  else if decide (key = "4") then Ok (setActivePane 3 m, Batch [])
  else if decide (key = "5") then Ok (setActivePane 4 m, Batch [])
  else if decide (key = "ctrl+r") then Ok (refreshAll m)
  else if decide (key = "?") then Ok (m, Batch [])
  else if decide (key = "j" ∨ key = "down")
  then if decide (activePane m ≠ 4) then Ok (scrollDiffDown m, Batch [])
       else Ok (m, None)
  else if decide (key = "k" ∨ key = "up")
  then if decide (activePane m ≠ 4) then Ok (scrollDiffUp m, Batch [])
       else Ok (m, None)
  else Ok (m, None).

(** The end of the key branch of [Update]: the key goes to the active pane,
    whose [Update] runs; the pane it returns is stored back, and its command,
    if any, is batched. *)
Definition forward (msg : Msg) (m : Model) : result (Model * option Cmd) :=
  if decide (activePane m < len (panes m))
  then
    pane ←! index (panes m) (activePane m);
    r ←! PaneInterface.Update msg pane;
    Ok (set_panes (<[Z.to_nat (activePane m) := r.1]> (panes m)) m,
        Batch (append_cmd [] r.2))
  else Ok (m, Batch []).

(** The default branch of [Update]: a message of any other type goes to
    every pane in turn. *)
Definition broadcast (msg : Msg) (m : Model) : result (Model * option Cmd) :=
  r ←! foldl (λ acc pane,
                acc ←! acc;
                r ←! PaneInterface.Update msg pane;
                Ok (acc.1 ++ [r.1], append_cmd acc.2 r.2))
             (Ok ([], [])) (panes m);
  Ok (set_panes r.1 m, Batch r.2).

Definition Update (msg : Msg) (m : Model) : result (Model * option Cmd) :=
  match msg with
  | WindowSizeMsg w h => Ok (set_size w h m, None)
  | KeyMsg key =>
      r ←! handleKeyMsg key m;
      match r.2 with
      | Some cmd => Ok (r.1, Some cmd)
      | None => forward msg r.1
      end
  | _ => broadcast msg m
  end.

(** *** Sequences of pane switches *)

Inductive Call : Type :=
  | CallSetActivePane (index : Z)
  | CallNextPane
  | CallPrevPane.

Definition call (c : Call) (m : Model) : result Model :=
  match c with
  | CallSetActivePane index => Ok (setActivePane index m)
  | CallNextPane => nextPane m
  | CallPrevPane => prevPane m
  end.

Definition calls (cs : list Call) (m : Model) : result Model :=
  foldl (λ r c, m ←! r; call c m) (Ok m) cs.

(** The number of panes whose active flag is set. *)
Definition active_count (m : Model) : nat :=
  length (filter (λ pane, PaneInterface.IsActive pane = true) (panes m)).

(** A call that passes the bounds check of [setActivePane] in a router of
    [n] panes whose active index is in range. *)
Definition in_bounds (n : Z) (c : Call) : Prop :=
  match c with
  | CallSetActivePane index => 0 ≤ index < n
  | CallNextPane | CallPrevPane => True
  end.

End Router.

Arguments Model : clear implicits.

End App.

(** ** The application model with a details view and a focus

    The later revision of the model: four panes, a details pane on the right
    and a focus that says which of the two the navigation keys drive. *)

Module AppDetails.
Import GoInt Slice Messages.

Inductive Focus : Type := FocusLeftPanes | FocusDetails.

#[global] Instance Focus_eq_dec : EqDecision Focus.
Proof. solve_decision. Defined.

Record DetailsPane : Type := mkDetails {
  selectedLine : Z;
  scrollPos : Z;
  lines : list string
}.

Module Details.

Definition Reset (d : DetailsPane) : DetailsPane :=
  mkDetails 0 0 (lines d).

Definition MoveDown (d : DetailsPane) : DetailsPane :=
  if decide (len (lines d) = 0) then d
  else if decide (selectedLine d < sub (len (lines d)) 1)
  then mkDetails (add (selectedLine d) 1) (scrollPos d) (lines d)
  else d.

Definition MoveUp (d : DetailsPane) : DetailsPane :=
  if decide (selectedLine d > 0)
  then mkDetails (sub (selectedLine d) 1) (scrollPos d) (lines d)
  else d.

Definition MoveToTop (d : DetailsPane) : DetailsPane :=
  mkDetails 0 0 (lines d).

Definition MoveToBottom (d : DetailsPane) : DetailsPane :=
  if decide (len (lines d) > 0)
  then mkDetails (sub (len (lines d)) 1) (scrollPos d) (lines d)
  else d.

Definition AdjustScroll (maxLines : Z) (d : DetailsPane) : DetailsPane :=
  let maxLines := if decide (maxLines < 1) then 1 else maxLines in
  let d1 :=
    if decide (selectedLine d >= add (scrollPos d) maxLines)
    then mkDetails (selectedLine d) (add (sub (selectedLine d) maxLines) 1) (lines d)
    else d in
  if decide (selectedLine d1 < scrollPos d1)
  then mkDetails (selectedLine d1) (selectedLine d1) (lines d1)
  else d1.

Definition ScrollDown (maxLines : Z) (d : DetailsPane) : DetailsPane :=
  if decide (len (lines d) > 0)
  then
    let maxScroll := sub (len (lines d)) maxLines in
    let maxScroll := if decide (maxScroll < 0) then 0 else maxScroll in
    if decide (scrollPos d < maxScroll)
    then mkDetails (selectedLine d) (add (scrollPos d) 1) (lines d)
    else d
  else d.

Definition ScrollUp (d : DetailsPane) : DetailsPane :=
  if decide (scrollPos d > 0)
  then mkDetails (selectedLine d) (sub (scrollPos d) 1) (lines d)
  else d.

End Details.

Section Router.
Context {P : Type} `{!PaneInterface.Pane P}.
Variable Batch : list Cmd → option Cmd.

Record Model : Type := mkModel {
  panes : list P;
  activePane : Z;
  width : Z;
  height : Z;
  quitting : bool;
  filterMode : bool;
  filterText : string;
  details : DetailsPane;
  focus : Focus
}.

Definition set_panes (v : list P) (m : Model) : Model :=
  mkModel v (activePane m) (width m) (height m) (quitting m)
    (filterMode m) (filterText m) (details m) (focus m).

Definition set_activePane (v : Z) (m : Model) : Model :=
  mkModel (panes m) v (width m) (height m) (quitting m)
    (filterMode m) (filterText m) (details m) (focus m).

Definition set_size (w h : Z) (m : Model) : Model :=
  mkModel (panes m) (activePane m) w h (quitting m)
    (filterMode m) (filterText m) (details m) (focus m).

Definition set_quitting (v : bool) (m : Model) : Model :=
  mkModel (panes m) (activePane m) (width m) (height m) v
    (filterMode m) (filterText m) (details m) (focus m).

Definition set_details (v : DetailsPane) (m : Model) : Model :=
  mkModel (panes m) (activePane m) (width m) (height m) (quitting m)
    (filterMode m) (filterText m) v (focus m).

Definition set_focus (v : Focus) (m : Model) : Model :=
  mkModel (panes m) (activePane m) (width m) (height m) (quitting m)
    (filterMode m) (filterText m) (details m) v.

(** [NewModel], given the four panes its constructors build. *)
Definition NewModel (ps : list P) : Model :=
  {| panes := ps; activePane := 0; width := 0; height := 0;
     quitting := false; filterMode := false; filterText := "";
     details := mkDetails 0 0 []; focus := FocusLeftPanes |}.

Definition setActivePane (index : Z) (m : Model) : Model :=
  if decide (index >= 0 ∧ index < len (panes m))
  then
    set_panes
      (imap (λ i pane, PaneInterface.SetActive (bool_decide (Z.of_nat i = index)) pane)
         (panes m))
      (set_activePane index m)
  else m.

(** [x % len(m.panes)] panics when there is no pane. *)
Definition mod_len (x : Z) (m : Model) : result Z :=
  if decide (len (panes m) = 0) then Panic else Ok (rem x (len (panes m))).

Definition nextPane (m : Model) : result Model :=
  index ←! mod_len (add (activePane m) 1) m;
  Ok (setActivePane index m).

Definition prevPane (m : Model) : result Model :=
  index ←! mod_len (add (sub (activePane m) 1) (len (panes m))) m;
  Ok (setActivePane index m).

Definition append_cmd (cmds : list Cmd) (cmd : option Cmd) : list Cmd :=
  match cmd with
  | Some c => cmds ++ [c]
  | None => cmds
  end.

Definition refreshAll (m : Model) : Model * option Cmd :=
  let '(ps, cmds) :=
    foldl (λ '(ps, cmds) pane,
             let '(pane', cmd) := PaneInterface.Refresh pane in
             (ps ++ [pane'], append_cmd cmds cmd))
          ([], []) (panes m) in
  (set_panes ps m, Batch cmds).

Definition toggleFocus (m : Model) : Model :=
  if decide (focus m = FocusLeftPanes)
  then set_details (Details.Reset (details m)) (set_focus FocusDetails m)
  else set_focus FocusLeftPanes m.

Definition handlePaneNavigation (navFunc : Model → result Model) (m : Model)
  : result (Model * option Cmd) :=
  if decide (focus m = FocusLeftPanes)
  then m' ←! navFunc m; Ok (m', Batch [])
  else Ok (m, Batch []).

Definition handleVerticalNavigation (down : bool) (m : Model) : Model * option Cmd :=
  if decide (focus m = FocusDetails)
  then
    let d := if down then Details.MoveDown (details m)
             else Details.MoveUp (details m) in
    (set_details (Details.AdjustScroll (sub (height m) 5) d) m, Batch [])
  else if decide (activePane m ≠ 3)
  then
    let d := if down then Details.ScrollDown (sub (height m) 5) (details m)
             else Details.ScrollUp (details m) in
    (set_details d m, Batch [])
  else (m, None).

Definition handleJumpToTop (m : Model) : Model * option Cmd :=
  if decide (focus m = FocusDetails)
  then (set_details (Details.MoveToTop (details m)) m, Batch [])
  else (m, None).

Definition handleJumpToBottom (m : Model) : Model * option Cmd :=
  if decide (focus m = FocusDetails)
  then
    (set_details
       (Details.AdjustScroll (sub (height m) 5) (Details.MoveToBottom (details m))) m,
     Batch [])
  else (m, None).

Definition handleKeyMsg (key : string) (m : Model) : result (Model * option Cmd) :=
  if decide (key = "q" ∨ key = "ctrl+c") then Ok (set_quitting true m, Some Quit)
  else if decide (key = "tab") then handlePaneNavigation nextPane m
  else if decide (key = "shift+tab") then handlePaneNavigation prevPane m
  else if decide (key = "1")
  then handlePaneNavigation (λ m, Ok (setActivePane 0 m)) m
  else if decide (key = "2")
  then handlePaneNavigation (λ m, Ok (setActivePane 1 m)) m
  else if decide (key = "3")
  then handlePaneNavigation (λ m, Ok (setActivePane 2 m)) m
  else if decide (key = "4")
  then handlePaneNavigation (λ m, Ok (setActivePane 3 m)) m
  else if decide (key = "ctrl+r") then Ok (refreshAll m)
  else if decide (key = "?") then Ok (m, Batch [])
  else if decide (key = "j" ∨ key = "down") then Ok (handleVerticalNavigation true m)
  else if decide (key = "k" ∨ key = "up") then Ok (handleVerticalNavigation false m)
  else if decide (key = "g") then Ok (handleJumpToTop m)
  else if decide (key = "G") then Ok (handleJumpToBottom m)
  else Ok (m, None).

(** The end of the key branch of [Update]: the key goes to the active pane. *)
Definition forward (msg : Msg) (m : Model) : result (Model * option Cmd) :=
  if decide (activePane m < len (panes m))
  then
    pane ←! index (panes m) (activePane m);
    r ←! PaneInterface.Update msg pane;
    Ok (set_panes (<[Z.to_nat (activePane m) := r.1]> (panes m)) m,
        Batch (append_cmd [] r.2))
  else Ok (m, Batch []).

(** The default branch of [Update]: the message goes to every pane. *)
Definition broadcast (msg : Msg) (m : Model) : result (Model * option Cmd) :=
  r ←! foldl (λ acc pane,
                acc ←! acc;
                r ←! PaneInterface.Update msg pane;
                Ok (acc.1 ++ [r.1], append_cmd acc.2 r.2))
             (Ok ([], [])) (panes m);
  Ok (set_panes r.1 m, Batch r.2).

Definition Update (msg : Msg) (m : Model) : result (Model * option Cmd) :=
  match msg with
  | WindowSizeMsg w h => Ok (set_size w h m, None)
  | KeyMsg key =>
      if decide (key = " ") then Ok (toggleFocus m, None)
      else
        r ←! handleKeyMsg key m;
        match r.2 with
        | Some cmd => Ok (r.1, Some cmd)
        | None =>
            if decide (focus r.1 = FocusDetails) then Ok (r.1, None)
            else forward msg r.1
        end
  | _ => broadcast msg m
  end.

End Router.

Arguments Model : clear implicits.

End AppDetails.

(** ** More of Go's strings: slicing, splitting and joining

    [strings.Split] and [strings.SplitN] are called with separators of one
    byte only (a newline, a colon, a bar), and are modelled for those. *)

Module GoText.
Import GoInt.

(** [len(s)] of a string: its number of bytes. *)
Definition slen (s : string) : Z := Z.of_nat (String.length s).

(** [s[lo:hi]] on a string: panics unless [0 ≤ lo ≤ hi ≤ len(s)]. *)
Definition substr (s : string) (lo hi : Z) : result string :=
  if decide (0 ≤ lo ∧ lo ≤ hi ∧ hi ≤ slen s)
  then Ok (String.substring (Z.to_nat lo) (Z.to_nat (hi - lo)) s)
  else Panic.

(** [s[i]] on a string: panics unless [0 ≤ i < len(s)]. *)
Definition byte_at (s : string) (i : Z) : result Ascii.ascii :=
  if decide (0 ≤ i ∧ i < slen s)
  then match String.get (Z.to_nat i) s with
       | Some c => Ok c
       | None => Panic
       end
  else Panic.

(** [strings.HasSuffix(s, suffix)]. *)
Definition HasSuffix (s suffix : string) : bool :=
  bool_decide (slen s >= slen suffix) &&
  bool_decide (String.substring (String.length s - String.length suffix)
                 (String.length suffix) s = suffix).

(** [strings.Split(s, sep)]: the pieces of [s] between the occurrences of
    [sep]; one piece, [s] itself, when [sep] does not occur. *)
Fixpoint Split (s : string) (sep : Ascii.ascii) : list string :=
  match s with
  | EmptyString => [EmptyString]
  | String c s' =>
      if decide (c = sep) then EmptyString :: Split s' sep
      else match Split s' sep with
           | piece :: pieces => String c piece :: pieces
           | [] => [String c EmptyString]
           end
  end.

(** The pieces of [s] cut at its first [k] separators, the last piece being
    the remainder as it is. *)
Fixpoint splitFirst (s : string) (sep : Ascii.ascii) (k : nat) : list string :=
  match k with
  | O => [s]
  | S k' =>
      match s with
      | EmptyString => [EmptyString]
      | String c s' =>
          if decide (c = sep) then EmptyString :: splitFirst s' sep k'
          else match splitFirst s' sep k with
               | piece :: pieces => String c piece :: pieces
               | [] => [String c EmptyString]
               end
      end
  end.

(** [strings.SplitN(s, sep, n)]: at most [n] pieces for [n > 0], [nil] for
    [n = 0], all the pieces for [n < 0]. *)
Definition SplitN (s : string) (sep : Ascii.ascii) (n : Z) : list string :=
  if decide (n = 0) then []
  else if decide (n < 0) then Split s sep
  else splitFirst s sep (Z.to_nat (n - 1)).

(** [strings.Join(elems, sep)]. *)
Fixpoint Join (elems : list string) (sep : string) : string :=
  match elems with
  | [] => ""
  | [x] => x
  | x :: rest => x +:+ sep +:+ Join rest sep
  end.

(** [strings.TrimSpace(s)] removes the white space at both ends of [s], as
    Unicode defines it ([unicode.IsSpace]).  A Go string is a sequence of
    bytes read as UTF-8, so the white space characters are these sequences
    of bytes: the six of ASCII (tab, line feed, vertical tab, form feed,
    carriage return, space), one byte each; U+0085 and U+00A0, two bytes
    each (C2 85, C2 A0); U+1680 (E1 9A 80), U+2000 to U+200A (E2 80 80 to
    E2 80 8A), U+2028, U+2029, U+202F (E2 80 A8, E2 80 A9, E2 80 AF),
    U+205F (E2 81 9F) and U+3000 (E3 80 80), three bytes each.  A byte that
    starts no valid encoding is read as U+FFFD, which is no white space. *)
Definition asciiSpace (c : Ascii.ascii) : bool :=
  let n := Ascii.nat_of_ascii c in
  bool_decide (n = 9 ∨ n = 10 ∨ n = 11 ∨ n = 12 ∨ n = 13 ∨ n = 32)%nat.

Definition isSpace2 (c d : Ascii.ascii) : bool :=
  let c := Ascii.nat_of_ascii c in
  let d := Ascii.nat_of_ascii d in
  bool_decide (c = 194 ∧ (d = 133 ∨ d = 160))%nat.

Definition isSpace3 (c d e : Ascii.ascii) : bool :=
  let c := Ascii.nat_of_ascii c in
  let d := Ascii.nat_of_ascii d in
  let e := Ascii.nat_of_ascii e in
  bool_decide ((c = 225 ∧ d = 154 ∧ e = 128) ∨
               (c = 226 ∧ d = 128 ∧
                (128 ≤ e ≤ 138 ∨ e = 168 ∨ e = 169 ∨ e = 175)) ∨
               (c = 226 ∧ d = 129 ∧ e = 159) ∨
               (c = 227 ∧ d = 128 ∧ e = 128))%nat.

(** [u] is the encoding of one white space character. *)
Definition isSpaceRune (u : string) : bool :=
  match u with
  | String c EmptyString => asciiSpace c
  | String c (String d EmptyString) => isSpace2 c d
  | String c (String d (String e EmptyString)) => isSpace3 c d e
  | _ => false
  end.

(** [strings.TrimLeftFunc(s, unicode.IsSpace)]: the characters are read from
    the start, and the first that is no white space stops the loop. *)
Fixpoint trimLeft (s : string) : string :=
  match s with
  | EmptyString => EmptyString
  | String c s1 =>
      if asciiSpace c then trimLeft s1
      else
        match s1 with
        | EmptyString => s
        | String d s2 =>
            if isSpace2 c d then trimLeft s2
            else
              match s2 with
              | EmptyString => s
              | String e s3 => if isSpace3 c d e then trimLeft s3 else s
              end
        end
  end.

(** [strings.TrimRightFunc(s, unicode.IsSpace)]: the characters are read
    from the end.  What is left of [c] followed by [s'] is [c] followed by
    what is left of [s'], unless that is one white space character. *)
Fixpoint trimRight (s : string) : string :=
  match s with
  | EmptyString => EmptyString
  | String c s' =>
      let u := String c (trimRight s') in
      if isSpaceRune u then EmptyString else u
  end.

Definition TrimSpace (s : string) : string := trimRight (trimLeft s).

(** [strings.Repeat(s, count)] panics on a negative count. *)
Definition Repeat (s : string) (count : Z) : result string :=
  if decide (count < 0) then Panic
  else Ok (Nat.iter (Z.to_nat count) (String.append s) "").

End GoText.

(** ** Styles and rendering

    The panes and the layout draw with the lipgloss library.  A style is
    built from [lipgloss.NewStyle()] by setter calls, and is modelled as the
    list of the settings made, in order; what [Render] and the two joins
    return is the library's business, and the code is modelled over any such
    functions. *)

Module Lipgloss.

Inductive Border : Type := NormalBorder | RoundedBorder.

Inductive Attr : Type :=
  | Foreground (color : string)
  | Background (color : string)
  | Bold (v : bool)
  | Italic (v : bool)
  | Width (w : Z)
  | Height (h : Z)
  | Padding (vertical horizontal : Z)
  | PaddingLeft (n : Z)
  | PaddingRight (n : Z)
  | BorderStyle (border : Border)
  | BorderForeground (color : string).

Definition Style : Type := list Attr.

Definition NewStyle : Style := [].

Class Renderer : Type := {
  Render : Style → string → string;         (* [style.Render(s)] *)
  JoinVertical : list string → string;      (* [JoinVertical(Left, ...)] *)
  JoinHorizontal : list string → string     (* [JoinHorizontal(Top, ...)] *)
}.

(** The line feed of Go's ["\n"]. *)
Definition nl : string := String (Ascii.ascii_of_nat 10) "".

(** A renderer that ignores the styles, to run the code on examples. *)
Definition plain : Renderer := {|
  Render _ s := s;
  JoinVertical := fix join lines :=
    match lines with
    | [] => ""
    | [x] => x
    | x :: rest => x +:+ nl +:+ join rest
    end;
  JoinHorizontal := foldr String.append ""
|}.

End Lipgloss.

(** ** The stash pane on the screen *)

Module StashView.
Import Stdlib.Strings.Ascii.
Import GoInt Slice Messages GoText Lipgloss Stash.

Section WithRenderer.
Context {Meta : Type} `{!Renderer}.

(** [formatStashItem]: the marker, the icon, and the display text, cut at
    its first two colons into reference, branch and message when it has
    them. *)
Definition formatStashItem (item : Panes.PaneItem Meta) (isSelected : bool)
  : string :=
  let parts := [if isSelected then "▶" else " "] in
  let parts :=
    if decide (Panes.Icon item ≠ "") then parts ++ [Panes.Icon item] else parts in
  let stashInfo := Panes.Display item in
  let parts :=
    if GoStrings.Contains stashInfo ":"
    then
      match SplitN stashInfo ":"%char 3 with
      | stashRef :: branch :: message :: _ =>
          let refStyle := NewStyle ++ [Foreground "#FFEAA7"; Bold true] in
          let styledRef := Render refStyle stashRef in
          let branchStyle := NewStyle ++ [Foreground "#74B9FF"] in
          let styledBranch := Render branchStyle branch in
          let messageStyle := NewStyle ++ [Foreground "#DDD6FE"] in
          let messageStyle :=
            if isSelected then messageStyle ++ [Bold true] else messageStyle in
          let styledMessage := Render messageStyle message in
          parts ++ [styledRef +:+ ":"; styledBranch +:+ ":"; styledMessage]
      | _ => parts ++ [stashInfo]
      end
    else parts ++ [stashInfo] in
  let line := Join parts " " in
  if isSelected
  then Render (NewStyle ++ [Background "#2D3748"; Padding 0 1]) line
  else line.

(** [getFooter]: the position of the cursor, counted from one, and the
    number of items. *)
Definition getFooter (s : StashPane Meta) : string :=
  let count := len (Panes.items (base s)) in
  let selected := add (Panes.GetSelectedIndex (base s)) 1 in
  Render (NewStyle ++ [Foreground "#74B9FF"])
    ("Stashes: " +:+ pretty selected +:+ "/" +:+ pretty count).

(** [View]: the rows of the visible window, the scroll indicators and the
    footer. *)
Definition View (s : StashPane Meta) : result string :=
  let b := base s in
  if Panes.IsLoading b
  then Ok (Render (NewStyle ++ [Foreground "#74B9FF"]) "Loading stashes...")
  else if decide (len (Panes.items b) = 0)
  then Ok (Render (NewStyle ++ [Foreground "#74B9FF"]) "No stashed changes")
  else
    visibleItems ←! Panes.GetVisibleItems b;
    let lines :=
      imap (λ i item,
              let actualIndex := add (Panes.GetScrollOffset b) (Z.of_nat i) in
              let isSelected := bool_decide (actualIndex = Panes.GetSelectedIndex b) in
              formatStashItem item isSelected)
           visibleItems in
    let lines :=
      if decide (Panes.GetScrollOffset b > 0)
      then ["  ↑ more stashes above"] ++ lines else lines in
    let lines :=
      if decide (add (Panes.GetScrollOffset b) (len visibleItems)
                 < len (Panes.items b))
      then lines ++ ["  ↓ more stashes below"] else lines in
    let lines :=
      if decide (len (Panes.items b) > 0)
      then lines ++ [""; getFooter s] else lines in
    Ok (JoinVertical lines).

End WithRenderer.

(** [GetAvailableActions]. *)
Definition GetAvailableActions : list string :=
  ["create_stash"; "create_stash_include_untracked"; "apply_stash"; "pop_stash";
   "drop_stash"; "show_stash"; "clear_all_stashes"; "create_branch_from_stash";
   "refresh"].

End StashView.

(** ** The application on the screen: five panes and a diff view *)

(** The part of the [Pane] interface that [Model.View] calls. *)
Module PaneDrawing.

Class PaneView (Meta P : Type) : Type := {
  View : P → result string;
  GetTitle : P → string;
  GetSelectedItem : P → result (option (Panes.PaneItem Meta))
}.

#[global] Instance StashPane_PaneView {Meta : Type} `{!Lipgloss.Renderer}
  : PaneView Meta (Stash.StashPane Meta) := {|
  View := StashView.View;
  GetTitle s := Panes.title (Stash.base s);
  GetSelectedItem s := Panes.GetSelectedItem (Stash.base s)
|}.

End PaneDrawing.

Module Layout.
Import Stdlib.Strings.Ascii.
Import GoInt Slice GoText Lipgloss PaneDrawing App.

(** [x * y] and [x / y] on [int]; the division truncates towards zero, and
    every divisor in the modelled code is a non-zero constant. *)
Definition mul (x y : Z) : Z := wrap (x * y).
Definition quo (x y : Z) : Z := wrap (Z.quot x y).

Section Rendering.
Context {Meta P : Type} `{!PaneInterface.Pane P} `{!PaneView Meta P} `{!Renderer}.
(** What the file system and git answer: whether [os.Stat] finds a
    directory at a path, and the diff [GetFileDiff] returns for a path. *)
Variable isDir : string → bool.
Variable GetFileDiff : string → string.

Implicit Types (m : Model P).

Definition set_diffLines (v : list string) m : Model P :=
  mkModel (panes m) (activePane m) (width m) (height m) (quitting m)
    (filterMode m) (filterText m) (diffScrollPos m) v.

Definition renderPaneTitle (title : string) (number : Z) (isActive : bool)
  : string :=
  if decide (number = 0)
  then
    if isActive
    then Render (NewStyle ++ [Foreground "#04B575"; Bold true]) title
    else Render (NewStyle ++ [Foreground "#FFEAA7"]) title
  else
    let titleStyle := NewStyle in
    let titleStyle :=
      if isActive then titleStyle ++ [Foreground "#04B575"; Bold true]
      else titleStyle ++ [Foreground "#FFEAA7"] in
    Render titleStyle ("[" +:+ pretty number +:+ "] " +:+ title).

Definition createPaneStyle (width height : Z) (isActive : bool) : Style :=
  let baseStyle :=
    NewStyle ++ [Width (sub width 2); Height (sub height 2); Padding 0 1;
                 BorderStyle NormalBorder] in
  if isActive then baseStyle ++ [BorderForeground "#04B575"]
  else baseStyle ++ [BorderForeground "#6C5CE7"].

(** The loop of [renderLeftColumn] from pane [i] on: the first four panes
    are drawn, each under its title and in its frame. *)
Fixpoint renderLeftPanesFrom (i : Z) (ps : list P) (width paneHeight : Z) m
  : result (list string) :=
  match ps with
  | [] => Ok []
  | pane :: rest =>
      if decide (i < 4)
      then
        let isActive := bool_decide (i = activePane m) in
        content ←! View pane;
        let title := renderPaneTitle (GetTitle pane) (add i 1) isActive in
        let fullContent := title +:+ nl +:+ content in
        let style := createPaneStyle width paneHeight isActive in
        let renderedPane := Render style fullContent in
        others ←! renderLeftPanesFrom (add i 1) rest width paneHeight m;
        Ok (renderedPane :: others)
      else Ok []
  end.

Definition renderLeftColumn (width paneHeight : Z) m : result string :=
  rendered ←! renderLeftPanesFrom 0 (panes m) width paneHeight m;
  Ok (JoinVertical rendered).

Definition renderStashPane (width height : Z) m : result string :=
  if decide (len (panes m) <= 4)
  then Ok (Render (createPaneStyle width height false) "No stash pane available")
  else
    stashPane ←! index (panes m) 4;
    let isActive := bool_decide (activePane m = 4) in
    content ←! View stashPane;
    let title := renderPaneTitle (GetTitle stashPane) 5 isActive in
    let fullContent := title +:+ nl +:+ content in
    let style := createPaneStyle width height isActive in
    Ok (Render style fullContent).

(** One line of the diff: cut at 120 bytes, coloured by its first byte. *)
Definition styledLine (line : string) : string :=
  let line :=
    if decide (slen line > 120)
    then String.substring 0 120 line +:+ "..." else line in
  match line with
  | EmptyString => ""
  | String c _ =>
      if decide (c = "+"%char)
      then Render (NewStyle ++ [Foreground "#00FF00"]) line
      else if decide (c = "-"%char)
      then Render (NewStyle ++ [Foreground "#FF0000"]) line
      else if decide (c = "@"%char)
      then Render (NewStyle ++ [Foreground "#00FFFF"; Bold true]) line
      else Render (NewStyle ++ [Foreground "#CCCCCC"]) line
  end.

(** [renderScrollableDiffContent]: the lines [diffLines[start:end]] between
    the two scroll indicators. *)
Definition renderScrollableDiffContent (maxLines : Z) m : result string :=
  let diffLines := diffLines m in
  let scrollPos := diffScrollPos m in
  if decide (len diffLines = 0)
  then Ok (Render (NewStyle ++ [Foreground "#74B9FF"]) "Select a file to see diff")
  else
    let start := scrollPos in
    let end_ := add scrollPos maxLines in
    let end_ := if decide (end_ > len diffLines) then len diffLines else end_ in
    let start :=
      if decide (start >= len diffLines) then sub (len diffLines) 1 else start in
    let start := if decide (start < 0) then 0 else start in
    visibleLines ←! slice diffLines start end_;
    let styledLines := styledLine <$> visibleLines in
    let result := Join styledLines nl in
    let result :=
      if decide (scrollPos > 0)
      then "  ↑ more content above" +:+ nl +:+ result else result in
    let result :=
      if decide (end_ < len diffLines)
      then result +:+ nl +:+ "  ↓ more content below" else result in
    Ok result.

Definition renderDiffPane (width height : Z) m : result string :=
  let title := renderPaneTitle "Diff" 0 false in
  diffContent ←! renderScrollableDiffContent (sub height 4) m;
  let fullContent := title +:+ nl +:+ diffContent in
  let style := createPaneStyle width height false in
  Ok (Render style fullContent).

Definition renderRightColumn (width height : Z) m : result string :=
  if decide (activePane m = 4 ∧ len (panes m) > 4)
  then renderStashPane width height m
  else renderDiffPane width height m.

(** [renderStatusBar]: the name of the active pane and the keys on the
    left, cut when the line is too narrow, the version on the right. *)
Definition renderStatusBar m : result string :=
  currentPaneName ←!
    (if decide (activePane m < len (panes m))
     then pane ←! index (panes m) (activePane m); Ok (GetTitle pane)
     else Ok "Unknown");
  let leftStatus :=
    if decide (activePane m ≠ 4)
    then "Active: " +:+ currentPaneName
         +:+ " | 1-5: Switch | Tab: Next | j/k: Scroll diff | q: Quit"
    else "Active: " +:+ currentPaneName
         +:+ " | 1-5: Switch | Tab: Next | j/k: Navigate | q: Quit" in
  let rightStatus := "TUI101 v0.1.0" in
  let maxLeftLen := sub (sub (width m) (slen rightStatus)) 5 in
  leftStatus ←!
    (if decide (slen leftStatus > maxLeftLen)
     then cut ←! substr leftStatus 0 (sub maxLeftLen 3); Ok (cut +:+ "...")
     else Ok leftStatus);
  let usedSpace := add (slen leftStatus) (slen rightStatus) in
  let padding := sub (width m) usedSpace in
  let padding := if decide (padding < 0) then 0 else padding in
  spaces ←! Repeat " " padding;
  let statusLine := leftStatus +:+ spaces +:+ rightStatus in
  Ok (Render (NewStyle ++ [Width (width m); Background "#1A202C";
                           Foreground "#04B575"])
        statusLine).

Definition renderLayout (leftPaneWidth rightPaneWidth paneHeight : Z) m
  : result string :=
  let totalHeight := height m in
  let statusBarHeight := 1 in
  let availableHeight := sub totalHeight statusBarHeight in
  let leftPaneHeight := quo availableHeight 4 in
  let rightPaneHeight := availableHeight in
  leftPanes ←! renderLeftColumn leftPaneWidth leftPaneHeight m;
  rightPane ←! renderRightColumn rightPaneWidth rightPaneHeight m;
  let mainView := JoinHorizontal [leftPanes; rightPane] in
  statusBar ←! renderStatusBar m;
  Ok (JoinVertical [mainView; statusBar]).

Definition getRealGitDiff (filepath : string) m : string :=
  if HasSuffix filepath "/" || bool_decide (filepath = "..")
  then "Directory selected - no diff to show"
  else if isDir filepath
  then "Directory selected - no diff to show"
  else if decide (activePane m = 1) then GetFileDiff filepath
  else if decide (activePane m = 3) then GetFileDiff filepath
  else "".

Definition getSelectedItemForDiff m : result string :=
  if decide (activePane m >= len (panes m)) then Ok ""
  else
    activePane ←! index (panes m) (activePane m);
    selectedItem ←! GetSelectedItem activePane;
    match selectedItem with
    | None => Ok ""
    | Some item => Ok (Panes.Value item)
    end.

Definition updateDiffContent m : result (Model P) :=
  selectedItem ←! getSelectedItemForDiff m;
  if decide (selectedItem ≠ "")
  then
    let diffContent := getRealGitDiff selectedItem m in
    Ok (set_diffLines (Split diffContent (Ascii.ascii_of_nat 10)) m)
  else Ok (set_diffLines ["Select a file to see diff"] m).

(** [View]: the model as [View] leaves it, and the screen. *)
Definition View m : result (Model P * string) :=
  if quitting m then Ok (m, "Goodbye! 👋" +:+ nl)
  else if decide (width m = 0 ∨ height m = 0) then Ok (m, "Initializing...")
  else
    let leftPaneWidth := quo (mul (width m) 2) 3 in
    let rightPaneWidth := sub (width m) leftPaneWidth in
    let availableHeight := sub (height m) 1 in
    let paneHeight := quo availableHeight 4 in
    let m := if decide (activePane m >= len (panes m))
             then set_activePane 0 m else m in
    let m :=
      set_panes
        (imap (λ i pane,
                 PaneInterface.SetActive (bool_decide (Z.of_nat i = activePane m)) pane)
              (panes m))
        m in
    m ←! updateDiffContent m;
    screen ←! renderLayout leftPaneWidth rightPaneWidth paneHeight m;
    Ok (m, screen).

End Rendering.

End Layout.

(** ** What the repository answers: reading the output of git

    The functions of [git/repository.go] run a git command and read what it
    printed.  The command is the world's business: its result, the bytes
    printed or an error, is an argument here ([None] is the error). *)

Module Git.
Import Stdlib.Strings.Ascii.
Import GoInt Slice GoText.

(** [GetFileStatus], given what [git status --porcelain <file>] printed. *)
Definition GetFileStatus (output : option string) : string :=
  match output with
  | None => ""
  | Some output =>
      let line := TrimSpace output in
      if decide (slen line < 2) then ""
      else
        match line with
        | String indexStatus (String workTreeStatus _) =>
            if decide (workTreeStatus = "?"%char) then "untracked"
            else if decide (workTreeStatus = "M"%char) then "modified"
            else if decide (workTreeStatus = "D"%char) then "deleted"
            else if decide (indexStatus = "A"%char) then "added"
            else if decide (indexStatus = "M"%char) then "staged"
            else if decide (indexStatus = "D"%char) then "staged_deleted"
            else if decide (indexStatus = "R"%char) then "renamed"
            else if decide (indexStatus = "C"%char) then "copied"
            else ""
        | _ => ""
        end
  end.

(** The loop of [truncateDiffOutput] at one line. *)
Definition truncateLine (line : string) : string :=
  if decide (slen line > 500)
  then String.substring 0 500 line +:+ "... (line truncated)"
  else line.

(** [truncateDiffOutput]: at most 200 lines and a notice, each line cut at
    500 bytes.  Both slice expressions sit behind the test of the length
    they need. *)
Definition truncateDiffOutput (output : string) : string :=
  let lines := Split output (ascii_of_nat 10) in
  let maxLines := 200 in
  let lines :=
    if decide (len lines > maxLines)
    then take (Z.to_nat maxLines) lines
         ++ ["... (diff truncated, showing first " +:+ pretty maxLines +:+ " lines)"]
    else lines in
  let lines := truncateLine <$> lines in
  Join lines (String (ascii_of_nat 10) "").

(** [GetStashes], given what [git stash list] printed. *)
Definition GetStashes (output : option string) : list string :=
  match output with
  | None => []
  | Some output =>
      let lines := Split (TrimSpace output) (ascii_of_nat 10) in
      if decide (len lines = 1 ∧ lines !! 0%nat = Some "") then [] else lines
  end.

End Git.

(** ** Properties of the integer and slice operations *)

Module GoIntFacts.
Import GoInt.

Lemma wrap_small z : min_int ≤ z ≤ max_int → wrap z = z.
Proof. unfold wrap, min_int, max_int. intros Hz. rewrite Z.mod_small; lia. Qed.

Lemma wrap_range z : min_int ≤ wrap z ≤ max_int.
Proof.
  unfold wrap, min_int, max_int.
  pose proof (Z.mod_pos_bound (z + 2 ^ 63) (2 ^ 64)). lia.
Qed.

Lemma len_nonneg {A} (l : list A) : 0 ≤ len l.
Proof. unfold len. lia. Qed.

Lemma len_nil_iff {A} (l : list A) : len l = 0 ↔ l = [].
Proof. unfold len. destruct l; simpl; split; (done || lia). Qed.

Lemma len_app {A} (l k : list A) : len (l ++ k) = len l + len k.
Proof. unfold len. rewrite length_app. lia. Qed.

End GoIntFacts.

(** Arithmetic that stays in range does not wrap. *)
Ltac int_range :=
  unfold GoInt.min_int, GoInt.max_int, GoInt.max_items, GoInt.len in *;
  simpl in *; lia.

Ltac int_simpl :=
  unfold GoInt.add, GoInt.sub in *;
  repeat match goal with
    | |- context [GoInt.wrap ?z] => rewrite (GoIntFacts.wrap_small z) by int_range
    | H : context [GoInt.wrap ?z] |- _ =>
        rewrite (GoIntFacts.wrap_small z) in H by int_range
    end.

Module SliceFacts.
Import GoInt Slice.

Lemma index_ok {A} (s : list A) i :
  0 ≤ i < len s → ∃ x, s !! Z.to_nat i = Some x ∧ index s i = Ok x.
Proof.
  intros Hi. unfold index. rewrite decide_True by lia.
  destruct (lookup_lt_is_Some_2 s (Z.to_nat i)) as [x Hx].
  { unfold len in Hi. lia. }
  exists x. by rewrite Hx.
Qed.

Lemma slice_ok {A} (s : list A) lo hi :
  0 ≤ lo → lo ≤ hi → hi ≤ len s →
  slice s lo hi = Ok (take (Z.to_nat (hi - lo)) (drop (Z.to_nat lo) s)).
Proof. intros. unfold slice. by rewrite decide_True by lia. Qed.

End SliceFacts.

(** ** Properties of the string functions *)

Module GoStringsFacts.
Import GoStrings.

Lemma HasPrefix_spec s p : HasPrefix s p = true ↔ ∃ post, s = p +:+ post.
Proof.
  revert s. induction p as [|a p IH]; intros s; simpl.
  - split; [by exists s|done].
  - destruct s as [|c s]; simpl.
    + split; [done|]. by intros [post Hpost].
    + rewrite andb_true_iff, bool_decide_eq_true, IH. split.
      * intros [-> [post ->]]. by exists post.
      * intros [post Hpost]. injection Hpost as -> ->. eauto.
Qed.

Lemma Index_lower_bound s sub : -1 ≤ Index s sub.
Proof.
  induction s as [|c s IH]; simpl; destruct (HasPrefix _ sub); try lia.
  case_decide; lia.
Qed.

Lemma Index_found s sub : Index s sub >= 0 ↔ occurs_in sub s.
Proof.
  unfold occurs_in. induction s as [|c s IH]; simpl.
  - destruct (HasPrefix "" sub) eqn:Hp.
    + apply HasPrefix_spec in Hp as [post Hp]. split; [|lia].
      intros _. by exists "", post.
    + split; [lia|]. intros (pre & post & Hs).
      destruct pre; [|done]. simpl in Hs.
      assert (HasPrefix "" sub = true) by (apply HasPrefix_spec; eauto).
      congruence.
  - destruct (HasPrefix (String c s) sub) eqn:Hp.
    + apply HasPrefix_spec in Hp as [post Hp]. split; [|lia].
      intros _. by exists "", post.
    + pose proof (Index_lower_bound s sub). case_decide as Hi.
      * split; [lia|]. intros (pre & post & Hs).
        destruct pre as [|a pre]; simpl in Hs.
        { assert (HasPrefix (String c s) sub = true)
            by (apply HasPrefix_spec; eauto).
          congruence. }
        injection Hs as -> Hs.
        assert (Index s sub >= 0) by (apply IH; eauto). lia.
      * split; [|lia]. intros _.
        destruct (proj1 IH) as (pre & post & ->); [lia|].
        by exists (String c pre), post.
Qed.

Lemma Contains_spec s sub : Contains s sub = true ↔ occurs_in sub s.
Proof. unfold Contains. by rewrite bool_decide_eq_true, Index_found. Qed.

End GoStringsFacts.

(** ** Properties of the pane list *)

Module PanesFacts.
Import GoInt GoIntFacts Slice SliceFacts Panes.

Section WithMetadata.
Context {Meta : Type}.
Implicit Types (b : BasePaneModel Meta) (it : PaneItem Meta) (o : @Op Meta).

Lemma adjustScrollOffset_fields b :
  items (adjustScrollOffset b) = items b ∧
  selectedIndex (adjustScrollOffset b) = selectedIndex b ∧
  maxDisplayItems (adjustScrollOffset b) = maxDisplayItems b ∧
  active (adjustScrollOffset b) = active b ∧
  loading (adjustScrollOffset b) = loading b.
Proof. unfold adjustScrollOffset. repeat case_decide; done. Qed.

Lemma adjustScrollOffset_items b : items (adjustScrollOffset b) = items b.
Proof. apply adjustScrollOffset_fields. Qed.

Lemma adjustScrollOffset_selectedIndex b :
  selectedIndex (adjustScrollOffset b) = selectedIndex b.
Proof. apply adjustScrollOffset_fields. Qed.

Lemma adjustScrollOffset_empty b :
  items b = [] → scrollOffset (adjustScrollOffset b) = 0.
Proof. intros Hnil. unfold adjustScrollOffset. by rewrite Hnil. Qed.

(** What [adjustScrollOffset] needs and what it gives: from any offset that
    fits in the list and any valid selection, the selection ends up inside
    the window. *)
Lemma adjustScrollOffset_wf b :
  1 ≤ maxDisplayItems b ≤ 2 ^ 62 →
  len (items b) ≤ max_items →
  0 ≤ scrollOffset b ≤ max_items →
  0 ≤ selectedIndex b < Z.max 1 (len (items b)) →
  wf (adjustScrollOffset b).
Proof.
  intros Hmax Hlen Hscroll Hsel. unfold wf, adjustScrollOffset.
  repeat case_decide; simpl in *; int_simpl; simpl in *; int_range.
Qed.

Lemma wf_scroll_bound b : wf b → 0 ≤ scrollOffset b ≤ max_items.
Proof. unfold wf, max_items. lia. Qed.

Lemma wf_New t ty i : wf (NewBasePaneModel (Meta:=Meta) t ty i).
Proof. unfold wf, max_items. simpl. change (len []) with 0. lia. Qed.

Lemma wf_MoveUp b : wf b → wf (MoveUp b).
Proof.
  intros Hb. unfold MoveUp. case_decide; [done|].
  pose proof (wf_scroll_bound b Hb). unfold wf in Hb.
  apply adjustScrollOffset_wf; case_decide; simpl; int_simpl; int_range.
Qed.

Lemma wf_MoveDown b : wf b → wf (MoveDown b).
Proof.
  intros Hb. unfold MoveDown. case_decide; [done|].
  pose proof (wf_scroll_bound b Hb). unfold wf in Hb.
  apply adjustScrollOffset_wf; case_decide; simpl; int_simpl; int_range.
Qed.

Lemma wf_MoveToTop b : wf b → wf (MoveToTop b).
Proof. unfold wf, MoveToTop. simpl. lia. Qed.

Lemma wf_MoveToBottom b : wf b → wf (MoveToBottom b).
Proof.
  intros Hb. unfold MoveToBottom. case_decide; [|done].
  pose proof (wf_scroll_bound b Hb). unfold wf in Hb.
  apply adjustScrollOffset_wf; simpl; int_simpl; int_range.
Qed.

Lemma wf_SelectItem index b : wf b → wf (SelectItem index b).
Proof.
  intros Hb. unfold SelectItem. case_decide; [|done].
  pose proof (wf_scroll_bound b Hb). unfold wf in Hb.
  apply adjustScrollOffset_wf; simpl; int_range.
Qed.

Lemma wf_Clear b : wf b → wf (Clear b).
Proof. unfold wf, Clear, max_items. simpl. change (len []) with 0. lia. Qed.

Lemma wf_AddItem it b : len (items b) < max_items → wf b → wf (AddItem it b).
Proof.
  unfold wf, AddItem. simpl. rewrite len_app. change (len [it]) with 1. lia.
Qed.

(** [RemoveItem] never panics: both slice expressions sit behind the bounds
    check.  In bounds it deletes the item, clamps the selection and adjusts
    the offset; out of bounds it returns the state as it was. *)
Lemma RemoveItem_in_bounds index b :
  0 ≤ index < len (items b) →
  len (items b) ≤ max_int →
  RemoveItem index b =
    Ok (adjustScrollOffset
          (let b1 := set_items (delete (Z.to_nat index) (items b)) b in
           if decide (selectedIndex b1 >= len (items b1) ∧ len (items b1) > 0)
           then set_selectedIndex (len (items b1) - 1) b1 else b1)).
Proof.
  intros Hi Hlen. unfold RemoveItem. rewrite decide_True by lia.
  rewrite slice_ok by lia. simpl.
  int_simpl. rewrite slice_ok by lia. simpl.
  rewrite Z.sub_0_r, drop_0.
  replace (Z.to_nat (len (items b) - (index + 1)))
    with (length (items b) - Z.to_nat (index + 1))%nat by (unfold len; lia).
  rewrite <- length_drop, firstn_all.
  replace (Z.to_nat (index + 1)) with (S (Z.to_nat index)) by lia.
  rewrite <- delete_take_drop.
  assert (Hd : len (delete (Z.to_nat index) (items b)) = len (items b) - 1).
  { unfold len in *. rewrite length_delete; [lia|].
    apply lookup_lt_is_Some_2. lia. }
  simpl. repeat case_decide; simpl in *; int_simpl; try done; int_range.
Qed.

Lemma RemoveItem_out_of_bounds index b :
  ¬ (0 ≤ index < len (items b)) → RemoveItem index b = Ok b.
Proof. intros Hi. unfold RemoveItem. by rewrite decide_False by lia. Qed.

Lemma RemoveItem_total index b :
  len (items b) ≤ max_int → ∃ b', RemoveItem index b = Ok b'.
Proof.
  intros Hlen. destruct (decide (0 ≤ index < len (items b))) as [Hi|Hi].
  - rewrite RemoveItem_in_bounds by done. by eexists.
  - rewrite RemoveItem_out_of_bounds by done. by eexists.
Qed.

Lemma wf_RemoveItem index b b' : wf b → RemoveItem index b = Ok b' → wf b'.
Proof.
  intros Hb Hrm. pose proof (wf_scroll_bound b Hb) as Hs.
  destruct (decide (0 ≤ index < len (items b))) as [Hi|Hi].
  - rewrite RemoveItem_in_bounds in Hrm by (unfold wf in Hb; int_range).
    injection Hrm as <-.
    assert (Hd : len (delete (Z.to_nat index) (items b)) = len (items b) - 1).
    { unfold len in *. rewrite length_delete; [lia|].
      apply lookup_lt_is_Some_2. lia. }
    unfold wf in Hb.
    apply adjustScrollOffset_wf; simpl; case_decide; simpl in *; lia.
  - rewrite RemoveItem_out_of_bounds in Hrm by done. by injection Hrm as <-.
Qed.

Lemma wf_apply o b b' : wf b → fits o b → apply o b = Ok b' → wf b'.
Proof.
  intros Hb Hfit Happ. destruct o; simpl in *;
    try (injection Happ as <-);
    eauto using wf_MoveUp, wf_MoveDown, wf_MoveToTop, wf_MoveToBottom,
      wf_SelectItem, wf_AddItem, wf_Clear, wf_RemoveItem.
Qed.

Lemma apply_total o b : len (items b) ≤ max_int → ∃ b', apply o b = Ok b'.
Proof. destruct o; simpl; eauto using RemoveItem_total. Qed.

Lemma reachable_wf b : reachable b → wf b.
Proof. induction 1; eauto using wf_New, wf_apply. Qed.

(** No operation touches the window size. *)
Lemma apply_maxDisplayItems o b b' :
  apply o b = Ok b' → maxDisplayItems b' = maxDisplayItems b.
Proof.
  pose proof (λ x, proj1 (proj2 (proj2 (adjustScrollOffset_fields x)))) as Hadj.
  destruct o as [| | | |i|it|i|]; simpl; intros Happ;
    try (injection Happ as <-);
    unfold MoveUp, MoveDown, MoveToBottom, SelectItem, RemoveItem in *;
    repeat case_decide; rewrite ?Hadj; try done.
  - destruct (slice (items b) 0 i); [|done]. simpl in Happ.
    destruct (slice (items b) (add i 1) (len (items b))); [|done].
    simpl in Happ. injection Happ as <-. rewrite Hadj. by case_decide.
  - by injection Happ as <-.
Qed.

Lemma reachable_maxDisplayItems b : reachable b → maxDisplayItems b = 50.
Proof.
  induction 1 as [|o b b' _ IH _ Happ]; [done|].
  by rewrite (apply_maxDisplayItems _ _ _ Happ).
Qed.

Lemma wf_window_invariant b : wf b → window_invariant b.
Proof. unfold wf, window_invariant. lia. Qed.

(** *** Sequences of cursor moves *)

Inductive Move : Type := Up | Down.

Definition move (m : Move) b : BasePaneModel Meta :=
  match m with
  | Up => MoveUp b
  | Down => MoveDown b
  end.

Definition moves (ms : list Move) b : BasePaneModel Meta :=
  foldl (λ acc m, move m acc) b ms.

Lemma move_items m b : items (move m b) = items b.
Proof.
  destruct m; simpl; unfold MoveUp, MoveDown; case_decide; try done;
    by rewrite (proj1 (adjustScrollOffset_fields _)); case_decide.
Qed.

Lemma move_selectedIndex m b :
  0 < len (items b) ≤ max_int →
  0 ≤ selectedIndex b < len (items b) →
  0 ≤ selectedIndex (move m b) < len (items b).
Proof.
  intros Hlen Hsel. destruct m; simpl; unfold MoveUp, MoveDown;
    (case_decide; [lia|]);
    rewrite (proj1 (proj2 (adjustScrollOffset_fields _)));
    case_decide; simpl; int_simpl; int_range.
Qed.

Lemma moves_selectedIndex ms b :
  0 < len (items b) ≤ max_int →
  0 ≤ selectedIndex b < len (items b) →
  items (moves ms b) = items b ∧
  0 ≤ selectedIndex (moves ms b) < len (items b).
Proof.
  revert b. induction ms as [|m ms IH]; intros b Hlen Hsel; [done|].
  simpl. pose proof (move_items m b) as Hit.
  pose proof (move_selectedIndex m b Hlen Hsel) as Hm.
  destruct (IH (move m b)) as [IH1 IH2]; rewrite ?Hit; try done.
  rewrite Hit in IH1, IH2. done.
Qed.

(** *** The visible window of a well-formed state *)

Lemma GetVisibleItems_wf b :
  wf b →
  GetVisibleItems b =
    Ok (take (Z.to_nat (maxDisplayItems b))
          (drop (Z.to_nat (scrollOffset b)) (items b))).
Proof.
  intros Hb. unfold GetVisibleItems. unfold wf in Hb.
  case_decide as Hn.
  { apply len_nil_iff in Hn. rewrite Hn. by rewrite drop_nil, take_nil. }
  int_simpl. pose proof (len_nonneg (items b)).
  destruct (decide (scrollOffset b + maxDisplayItems b > len (items b)));
    (rewrite decide_False by lia); rewrite slice_ok by lia; f_equal.
  - rewrite (take_ge _ (Z.to_nat (maxDisplayItems b)));
      [|rewrite length_drop; unfold len in *; lia].
    apply take_ge. rewrite length_drop. unfold len in *. lia.
  - f_equal. lia.
Qed.

(** *** States reached through the setters too

    [sound] holds of every state, whatever the setters were called with: the
    cursor is a valid index and the offset is not negative.  [in_window]
    adds that the cursor is on a row of the window. *)
Definition sound b : Prop :=
  min_int ≤ maxDisplayItems b ≤ max_int ∧
  len (items b) ≤ max_items ∧
  0 ≤ scrollOffset b ≤ max_int ∧
  0 ≤ selectedIndex b < Z.max 1 (len (items b)).

Definition in_window b : Prop :=
  sound b ∧ scrollOffset b ≤ selectedIndex b < scrollOffset b + maxDisplayItems b.

Lemma wrap_over z : max_int < z ≤ max_int + 2 ^ 63 → wrap z = z - 2 ^ 64.
Proof.
  unfold wrap, max_int. intros Hz.
  replace (z + 2 ^ 63) with ((z - 2 ^ 63) + 1 * 2 ^ 64) by lia.
  rewrite Z_mod_plus_full. rewrite Z.mod_small; lia.
Qed.

Lemma Ok_inj {A} (x y : A) : Ok x = Ok y → x = y.
Proof. congruence. Qed.

Lemma in_window_invariant b : sound b → in_window b ↔ window_invariant b.
Proof. unfold in_window, window_invariant, sound. intuition lia. Qed.

(** [adjustScrollOffset] keeps a sound state sound, whatever the window
    size: the last of its three steps leaves no negative offset. *)
Lemma adjustScrollOffset_sound b : sound b → sound (adjustScrollOffset b).
Proof.
  intros (Hmax & Hlen & Hscroll & Hsel). unfold sound.
  destruct (adjustScrollOffset_fields b) as (-> & -> & -> & _).
  split; [done|]. split; [done|]. split; [|done].
  assert (Hint : max_int = 2 ^ 63 - 1) by done.
  assert (Hmin : min_int = - 2 ^ 63) by done.
  unfold adjustScrollOffset. case_decide; [simpl; lia|]. cbv zeta.
  set (b1 := if decide (selectedIndex b < scrollOffset b)
             then set_scrollOffset (selectedIndex b) b else b).
  assert (H1 : 0 ≤ scrollOffset b1 ≤ max_int).
  { unfold b1. case_decide; simpl; [|done].
    assert (max_items = 2 ^ 48) by done. lia. }
  set (b2 := if decide (selectedIndex b1 >= add (scrollOffset b1) (maxDisplayItems b1))
             then set_scrollOffset
                    (add (sub (selectedIndex b1) (maxDisplayItems b1)) 1) b1
             else b1).
  assert (H2 : min_int ≤ scrollOffset b2 ≤ max_int).
  { unfold b2. case_decide; simpl; [apply wrap_range|lia]. }
  case_decide; simpl; lia.
Qed.

(** The offset [adjustScrollOffset] leaves, for any window size that is not
    negative; the first case is the one in which [scrollOffset +
    maxDisplayItems] wraps around. *)
Lemma adjustScrollOffset_offset b :
  items b ≠ [] → sound b → 0 ≤ maxDisplayItems b →
  scrollOffset (adjustScrollOffset b)
  = let start := Z.min (scrollOffset b) (selectedIndex b) in
    if decide (max_int < start + maxDisplayItems b) then 0
    else if decide (selectedIndex b >= start + maxDisplayItems b)
         then selectedIndex b - maxDisplayItems b + 1
         else start.
Proof.
  intros Hne (Hmax & Hlen & Hscroll & Hsel) Hrows.
  assert (Hn : len (items b) ≠ 0) by (by rewrite len_nil_iff).
  pose proof (len_nonneg (items b)) as Hpos.
  assert (Hbig : max_items = 2 ^ 48) by done.
  assert (Hint : max_int = 2 ^ 63 - 1) by done.
  assert (Hmin : min_int = - 2 ^ 63) by done.
  unfold adjustScrollOffset. rewrite decide_False by done. cbv zeta.
  set (b1 := if decide (selectedIndex b < scrollOffset b)
             then set_scrollOffset (selectedIndex b) b else b).
  assert (H1 : scrollOffset b1 = Z.min (scrollOffset b) (selectedIndex b) ∧
               selectedIndex b1 = selectedIndex b ∧
               maxDisplayItems b1 = maxDisplayItems b).
  { unfold b1. case_decide; simpl; lia. }
  destruct H1 as (Hs1 & Hsel1 & Hmax1). rewrite Hsel1, Hmax1, Hs1.
  set (start := Z.min (scrollOffset b) (selectedIndex b)) in *.
  assert (Hstart : 0 ≤ start ≤ max_items) by (unfold start; lia).
  unfold add, sub.
  rewrite (wrap_small (selectedIndex b - maxDisplayItems b)) by lia.
  rewrite (wrap_small (selectedIndex b - maxDisplayItems b + 1)) by lia.
  destruct (decide (max_int < start + maxDisplayItems b)) as [Hover|Hfits].
  - rewrite wrap_over by lia.
    destruct (decide (selectedIndex b >= start + maxDisplayItems b - 2 ^ 64));
      [|lia].
    simpl. by rewrite decide_True by lia.
  - rewrite wrap_small by lia.
    destruct (decide (selectedIndex b >= start + maxDisplayItems b)); simpl.
    + by rewrite decide_False by lia.
    + rewrite Hs1. by rewrite decide_False by lia.
Qed.

(** With a window of at least one row, [adjustScrollOffset] brings the
    cursor into it, from any offset. *)
Lemma adjustScrollOffset_in_window b :
  sound b → 1 ≤ maxDisplayItems b → in_window (adjustScrollOffset b).
Proof.
  intros Hb Hrows. split; [by apply adjustScrollOffset_sound|].
  destruct (adjustScrollOffset_fields b) as (_ & -> & -> & _).
  assert (Hbig : max_items = 2 ^ 48) by done.
  assert (Hint : max_int = 2 ^ 63 - 1) by done.
  destruct (decide (items b = [])) as [Hnil|Hne].
  - rewrite adjustScrollOffset_empty by done.
    unfold sound in Hb. rewrite Hnil in Hb. change (len []) with 0 in Hb. lia.
  - rewrite (adjustScrollOffset_offset b Hne Hb) by lia. cbv zeta.
    assert (Hn : len (items b) ≠ 0) by (by rewrite len_nil_iff).
    pose proof (len_nonneg (items b)). unfold sound in Hb.
    repeat case_decide; lia.
Qed.

(** An operation that does not adjust leaves cursor, offset and window size
    as they were. *)
Lemma apply_unadjusted o b b' :
  apply o b = Ok b' → ¬ adjusts o b →
  selectedIndex b' = selectedIndex b ∧ scrollOffset b' = scrollOffset b ∧
  maxDisplayItems b' = maxDisplayItems b.
Proof.
  intros Happ Hno. destruct o as [| | | |index|it|index|]; simpl in Happ, Hno;
    try (by destruct Hno).
  - injection Happ as <-. unfold SelectItem. by rewrite decide_False by lia.
  - by injection Happ as <-.
  - rewrite RemoveItem_out_of_bounds in Happ by done. by injection Happ as <-.
Qed.

(** Every operation returns a sound state and keeps the cursor in the
    window; one that adjusts brings it there. *)
Lemma sound_apply o b b' :
  sound b → fits o b → apply o b = Ok b' →
  sound b' ∧
  (in_window b → in_window b') ∧
  (adjusts o b → 1 ≤ maxDisplayItems b → items b' ≠ [] → in_window b').
Proof.
  intros Hb Hfit Happ. assert (Hbig : max_items = 2 ^ 48) by done.
  assert (Hint : max_int = 2 ^ 63 - 1) by done.
  assert (Hmin : min_int = - 2 ^ 63) by done.
  pose proof (len_nonneg (items b)) as Hpos.
  pose proof Hb as (Hmax & Hlen & Hscroll & Hsel).
  assert (Hrows : in_window b → 1 ≤ maxDisplayItems b)
    by (intros [_ Hin]; lia).
  assert (Hadj : ∀ c,
    sound c → maxDisplayItems c = maxDisplayItems b →
    sound (adjustScrollOffset c) ∧
    (in_window b → in_window (adjustScrollOffset c)) ∧
    (adjusts o b → 1 ≤ maxDisplayItems b → items (adjustScrollOffset c) ≠ [] →
     in_window (adjustScrollOffset c))).
  { intros c Hc Hsame. split; [by apply adjustScrollOffset_sound|].
    split; intros; apply adjustScrollOffset_in_window; try done;
      rewrite Hsame; auto. }
  destruct o as [| | | |index|it|index|]; simpl in Happ, Hfit.
  - (* MoveUp *)
    injection Happ as <-. unfold MoveUp. case_decide as Hn.
    { apply len_nil_iff in Hn. split; [done|]. split; [done|].
      intros _ _ Hne. by destruct Hne. }
    unfold sub. rewrite !wrap_small by lia.
    apply Hadj; case_decide; try done; unfold sound; simpl; lia.
  - (* MoveDown *)
    injection Happ as <-. unfold MoveDown. case_decide as Hn.
    { apply len_nil_iff in Hn. split; [done|]. split; [done|].
      intros _ _ Hne. by destruct Hne. }
    unfold add, sub. rewrite !wrap_small by lia.
    apply Hadj; case_decide; try done; unfold sound; simpl; lia.
  - (* MoveToTop *)
    injection Happ as <-. unfold MoveToTop, in_window, sound. simpl. lia.
  - (* MoveToBottom *)
    injection Happ as <-. unfold MoveToBottom. case_decide as Hn.
    + unfold sub. rewrite wrap_small by lia.
      apply Hadj; try done. unfold sound. simpl. lia.
    + assert (Hnil : items b = []) by (apply len_nil_iff; lia).
      split; [done|]. split; [done|]. intros _ _ Hne. by destruct Hne.
  - (* SelectItem *)
    injection Happ as <-. unfold SelectItem. case_decide as Hi.
    + apply Hadj; try done. unfold sound. simpl. lia.
    + split; [done|]. split; [done|]. simpl. lia.
  - (* AddItem *)
    injection Happ as <-. unfold AddItem, in_window, sound. simpl.
    rewrite len_app. change (len [it]) with 1. split; [lia|]. split; [lia|done].
  - (* RemoveItem *)
    destruct (decide (0 ≤ index < len (items b))) as [Hi|Hi].
    + rewrite RemoveItem_in_bounds in Happ by lia. injection Happ as <-.
      assert (Hd : len (delete (Z.to_nat index) (items b)) = len (items b) - 1).
      { unfold len in *. rewrite length_delete; [lia|].
        apply lookup_lt_is_Some_2. lia. }
      cbv zeta.
      apply Hadj; case_decide; try done; unfold sound; simpl in *; lia.
    + rewrite RemoveItem_out_of_bounds in Happ by done. injection Happ as <-.
      split; [done|]. split; [done|]. simpl. lia.
  - (* Clear *)
    injection Happ as <-. unfold Clear, in_window, sound. simpl.
    change (len []) with 0. lia.
Qed.

Lemma sound_New t ty i : sound (NewBasePaneModel (Meta:=Meta) t ty i).
Proof.
  unfold sound, max_items, max_int, min_int. simpl. change (len []) with 0. lia.
Qed.

Lemma reached_sound b : reached any_call b → sound b.
Proof.
  induction 1 as [t ty i|o b b' _ IH Hfit Happ|s b _ IH Hcall].
  - apply sound_New.
  - exact (proj1 (sound_apply o b b' IH Hfit Happ)).
  - destruct s; unfold sound in *; simpl in *; lia.
Qed.

(** The states reached with some calls of the setters are among those
    reached with any calls of them, and so are the states reached without
    a setter. *)
Lemma reached_any_call b : reached window_holds_cursor b → reached any_call b.
Proof.
  induction 1 as [t ty i|o b b' _ IH Hfit Happ|s b _ IH Hcall].
  - apply reached_new.
  - by apply (reached_op _ o b).
  - apply reached_set; [done|]. destruct s; simpl in *; try done.
    assert (min_int = - 2 ^ 63) by done. lia.
Qed.

Lemma reachable_reached allowed b : reachable b → reached allowed b.
Proof. induction 1; eauto using reached_new, reached_op. Qed.

(** While [SetMaxDisplayItems] leaves the cursor on a row of the window, the
    cursor stays on one. *)
Lemma reached_in_window b : reached window_holds_cursor b → in_window b.
Proof.
  induction 1 as [t ty i|o b b' Hreach IH Hfit Happ|s b _ IH Hcall].
  - split; [apply sound_New|]. simpl. lia.
  - exact (proj1 (proj2 (sound_apply o b b' (proj1 IH) Hfit Happ)) IH).
  - destruct IH as [Hb Hin].
    assert (min_int = - 2 ^ 63) by done.
    destruct s; unfold in_window, sound in *; simpl in *; lia.
Qed.

(** The visible window when its size is not negative and its end does not
    wrap around: the offset is never negative. *)
Lemma GetVisibleItems_window b :
  0 ≤ scrollOffset b → 0 ≤ maxDisplayItems b →
  scrollOffset b + maxDisplayItems b ≤ max_int →
  GetVisibleItems b =
    Ok (take (Z.to_nat (maxDisplayItems b))
          (drop (Z.to_nat (scrollOffset b)) (items b))).
Proof.
  intros Hscroll Hmax Hov.
  assert (Hint : max_int = 2 ^ 63 - 1) by done.
  assert (Hmin : min_int = - 2 ^ 63) by done.
  unfold GetVisibleItems. case_decide as Hn.
  { apply len_nil_iff in Hn. rewrite Hn. by rewrite drop_nil, take_nil. }
  pose proof (len_nonneg (items b)). unfold add. rewrite wrap_small by lia.
  cbv zeta.
  destruct (decide (scrollOffset b + maxDisplayItems b > len (items b)))
    as [Hend|Hend].
  - destruct (decide (scrollOffset b > len (items b))) as [Hstart|Hstart].
    + rewrite slice_ok by lia. f_equal.
      rewrite drop_ge by (unfold len in *; lia). rewrite take_nil.
      rewrite drop_ge by (unfold len in *; lia). by rewrite take_nil.
    + rewrite slice_ok by lia. f_equal.
      rewrite (take_ge _ (Z.to_nat (maxDisplayItems b)));
        [|rewrite length_drop; unfold len in *; lia].
      apply take_ge. rewrite length_drop. unfold len in *. lia.
  - rewrite decide_False by lia. rewrite slice_ok by lia. do 2 f_equal. lia.
Qed.

#[global] Instance adjusts_dec o b : Decision (adjusts o b).
Proof. destruct o; simpl; apply _. Defined.

(** *** Filtering *)

Section Filtering.
Variable ToLower : string → string.

Lemma containsIgnoreCase_spec s q :
  containsIgnoreCase ToLower s q = true ↔ contains_ignoring_case ToLower s q.
Proof. apply GoStringsFacts.Contains_spec. Qed.

Lemma matches_spec q it :
  containsIgnoreCase ToLower (Display it) q
    || containsIgnoreCase ToLower (Value it) q = true
  ↔ matches ToLower q it.
Proof.
  unfold matches. by rewrite orb_true_iff, !containsIgnoreCase_spec.
Qed.

#[global] Instance matches_dec q it : Decision (matches ToLower q it).
Proof.
  refine (cast_if (decide (containsIgnoreCase ToLower (Display it) q
                           || containsIgnoreCase ToLower (Value it) q = true)));
    abstract (by rewrite <- matches_spec).
Defined.

(** The loop of [Filter] keeps the items that pass the test, in order. *)
Lemma Filter_loop (test : PaneItem Meta → bool) (P : PaneItem Meta → Prop)
    `{!∀ x, Decision (P x)} (l acc : list (PaneItem Meta)) :
  (∀ x, test x = true ↔ P x) →
  foldl (λ filtered item, if test item then filtered ++ [item] else filtered)
    acc l
  = acc ++ filter P l.
Proof.
  intros Htest. revert acc. induction l as [|x l IH]; intros acc; simpl.
  - by rewrite filter_nil, app_nil_r.
  - rewrite IH, filter_cons. destruct (test x) eqn:Hx.
    + rewrite decide_True by (by apply Htest). by rewrite <- app_assoc.
    + rewrite decide_False; [done|]. rewrite <- Htest. congruence.
Qed.

Lemma Filter_nonempty_query q b :
  q ≠ "" → Filter ToLower q b = filter (matches ToLower q) (items b).
Proof.
  intros Hq. unfold Filter. rewrite decide_False by done.
  rewrite (Filter_loop _ (matches ToLower q)); [done|].
  intros it. apply matches_spec.
Qed.

End Filtering.

(** *** The properties the specification states *)

(** C1 (amended). Any of the eight operations, applied to a state reached
    by construction, the eight operations and the setters, returns (it does
    not panic).  If the list is then non-empty,
    [0 ≤ scrollOffset ≤ selectedIndex ≤ scrollOffset + maxDisplayItems - 1]
    holds exactly when the window has at least one row and either the
    operation adjusts the offset or the invariant held before it: [AddItem],
    and [SelectItem] and [RemoveItem] with an index out of bounds, leave
    cursor and offset alone.  Hence the invariant holds after every
    operation as long as each call [SetMaxDisplayItems n] was made with
    [n ≥ 1] and with the cursor on one of the [n] rows that start at
    [scrollOffset]; [SetMaxDisplayItems] itself checks neither. *)
Theorem C1_window_invariant_after_operation b o :
  reached any_call b → fits o b →
  ∃ b', apply o b = Ok b' ∧
    (items b' ≠ [] →
     (0 ≤ scrollOffset b' ∧
      scrollOffset b' ≤ selectedIndex b' ∧
      selectedIndex b' ≤ scrollOffset b' + maxDisplayItems b' - 1)
     ↔ (1 ≤ maxDisplayItems b ∧ (adjusts o b ∨ window_invariant b))) ∧
    (reached window_holds_cursor b →
     items b' ≠ [] →
     0 ≤ scrollOffset b' ∧
     scrollOffset b' ≤ selectedIndex b' ∧
     selectedIndex b' ≤ scrollOffset b' + maxDisplayItems b' - 1).
Proof.
  intros Hreach Hfit. pose proof (reached_sound b Hreach) as Hb.
  destruct (apply_total o b) as [b' Happ].
  { destruct Hb as (_ & Hlen & _). unfold max_items, max_int in *. lia. }
  exists b'. split; [done|].
  destruct (sound_apply o b b' Hb Hfit Happ) as (Hb' & Hkeep & Hadj).
  pose proof (apply_maxDisplayItems o b b' Happ) as Hmax.
  split.
  - intros Hne. change (window_invariant b' ↔
      1 ≤ maxDisplayItems b ∧ (adjusts o b ∨ window_invariant b)).
    split.
    + intros Hinv. split; [unfold window_invariant in Hinv; lia|].
      destruct (decide (adjusts o b)) as [Ho|Ho]; [by left|right].
      destruct (apply_unadjusted o b b' Happ Ho) as (Hsel & Hscroll & _).
      unfold window_invariant in *. rewrite <- Hsel, <- Hscroll, <- Hmax. done.
    + intros [Hrows [Ho|Hinv]].
      * apply in_window_invariant; [done|]. by apply Hadj.
      * apply in_window_invariant; [done|]. apply Hkeep.
        by apply in_window_invariant.
  - intros Hkept _. apply (in_window_invariant b' Hb'), Hkeep.
    by apply reached_in_window.
Qed.

(** C2. On a list of length N > 0 any sequence of MoveDown/MoveUp calls
    keeps [selectedIndex] in [0, N-1]; MoveDown steps forward and wraps
    from N-1 to 0, MoveUp steps back and wraps from 0 to N-1; on an empty
    list both calls change nothing. *)
Theorem C2_moves_stay_in_range_and_wrap b :
  (items b = [] → MoveDown b = b ∧ MoveUp b = b) ∧
  (0 < len (items b) ≤ max_int →
   0 ≤ selectedIndex b < len (items b) →
   (∀ ms, items (moves ms b) = items b ∧
          0 ≤ selectedIndex (moves ms b) ≤ len (items b) - 1) ∧
   (selectedIndex b = len (items b) - 1 → selectedIndex (MoveDown b) = 0) ∧
   (selectedIndex b < len (items b) - 1 →
    selectedIndex (MoveDown b) = selectedIndex b + 1) ∧
   (selectedIndex b = 0 → selectedIndex (MoveUp b) = len (items b) - 1) ∧
   (0 < selectedIndex b → selectedIndex (MoveUp b) = selectedIndex b - 1)).
Proof.
  split.
  - intros Hnil. unfold MoveDown, MoveUp. rewrite Hnil. by split.
  - intros Hlen Hsel. split.
    { intros ms. destruct (moves_selectedIndex ms b Hlen Hsel). split; [done|lia]. }
    unfold MoveDown, MoveUp.
    rewrite !(decide_False (P := len (items b) = 0)) by lia.
    rewrite !adjustScrollOffset_selectedIndex.
    repeat split; intros Hcase; case_decide; simpl; int_simpl; int_range.
Qed.

(** C3. Five items [A,B,C,D,E], a window of 3, cursor and offset at 0: four
    MoveDown calls give [selectedIndex = 4], [scrollOffset = 2] and the
    visible window [C,D,E]. *)
Theorem C3_four_moves_down_scroll_the_window
    (t : string) (ty : PaneType) (i : string) (act ld sl : bool) (f : string)
    (A B C D E : PaneItem Meta) :
  let b0 := mkBase t ty i [A; B; C; D; E] 0 act ld sl 3 f 0 in
  let b4 := MoveDown (MoveDown (MoveDown (MoveDown b0))) in
  selectedIndex b4 = 4 ∧ scrollOffset b4 = 2 ∧
  GetVisibleItems b4 = Ok [C; D; E].
Proof. by vm_compute. Qed.

(** C7. [Filter("")] returns the stored items as they are; for a non-empty
    query [Filter] returns, in stored order, exactly the items whose display
    text or value contains the query once both are lowered; the stored
    sequence is only read.  On the items displayed as Main, feature/auth
    and release (whose values do not contain the query either) the query
    FEAT selects feature/auth alone. *)
Theorem C7_Filter_selects_matching_items (ToLower : string → string) :
  (∀ b, Filter ToLower "" b = items b) ∧
  (∀ q b, q ≠ "" →
     Filter ToLower q b = filter (matches ToLower q) (items b) ∧
     (∀ it, it ∈ Filter ToLower q b ↔ it ∈ items b ∧ matches ToLower q it) ∧
     sublist (Filter ToLower q b) (items b)) ∧
  (∀ b (main feature release : PaneItem Meta),
     items b = [main; feature; release] →
     Display main = "Main" →
     Display feature = "feature/auth" →
     Display release = "release" →
     containsIgnoreCase GoStrings.ToLowerASCII (Value main) "FEAT" = false →
     containsIgnoreCase GoStrings.ToLowerASCII (Value release) "FEAT" = false →
     Filter GoStrings.ToLowerASCII "FEAT" b = [feature]).
Proof.
  split; [done|]. split.
  - intros q b Hq. rewrite Filter_nonempty_query by done. split; [done|]. split.
    + intros it. rewrite list_elem_of_filter. tauto.
    + apply sublist_filter.
  - intros b main feature release Hitems Hm Hf Hr Hvm Hvr.
    unfold Filter. rewrite Hitems. simpl. by rewrite Hm, Hf, Hr, Hvm, Hvr.
Qed.

(** C8 (amended). In a state reached by construction, the eight operations
    and the setters, whose window size is not negative and whose window
    ends at a number [scrollOffset + maxDisplayItems] that an [int] holds,
    the visible window is computed without a panic, holds at most
    [maxDisplayItems] items, and its k-th item is the stored item at index
    [scrollOffset + k], which is in bounds.  In any other state reached,
    with a non-empty list, the computation panics or returns more than
    [maxDisplayItems] items (none is more than a negative size):
    [SetMaxDisplayItems] stores any size. *)
Theorem C8_visible_window_bounded b :
  reached any_call b →
  (0 ≤ maxDisplayItems b → scrollOffset b + maxDisplayItems b ≤ max_int →
   ∃ vis, GetVisibleItems b = Ok vis ∧
     len vis ≤ maxDisplayItems b ∧
     ∀ (k : nat) it, vis !! k = Some it →
       scrollOffset b ≤ scrollOffset b + Z.of_nat k < len (items b) ∧
       items b !! Z.to_nat (scrollOffset b + Z.of_nat k) = Some it) ∧
  (items b ≠ [] →
   maxDisplayItems b < 0 ∨ max_int < scrollOffset b + maxDisplayItems b →
   ¬ ∃ vis, GetVisibleItems b = Ok vis ∧ len vis ≤ maxDisplayItems b).
Proof.
  intros Hreach.
  destruct (reached_sound b Hreach) as (Hmax & Hlen & Hscroll & Hsel). split.
  - intros Hrows Hend. eexists.
    split; [apply GetVisibleItems_window; (done || lia)|]. split.
    + unfold len. rewrite length_take. lia.
    + intros k it Hk. apply lookup_take_Some in Hk as [Hk _].
      rewrite lookup_drop in Hk.
      replace (Z.to_nat (scrollOffset b + Z.of_nat k))
        with (Z.to_nat (scrollOffset b) + k)%nat by lia.
      split; [|done]. apply lookup_lt_Some in Hk. unfold len. lia.
  - intros Hne Hbad (vis & Hget & Hcount).
    assert (Himax : max_int = 2 ^ 63 - 1) by done.
    assert (Himin : min_int = - 2 ^ 63) by done.
    pose proof (len_nonneg vis) as Hvis.
    destruct Hbad as [Hneg|Hover]; [lia|].
    assert (Hn : len (items b) ≠ 0) by (by rewrite len_nil_iff).
    pose proof (len_nonneg (items b)) as Hitems.
    unfold GetVisibleItems in Hget. rewrite decide_False in Hget by done.
    cbv zeta in Hget. unfold add in Hget. rewrite wrap_over in Hget by lia.
    rewrite (decide_False
               (P := scrollOffset b + maxDisplayItems b - 2 ^ 64 > len (items b)))
      in Hget by lia.
    rewrite decide_True in Hget by lia.
    unfold slice in Hget. by rewrite decide_False in Hget by lia.
Qed.

(** C9. Removing the only item (selected, index 0) leaves an empty list with
    [selectedIndex = 0] and [scrollOffset = 0], on which MoveDown changes
    nothing; in bounds, RemoveItem deletes item [i] and clamps the
    selection to the new last index when it is past it (and the list is
    still non-empty); out of bounds it changes nothing.  It never panics. *)
Theorem C9_RemoveItem_effect b :
  (∀ x, items b = [x] → selectedIndex b = 0 →
     ∃ b', RemoveItem 0 b = Ok b' ∧ items b' = [] ∧
       selectedIndex b' = 0 ∧ scrollOffset b' = 0 ∧ MoveDown b' = b') ∧
  (∀ i, 0 ≤ i < len (items b) → len (items b) ≤ max_int →
     ∃ b', RemoveItem i b = Ok b' ∧
       items b' = delete (Z.to_nat i) (items b) ∧
       len (items b') = len (items b) - 1 ∧
       selectedIndex b' =
         (if decide (selectedIndex b >= len (items b') ∧ len (items b') > 0)
          then len (items b') - 1 else selectedIndex b) ∧
       (0 < len (items b') →
        selectedIndex b' = Z.min (selectedIndex b) (len (items b') - 1))) ∧
  (∀ i, ¬ (0 ≤ i < len (items b)) → RemoveItem i b = Ok b).
Proof.
  split; [|split].
  - intros x Hx Hsel.
    rewrite RemoveItem_in_bounds
      by (rewrite Hx; unfold len, max_int; simpl; lia).
    eexists. split; [done|]. rewrite Hx. simpl.
    change (len []) with 0. rewrite decide_False by lia.
    rewrite adjustScrollOffset_items, adjustScrollOffset_selectedIndex.
    rewrite adjustScrollOffset_empty by done. simpl.
    repeat split; try done.
  - intros i Hi Hlen. rewrite RemoveItem_in_bounds by done.
    eexists. split; [done|].
    rewrite adjustScrollOffset_items, adjustScrollOffset_selectedIndex.
    assert (Hd : len (delete (Z.to_nat i) (items b)) = len (items b) - 1).
    { unfold len in *. rewrite length_delete; [lia|].
      apply lookup_lt_is_Some_2. lia. }
    simpl. destruct (decide (selectedIndex b >=
        len (delete (Z.to_nat i) (items b))
        ∧ len (delete (Z.to_nat i) (items b)) > 0)) as [Hc|Hc]; simpl;
      (split; [done|]); (split; [done|]).
    + rewrite decide_True by done. split; [done|lia].
    + rewrite decide_False by done. split; [done|lia].
  - intros i Hi. by apply RemoveItem_out_of_bounds.
Qed.

(** C10. In a reachable state GetSelectedItem returns nil exactly when the
    list is empty, and otherwise the item stored at [selectedIndex]; it
    never panics. *)
Theorem C10_GetSelectedItem_nil_iff_empty b :
  reachable b →
  (GetSelectedItem b = Ok None ↔ items b = []) ∧
  (items b ≠ [] →
   ∃ it, items b !! Z.to_nat (selectedIndex b) = Some it ∧
         GetSelectedItem b = Ok (Some it)) ∧
  GetSelectedItem b ≠ Panic.
Proof.
  intros Hreach. pose proof (reachable_wf b Hreach) as Hb. unfold wf in Hb.
  unfold GetSelectedItem.
  destruct (decide (items b = [])) as [Hnil|Hne].
  - rewrite Hnil. change (len []) with 0.
    rewrite decide_True by lia. repeat split; done.
  - assert (0 < len (items b)).
    { pose proof (len_nonneg (items b)).
      destruct (decide (len (items b) = 0)) as [H0|]; [|lia].
      by apply len_nil_iff in H0. }
    rewrite decide_False by lia.
    destruct (index_ok (items b) (selectedIndex b)) as (it & Hlk & Hidx); [lia|].
    rewrite Hidx. simpl. repeat split; try done. intros _. by exists it.
Qed.

(** *** Further properties of the specification *)

(** X1. [Clear] followed by any number of [MoveDown] calls leaves the list
    empty with [selectedIndex = 0]: every one of the calls returns the
    cleared state as it is. *)
Theorem X1_Clear_then_MoveDown b (n : nat) :
  Nat.iter n MoveDown (Clear b) = Clear b ∧
  items (Nat.iter n MoveDown (Clear b)) = [] ∧
  selectedIndex (Nat.iter n MoveDown (Clear b)) = 0.
Proof.
  assert (Hiter : Nat.iter n MoveDown (Clear b) = Clear b).
  { induction n as [|n IH]; [done|]. simpl. by rewrite IH. }
  by rewrite Hiter.
Qed.

(** X2. [SelectItem i] selects item [i] when [i] is in bounds, leaving the
    items as they are, and changes nothing otherwise. *)
Theorem X2_SelectItem_bounds_checked b (i : Z) :
  (0 ≤ i < len (items b) →
   selectedIndex (SelectItem i b) = i ∧ items (SelectItem i b) = items b) ∧
  (¬ (0 ≤ i < len (items b)) → SelectItem i b = b).
Proof.
  unfold SelectItem. split; intros Hi.
  - rewrite decide_True by lia.
    by rewrite adjustScrollOffset_selectedIndex, adjustScrollOffset_items.
  - by rewrite decide_False by lia.
Qed.

(** X3. [MoveToTop] puts the cursor and the window at 0; [MoveToBottom]
    selects the last item of a non-empty list of a well-formed state, with
    the window moved so that it shows it, and changes nothing on an empty
    list. *)
Theorem X3_MoveToTop_MoveToBottom b :
  (selectedIndex (MoveToTop b) = 0 ∧ scrollOffset (MoveToTop b) = 0 ∧
   items (MoveToTop b) = items b) ∧
  (items b = [] → MoveToBottom b = b) ∧
  (wf b → items b ≠ [] →
   selectedIndex (MoveToBottom b) = len (items b) - 1 ∧
   items (MoveToBottom b) = items b ∧
   scrollOffset (MoveToBottom b) ≤ len (items b) - 1
     < scrollOffset (MoveToBottom b) + maxDisplayItems b).
Proof.
  split; [done|]. split.
  - intros Hnil. unfold MoveToBottom. by rewrite Hnil.
  - intros Hb Hne. pose proof (wf_MoveToBottom b Hb) as Hb'.
    assert (Hpos : len (items b) > 0).
    { pose proof (len_nonneg (items b)).
      destruct (decide (len (items b) = 0)) as [H0|]; [|lia].
      by apply len_nil_iff in H0. }
    assert (Hmax : maxDisplayItems (MoveToBottom b) = maxDisplayItems b).
    { apply (apply_maxDisplayItems OpMoveToBottom). done. }
    unfold wf in Hb, Hb'. rewrite Hmax in Hb'. revert Hb'.
    unfold MoveToBottom. rewrite decide_True by done.
    rewrite adjustScrollOffset_selectedIndex, adjustScrollOffset_items. simpl.
    int_simpl. intros (_ & _ & Hlow & Hhigh & _).
    split; [done|]. split; [done|]. lia.
Qed.

End WithMetadata.

(** *** The properties at a concrete pane: a stash list of three entries *)

Definition demo_item (s : string) : PaneItem unit :=
  mkPaneItem s s "" "stash" false None "".

Definition demo_list : BasePaneModel unit :=
  MoveDown
    (AddItem (demo_item "stash@{2}")
       (AddItem (demo_item "stash@{1}")
          (AddItem (demo_item "stash@{0}")
             (NewBasePaneModel "Stash" StashPaneType "stash")))).

Lemma demo_list_reachable : reachable demo_list.
Proof.
  apply (reach_step OpMoveDown _ _
           (reach_step (OpAddItem _) _ _
              (reach_step (OpAddItem _) _ _
                 (reach_step (OpAddItem _) _ _ (reach_new _ _ _)
                    eq_refl eq_refl)
                 eq_refl eq_refl)
              eq_refl eq_refl)
           I eq_refl).
Qed.

(** *** The list of the specification's scenario: five items in an active
    pane whose window has three rows *)

Definition scenario_new : BasePaneModel unit :=
  SetMaxDisplayItems 3
    (SetActive true (NewBasePaneModel "Stash" StashPaneType "stash")).

Definition scenario_list : BasePaneModel unit :=
  AddItem (demo_item "E")
    (AddItem (demo_item "D")
       (AddItem (demo_item "C")
          (AddItem (demo_item "B")
             (AddItem (demo_item "A") scenario_new)))).

(** The same list with the cursor on its last item: the window shows the
    items C, D and E. *)
Definition scenario_bottom : BasePaneModel unit := MoveToBottom scenario_list.

Lemma scenario_bottom_reached (allowed : Setter → BasePaneModel unit → Prop) :
  allowed (CallSetActive true) (NewBasePaneModel "Stash" StashPaneType "stash") →
  allowed (CallSetMaxDisplayItems 3)
    (SetActive true (NewBasePaneModel "Stash" StashPaneType "stash")) →
  reached allowed scenario_bottom.
Proof.
  intros Hactive Hwindow.
  assert (Hnew : reached allowed scenario_new).
  { apply (reached_set allowed (CallSetMaxDisplayItems 3)); [|done].
    apply (reached_set allowed (CallSetActive true)); [|done].
    apply reached_new. }
  apply (reached_op allowed OpMoveToBottom scenario_list); [|done|done].
  do 5 (eapply (reached_op allowed (OpAddItem _)); [| |reflexivity];
        [|by vm_compute]).
  exact Hnew.
Qed.

(** C1, as stated, fails once [SetMaxDisplayItems] has been called with a
    size the list does not fit.  With a window of no row, [MoveDown] on a
    list of three items leaves [selectedIndex = 1] and [scrollOffset = 2];
    with a window cut from fifty rows to three while the cursor is on the
    fifth item, [AddItem] leaves [selectedIndex = 4] and [scrollOffset = 0],
    two rows past the window. *)
Definition zero_window_list : BasePaneModel unit :=
  SetMaxDisplayItems 0
    (AddItem (demo_item "C")
       (AddItem (demo_item "B")
          (AddItem (demo_item "A")
             (NewBasePaneModel "Stash" StashPaneType "stash")))).

Definition cut_window_list : BasePaneModel unit :=
  SetMaxDisplayItems 3
    (MoveToBottom
       (AddItem (demo_item "E")
          (AddItem (demo_item "D")
             (AddItem (demo_item "C")
                (AddItem (demo_item "B")
                   (AddItem (demo_item "A")
                      (NewBasePaneModel "Stash" StashPaneType "stash"))))))).

Lemma C1_counterexample :
  reached any_call zero_window_list ∧
  selectedIndex (MoveDown zero_window_list) = 1 ∧
  scrollOffset (MoveDown zero_window_list) = 2 ∧
  reached any_call cut_window_list ∧
  selectedIndex (AddItem (demo_item "F") cut_window_list) = 4 ∧
  scrollOffset (AddItem (demo_item "F") cut_window_list) = 0 ∧
  maxDisplayItems (AddItem (demo_item "F") cut_window_list) = 3 ∧
  ¬ (∀ (b : BasePaneModel unit) o,
       reached any_call b → fits o b →
       ∃ b', apply o b = Ok b' ∧
         (items b' ≠ [] →
          0 ≤ scrollOffset b' ∧
          scrollOffset b' ≤ selectedIndex b' ∧
          selectedIndex b' ≤ scrollOffset b' + maxDisplayItems b' - 1)).
Proof.
  assert (Hzero : reached any_call zero_window_list).
  { apply (reached_set any_call (CallSetMaxDisplayItems 0)); [|by vm_compute].
    do 3 (eapply (reached_op any_call (OpAddItem _)); [| |reflexivity];
            [|by vm_compute]).
    apply reached_new. }
  assert (Hcut : reached any_call cut_window_list).
  { apply (reached_set any_call (CallSetMaxDisplayItems 3)); [|by vm_compute].
    eapply (reached_op any_call OpMoveToBottom); [| |reflexivity]; [|done].
    do 5 (eapply (reached_op any_call (OpAddItem _)); [| |reflexivity];
            [|by vm_compute]).
    apply reached_new. }
  assert (Hsel : selectedIndex (MoveDown zero_window_list) = 1)
    by (vm_compute; reflexivity).
  assert (Hscroll : scrollOffset (MoveDown zero_window_list) = 2)
    by (vm_compute; reflexivity).
  split; [exact Hzero|]. split; [exact Hsel|]. split; [exact Hscroll|].
  split; [exact Hcut|]. repeat (split; [vm_compute; reflexivity|]).
  intros Hall. destruct (Hall zero_window_list OpMoveDown Hzero I)
    as (b' & Hmove & Hinv).
  apply (Ok_inj (MoveDown zero_window_list) b') in Hmove. subst b'.
  destruct Hinv as (_ & Hle & _).
  - by vm_compute.
  - rewrite Hsel, Hscroll in Hle. lia.
Qed.

Lemma C1_witness :
  reached any_call scenario_bottom ∧ fits OpMoveUp scenario_bottom ∧
  ∃ b', apply OpMoveUp scenario_bottom = Ok b' ∧
    0 ≤ scrollOffset b' ∧
    scrollOffset b' ≤ selectedIndex b' ∧
    selectedIndex b' ≤ scrollOffset b' + maxDisplayItems b' - 1.
Proof.
  assert (Hreach : reached any_call scenario_bottom).
  { apply scenario_bottom_reached; [exact I|]. by vm_compute. }
  split; [exact Hreach|]. split; [exact I|].
  destruct (C1_window_invariant_after_operation scenario_bottom OpMoveUp
              Hreach I) as (b' & Happ & Hiff & _).
  exists b'. split; [exact Happ|].
  pose proof (Ok_inj (MoveUp scenario_bottom) b' Happ) as Hb. subst b'.
  apply Hiff.
  - by vm_compute.
  - split; [by vm_compute|]. left. exact I.
Defined.

Lemma C2_witness :
  0 < len (items demo_list) ≤ max_int ∧
  0 ≤ selectedIndex demo_list < len (items demo_list) ∧
  (∀ ms, items (moves ms demo_list) = items demo_list ∧
         0 ≤ selectedIndex (moves ms demo_list) ≤ len (items demo_list) - 1).
Proof.
  assert (Hlen : 0 < len (items demo_list) ≤ max_int) by (by vm_compute).
  assert (Hsel : 0 ≤ selectedIndex demo_list < len (items demo_list))
    by (by vm_compute).
  split; [exact Hlen|]. split; [exact Hsel|].
  exact (proj1 (proj2 (C2_moves_stay_in_range_and_wrap demo_list) Hlen Hsel)).
Defined.

Definition branch_item (s : string) : PaneItem unit :=
  mkPaneItem s s "" "local" false None "".

Definition branch_list : BasePaneModel unit :=
  AddItem (branch_item "release")
    (AddItem (branch_item "feature/auth")
       (AddItem (branch_item "Main")
          (NewBasePaneModel "Branches" BranchesPaneType "branches"))).

Lemma C7_witness :
  "FEAT" ≠ "" ∧
  Filter GoStrings.ToLowerASCII "FEAT" branch_list
    = filter (matches GoStrings.ToLowerASCII "FEAT") (items branch_list) ∧
  Filter GoStrings.ToLowerASCII "FEAT" branch_list = [branch_item "feature/auth"].
Proof.
  assert (Hq : "FEAT" ≠ "") by discriminate.
  destruct (C7_Filter_selects_matching_items (Meta := unit) GoStrings.ToLowerASCII)
    as (_ & Hfilter & Hexample).
  split; [exact Hq|]. split.
  - exact (proj1 (Hfilter "FEAT" branch_list Hq)).
  - by apply (Hexample branch_list (branch_item "Main") _ (branch_item "release")).
Defined.

Lemma X2_witness :
  0 ≤ 2 < len (items demo_list) ∧
  selectedIndex (SelectItem 2 demo_list) = 2 ∧
  SelectItem 3 demo_list = demo_list.
Proof.
  assert (Hi : 0 ≤ 2 < len (items demo_list)) by (by vm_compute).
  split; [exact Hi|]. split.
  - exact (proj1 (proj1 (X2_SelectItem_bounds_checked demo_list 2) Hi)).
  - apply (proj2 (X2_SelectItem_bounds_checked demo_list 3)).
    intros [_ Hlt]. by vm_compute in Hlt.
Defined.

Lemma X3_witness :
  wf demo_list ∧ items demo_list ≠ [] ∧
  selectedIndex (MoveToBottom demo_list) = len (items demo_list) - 1.
Proof.
  assert (Hwf : wf demo_list) by exact (reachable_wf _ demo_list_reachable).
  assert (Hne : items demo_list ≠ []) by discriminate.
  split; [exact Hwf|]. split; [exact Hne|].
  exact (proj1 (proj2 (proj2 (X3_MoveToTop_MoveToBottom demo_list)) Hwf Hne)).
Defined.

(** C8, as stated, fails once [SetMaxDisplayItems] has been called with a
    negative size, or with one so large that the end of the window wraps
    around: on a list of three items and a window of -1 rows the slice
    expression is [items[-1:-1]]; on the list of the scenario, scrolled to
    its third item, and a window of [max_int] rows it is
    [items[-9223372036854775807:-9223372036854775807]]. *)
Definition negative_window_list : BasePaneModel unit :=
  SetMaxDisplayItems (-1)
    (AddItem (demo_item "C")
       (AddItem (demo_item "B")
          (AddItem (demo_item "A")
             (NewBasePaneModel "Stash" StashPaneType "stash")))).

Definition huge_window_list : BasePaneModel unit :=
  SetMaxDisplayItems max_int scenario_bottom.

Lemma C8_counterexample :
  reached any_call negative_window_list ∧
  GetVisibleItems negative_window_list = Panic ∧
  reached any_call huge_window_list ∧
  GetVisibleItems huge_window_list = Panic ∧
  ¬ (∀ b : BasePaneModel unit,
       reached any_call b →
       ∃ vis, GetVisibleItems b = Ok vis ∧
         len vis ≤ maxDisplayItems b ∧
         ∀ (k : nat) it, vis !! k = Some it →
           scrollOffset b ≤ scrollOffset b + Z.of_nat k < len (items b) ∧
           items b !! Z.to_nat (scrollOffset b + Z.of_nat k) = Some it).
Proof.
  assert (Hneg : reached any_call negative_window_list).
  { apply (reached_set any_call (CallSetMaxDisplayItems (-1))); [|by vm_compute].
    do 3 (eapply (reached_op any_call (OpAddItem _)); [| |reflexivity];
            [|by vm_compute]).
    apply reached_new. }
  assert (Hhuge : reached any_call huge_window_list).
  { apply (reached_set any_call (CallSetMaxDisplayItems max_int));
      [|by vm_compute].
    apply scenario_bottom_reached; [exact I|by vm_compute]. }
  split; [exact Hneg|]. split; [reflexivity|].
  split; [exact Hhuge|]. split; [by vm_compute|].
  intros Hall. destruct (Hall negative_window_list Hneg) as (vis & Hget & _).
  discriminate Hget.
Qed.

Lemma C8_witness :
  reached any_call scenario_bottom ∧
  0 ≤ maxDisplayItems scenario_bottom ∧
  scrollOffset scenario_bottom + maxDisplayItems scenario_bottom ≤ max_int ∧
  ∃ vis, GetVisibleItems scenario_bottom = Ok vis ∧
    len vis ≤ maxDisplayItems scenario_bottom ∧
    ∀ (k : nat) it, vis !! k = Some it →
      scrollOffset scenario_bottom ≤ scrollOffset scenario_bottom + Z.of_nat k
        < len (items scenario_bottom) ∧
      items scenario_bottom !! Z.to_nat (scrollOffset scenario_bottom + Z.of_nat k)
      = Some it.
Proof.
  assert (Hreach : reached any_call scenario_bottom).
  { apply scenario_bottom_reached; [exact I|]. by vm_compute. }
  assert (Hrows : 0 ≤ maxDisplayItems scenario_bottom) by (by vm_compute).
  assert (Hend : scrollOffset scenario_bottom + maxDisplayItems scenario_bottom
                 ≤ max_int) by (by vm_compute).
  split; [exact Hreach|]. split; [exact Hrows|]. split; [exact Hend|].
  exact (proj1 (C8_visible_window_bounded scenario_bottom Hreach) Hrows Hend).
Defined.

Lemma C9_witness :
  0 ≤ 1 < len (items demo_list) ∧ len (items demo_list) ≤ max_int ∧
  ∃ b', RemoveItem 1 demo_list = Ok b' ∧
    items b' = [demo_item "stash@{0}"; demo_item "stash@{2}"] ∧
    selectedIndex b' = 1.
Proof.
  assert (Hi : 0 ≤ 1 < len (items demo_list)) by (by vm_compute).
  assert (Hlen : len (items demo_list) ≤ max_int) by (by vm_compute).
  split; [exact Hi|]. split; [exact Hlen|].
  destruct (proj1 (proj2 (C9_RemoveItem_effect demo_list)) 1 Hi Hlen)
    as (b' & Hrm & Hit & _ & Hsel & _).
  exists b'. split; [exact Hrm|]. split; [exact Hit|].
  rewrite Hsel, Hit. reflexivity.
Defined.

Lemma C10_witness :
  reachable demo_list ∧
  GetSelectedItem demo_list = Ok (Some (demo_item "stash@{1}")).
Proof.
  split; [exact demo_list_reachable|].
  destruct (C10_GetSelectedItem_nil_iff_empty demo_list demo_list_reachable)
    as (_ & Hsome & _).
  destruct Hsome as (it & Hlk & Hget); [discriminate|].
  rewrite Hget. vm_compute in Hlk. by injection Hlk as <-.
Defined.

End PanesFacts.

(** ** Properties of the stash pane *)

Module StashFacts.
Import GoInt GoIntFacts Slice SliceFacts Messages Stash.

Section WithMetadata.
Context {Meta : Type}.
Implicit Types (s : StashPane Meta) (b : Panes.BasePaneModel Meta).

Lemma StashPane_flag_kept : PaneInterface.active_flag_kept (StashPane Meta).
Proof. by intros v s. Qed.

(** The loop adds one item per line, numbered from [i], and touches nothing
    but the items. *)
Lemma addStashes_effect stashes i b :
  0 ≤ i → i + len stashes ≤ max_int →
  Panes.items (addStashes i stashes b)
    = Panes.items b ++ imap (λ k line, stashItem (i + Z.of_nat k) line) stashes ∧
  Panes.loading (addStashes i stashes b) = Panes.loading b ∧
  Panes.active (addStashes i stashes b) = Panes.active b ∧
  Panes.selectedIndex (addStashes i stashes b) = Panes.selectedIndex b ∧
  Panes.scrollOffset (addStashes i stashes b) = Panes.scrollOffset b.
Proof.
  revert i b. induction stashes as [|line rest IH]; intros i b Hi Hlen.
  - simpl. by rewrite app_nil_r.
  - change (line :: rest) with ([line] ++ rest) in Hlen.
    rewrite len_app in Hlen. change (len [line]) with 1 in Hlen.
    pose proof (len_nonneg rest). simpl. unfold add.
    rewrite wrap_small by int_range.
    destruct (IH (i + 1) (Panes.AddItem (stashItem i line) b))
      as (Hit & Hld & Hact & Hsel & Hscr); [lia|lia|].
    rewrite Hit, Hld, Hact, Hsel, Hscr. simpl.
    repeat split; try done. rewrite <- app_assoc. simpl.
    rewrite Z.add_0_r. do 2 f_equal. apply imap_ext. intros k x _. simpl.
    f_equal. lia.
Qed.

(** The completion message replaces the items by those of its stash list
    and clears the loading flag; the active flag is left as it was. *)
Lemma updateFromStashMsg_effect stashes s :
  len stashes ≤ max_items →
  Panes.items (base (updateFromStashMsg stashes s)) = stashItems stashes ∧
  Panes.loading (base (updateFromStashMsg stashes s)) = false ∧
  Panes.active (base (updateFromStashMsg stashes s)) = Panes.active (base s) ∧
  Panes.selectedIndex (base (updateFromStashMsg stashes s)) = 0 ∧
  Panes.scrollOffset (base (updateFromStashMsg stashes s)) = 0.
Proof.
  intros Hlen. unfold updateFromStashMsg, stashItems.
  case_decide as Hn; [done|]. simpl.
  destruct (addStashes_effect stashes 0
              (Panes.Clear (Panes.SetLoading false (base s))))
    as (Hit & Hld & Hact & Hsel & Hscr); [lia|int_range|].
  rewrite Hit, Hld, Hact, Hsel, Hscr. simpl. by repeat split.
Qed.

Lemma Update_key_inactive key s :
  Panes.IsActive (base s) = false → Update (KeyMsg key) s = Ok (s, None).
Proof. intros Hact. simpl. by rewrite Hact. Qed.

Lemma Update_refresh_key s :
  Panes.IsActive (base s) = true →
  Update (KeyMsg "r") s = Ok (on_base (Panes.SetLoading true) s, Some LoadStashes).
Proof. intros Hact. simpl. by rewrite Hact. Qed.

End WithMetadata.
End StashFacts.

(** ** Properties of the five-pane router *)

Module AppFacts.
Import GoInt GoIntFacts Slice SliceFacts Messages App.

Section Router.
Context {P : Type} `{!PaneInterface.Pane P}.
Implicit Types (m : Model P) (ps : list P).

Lemma rem_in_range x n : 0 ≤ x ≤ max_int → 0 < n → rem x n = x `mod` n ∧ 0 ≤ rem x n < n.
Proof.
  intros Hx Hn. unfold rem. rewrite Z.rem_mod_nonneg by lia.
  pose proof (Z.mod_pos_bound x n Hn). pose proof (Z.mod_le x n).
  rewrite wrap_small by (unfold min_int, max_int in *; lia). lia.
Qed.

Lemma setActivePane_out_of_bounds index m :
  ¬ (0 ≤ index < len (panes m)) → setActivePane index m = m.
Proof. intros Hi. unfold setActivePane. by rewrite decide_False by lia. Qed.

Lemma setActivePane_len index m :
  len (panes (setActivePane index m)) = len (panes m).
Proof.
  unfold setActivePane. case_decide; [|done]. simpl.
  unfold len. by rewrite length_imap.
Qed.

Lemma setActivePane_activePane index m :
  0 ≤ index < len (panes m) → activePane (setActivePane index m) = index.
Proof. intros Hi. unfold setActivePane. by rewrite decide_True by lia. Qed.

(** X5. With the active index in range, [nextPane] activates the next pane
    and goes from the last to the first; [prevPane] activates the previous
    one and goes from the first to the last. *)
Theorem X5_nextPane_prevPane_wrap m :
  0 < len (panes m) ≤ max_items →
  0 ≤ activePane m < len (panes m) →
  nextPane m
  = Ok (setActivePane
          (if decide (activePane m = len (panes m) - 1) then 0
           else activePane m + 1) m) ∧
  prevPane m
  = Ok (setActivePane
          (if decide (activePane m = 0) then len (panes m) - 1
           else activePane m - 1) m).
Proof.
  intros Hlen Hact. unfold nextPane, prevPane, mod_len.
  rewrite !(decide_False (P := len (panes m) = 0)) by lia. simpl.
  unfold add, sub.
  rewrite (wrap_small (activePane m - 1)) by int_range.
  rewrite !wrap_small by int_range.
  destruct (rem_in_range (activePane m + 1) (len (panes m))) as [-> _];
    [int_range|lia|].
  destruct (rem_in_range (activePane m - 1 + len (panes m)) (len (panes m)))
    as [-> _]; [int_range|lia|].
  split; do 2 f_equal; case_decide as Hc.
  - rewrite Hc. replace (len (panes m) - 1 + 1) with (len (panes m)) by lia.
    apply Z_mod_same_full.
  - apply Z.mod_small. lia.
  - rewrite Hc. replace (0 - 1 + len (panes m)) with (len (panes m) - 1) by lia.
    apply Z.mod_small. lia.
  - replace (activePane m - 1 + len (panes m))
      with (activePane m - 1 + 1 * len (panes m)) by lia.
    rewrite Z_mod_plus_full. apply Z.mod_small. lia.
Qed.

Section Flags.
Hypothesis flag_kept : PaneInterface.active_flag_kept P.

Lemma setActivePane_flags index m (j : nat) pane :
  0 ≤ index < len (panes m) →
  panes (setActivePane index m) !! j = Some pane →
  PaneInterface.IsActive pane = bool_decide (Z.of_nat j = index).
Proof.
  intros Hi. unfold setActivePane. rewrite decide_True by lia. simpl.
  rewrite list_lookup_imap. destruct (panes m !! j) as [q|]; [|done].
  simpl. intros [= <-]. apply flag_kept.
Qed.

Lemma count_flags ps (k : nat) (index : Z) :
  length (filter (λ pane, PaneInterface.IsActive pane = true)
            (imap (λ i pane,
                     PaneInterface.SetActive
                       (bool_decide (Z.of_nat (k + i) = index)) pane) ps))
  = if decide (Z.of_nat k ≤ index < Z.of_nat k + len ps) then 1%nat else 0%nat.
Proof.
  revert k. induction ps as [|pane ps IH]; intros k.
  - simpl. change (len []) with 0. by rewrite decide_False by lia.
  - rewrite imap_cons, filter_cons, flag_kept.
    rewrite (imap_ext _ (λ i pane, PaneInterface.SetActive
               (bool_decide (Z.of_nat (S k + i) = index)) pane))
      by (intros i x _; simpl; do 2 f_equal; apply bool_decide_ext; lia).
    specialize (IH (S k)). change (pane :: ps) with ([pane] ++ ps).
    rewrite len_app. change (len [pane]) with 1.
    destruct (decide (bool_decide (Z.of_nat (k + 0) = index) = true)) as [Hk|Hk].
    + apply bool_decide_eq_true in Hk. rewrite length_cons, IH.
      pose proof (len_nonneg ps).
      rewrite decide_False by lia. by rewrite decide_True by lia.
    + rewrite bool_decide_eq_true in Hk. rewrite IH.
      pose proof (len_nonneg ps).
      destruct (decide (Z.of_nat (S k) ≤ index < Z.of_nat (S k) + len ps)).
      * by rewrite decide_True by lia.
      * by rewrite decide_False by lia.
Qed.

Lemma setActivePane_active_count index m :
  0 ≤ index < len (panes m) → active_count (setActivePane index m) = 1%nat.
Proof.
  intros Hi. unfold active_count, setActivePane.
  rewrite decide_True by lia. simpl.
  pose proof (count_flags (panes m) 0 index) as Hcount.
  rewrite decide_True in Hcount by lia. exact Hcount.
Qed.

Lemma call_effect c m :
  0 < len (panes m) ≤ max_items →
  0 ≤ activePane m < len (panes m) →
  ∃ m', call c m = Ok m' ∧
    len (panes m') = len (panes m) ∧
    0 ≤ activePane m' < len (panes m) ∧
    (in_bounds (len (panes m)) c → active_count m' = 1%nat) ∧
    (¬ in_bounds (len (panes m)) c → m' = m).
Proof.
  intros Hlen Hact. destruct c as [index| |]; simpl.
  - eexists. split; [done|]. rewrite setActivePane_len. split; [done|].
    destruct (decide (0 ≤ index < len (panes m))) as [Hi|Hi].
    + rewrite setActivePane_activePane by done.
      split; [done|]. split; [|done]. intros _.
      by apply setActivePane_active_count.
    + rewrite setActivePane_out_of_bounds by done.
      split; [done|]. split; [intros Hi'; by destruct Hi|done].
  - unfold nextPane, mod_len. rewrite decide_False by lia. simpl.
    unfold add. rewrite wrap_small by int_range.
    destruct (rem_in_range (activePane m + 1) (len (panes m))) as [_ Hr];
      [int_range|lia|].
    eexists. split; [done|]. rewrite setActivePane_len. split; [done|].
    rewrite setActivePane_activePane by done.
    split; [done|]. split; [|done]. intros _.
    by apply setActivePane_active_count.
  - unfold prevPane, mod_len. rewrite decide_False by lia. simpl.
    unfold add, sub. rewrite (wrap_small (activePane m - 1)) by int_range.
    rewrite wrap_small by int_range.
    destruct (rem_in_range (activePane m - 1 + len (panes m)) (len (panes m)))
      as [_ Hr]; [int_range|lia|].
    eexists. split; [done|]. rewrite setActivePane_len. split; [done|].
    rewrite setActivePane_activePane by done.
    split; [done|]. split; [|done]. intros _.
    by apply setActivePane_active_count.
Qed.

Lemma calls_cons c cs m : calls (c :: cs) m = (m' ←! call c m; calls cs m').
Proof.
  unfold calls. simpl. destruct (call c m) as [m'|]; [done|]. simpl.
  induction cs as [|c' cs IH]; [done|]. by simpl.
Qed.

#[local] Instance in_bounds_dec n c : Decision (in_bounds n c).
Proof. destruct c; simpl; apply _. Defined.

Lemma calls_effect cs m :
  0 < len (panes m) ≤ max_items →
  0 ≤ activePane m < len (panes m) →
  ∃ m', calls cs m = Ok m' ∧
    len (panes m') = len (panes m) ∧
    0 ≤ activePane m' < len (panes m) ∧
    (active_count m = 1%nat ∨ Exists (in_bounds (len (panes m))) cs →
     active_count m' = 1%nat) ∧
    (Forall (λ c, ¬ in_bounds (len (panes m)) c) cs → m' = m).
Proof.
  revert m. induction cs as [|c cs IH]; intros m Hlen Hact.
  - exists m. split; [done|]. split; [done|]. split; [done|]. split; [|done].
    intros [Hone|Hex]; [done|]. by apply Exists_nil in Hex.
  - destruct (call_effect c m Hlen Hact) as (m1 & Hcall & Hlen1 & Hact1 & Hin & Hout).
    destruct (IH m1) as (m' & Hcalls & Hlen' & Hact' & Hone & Hsame);
      rewrite ?Hlen1; try done.
    exists m'. rewrite calls_cons, Hcall. simpl. rewrite Hlen1 in *.
    split; [done|]. split; [done|]. split; [done|]. split.
    + intros Hpre. apply Hone.
      destruct (decide (in_bounds (len (panes m)) c)) as [Hc|Hc]; [by left; apply Hin|].
      rewrite (Hout Hc). destruct Hpre as [Hpre|Hex]; [by left|].
      apply Exists_cons in Hex as [Hex|Hex]; [done|by right].
    + intros Hall. apply Forall_cons in Hall as [Hc Hall].
      rewrite (Hsame Hall). by apply Hout.
Qed.

(** C5 (amended). In a router of one or more panes (five in [NewModel]),
    [setActivePane i] with [i] in bounds stores [i] and leaves pane [i]
    active and every other pane inactive, whatever was active before; out
    of bounds it changes nothing.  Hence any sequence of
    setActivePane/nextPane/prevPane calls returns, keeps the active index in
    range, and ends with exactly one active pane provided exactly one was
    active before or some call of the sequence passed the bounds check
    (nextPane and prevPane always do); a sequence that never passes it
    leaves the router as it was. *)
Theorem C5_setActivePane_one_active m :
  0 < len (panes m) ≤ max_items →
  (∀ index, 0 ≤ index < len (panes m) →
     activePane (setActivePane index m) = index ∧
     (∀ (j : nat) pane,
        panes (setActivePane index m) !! j = Some pane →
        PaneInterface.IsActive pane = bool_decide (Z.of_nat j = index)) ∧
     active_count (setActivePane index m) = 1%nat) ∧
  (∀ index, ¬ (0 ≤ index < len (panes m)) → setActivePane index m = m) ∧
  (0 ≤ activePane m < len (panes m) →
   ∀ cs, ∃ m', calls cs m = Ok m' ∧
     len (panes m') = len (panes m) ∧
     0 ≤ activePane m' < len (panes m) ∧
     (active_count m = 1%nat ∨ Exists (in_bounds (len (panes m))) cs →
      active_count m' = 1%nat) ∧
     (Forall (λ c, ¬ in_bounds (len (panes m)) c) cs → m' = m)).
Proof.
  intros Hlen. split; [|split].
  - intros index Hi. split; [by apply setActivePane_activePane|]. split.
    + intros j pane. by apply setActivePane_flags.
    + by apply setActivePane_active_count.
  - intros index Hi. by apply setActivePane_out_of_bounds.
  - intros Hact cs. by apply calls_effect.
Qed.

End Flags.
(** *** Dispatch *)

Section Dispatch.
Variable Batch : list Cmd → option Cmd.

(** The pane after [Update], when [Update] returns. *)
Definition updated (msg : Msg) (pane : P) : P :=
  match PaneInterface.Update msg pane with
  | Ok r => r.1
  | Panic => pane
  end.

Lemma deliver_all msg ps :
  (∀ pane, pane ∈ ps → ∃ r, PaneInterface.Update msg pane = Ok r) →
  ∃ cmds,
    foldl (λ acc pane,
             acc ←! acc;
             r ←! PaneInterface.Update msg pane;
             Ok (acc.1 ++ [r.1], append_cmd acc.2 r.2))
          (Ok ([], [])) ps
    = Ok (updated msg <$> ps, cmds).
Proof.
  induction ps as [|pane ps IH] using rev_ind; intros Hok.
  - by exists [].
  - destruct IH as [cmds IH].
    { intros q Hq. apply Hok. apply elem_of_app. by left. }
    destruct (Hok pane) as [r Hr]; [apply elem_of_app; right; by left|].
    rewrite foldl_snoc, IH. simpl. rewrite Hr. simpl.
    eexists. rewrite fmap_app. simpl.
    replace (updated msg pane) with r.1; [done|]. unfold updated. by rewrite Hr.
Qed.

(** A message that is neither a key nor a resize reaches every pane,
    active or not. *)
Lemma broadcast_delivers msg m :
  (∀ pane, pane ∈ panes m → ∃ r, PaneInterface.Update msg pane = Ok r) →
  ∃ cmd, broadcast Batch msg m = Ok (set_panes (updated msg <$> panes m) m, cmd).
Proof.
  intros Hok. unfold broadcast.
  destruct (deliver_all msg (panes m) Hok) as [cmds ->]. simpl. by eexists.
Qed.

(** A key that the global handler leaves alone reaches the active pane. *)
Lemma forward_delivers msg m pane r :
  0 ≤ activePane m →
  panes m !! Z.to_nat (activePane m) = Some pane →
  PaneInterface.Update msg pane = Ok r →
  forward Batch msg m
  = Ok (set_panes (<[Z.to_nat (activePane m) := r.1]> (panes m)) m,
        Batch (append_cmd [] r.2)).
Proof.
  intros Hact Hpane Hr. unfold forward.
  assert (activePane m < len (panes m)).
  { apply lookup_lt_Some in Hpane. unfold len. lia. }
  rewrite decide_True by done.
  destruct (index_ok (panes m) (activePane m)) as (q & Hq & ->); [lia|].
  simpl. rewrite Hpane in Hq. injection Hq as <-. by rewrite Hr.
Qed.

(** X4. A resize only stores the new size.  A message that is neither a
    key nor a resize is handed to every pane, active or not, and each pane
    is replaced by the one its [Update] returns. *)
Theorem X4_other_messages_reach_every_pane msg m :
  (∀ w h, Update Batch (WindowSizeMsg w h) m = Ok (set_size w h m, None)) ∧
  ((∀ key, msg ≠ KeyMsg key) →
   (∀ w h, msg ≠ WindowSizeMsg w h) →
   (∀ pane, pane ∈ panes m → ∃ r, PaneInterface.Update msg pane = Ok r) →
   ∃ cmd, Update Batch msg m = Ok (set_panes (updated msg <$> panes m) m, cmd)).
Proof.
  split; [done|]. intros Hkey Hsize Hok.
  destruct (broadcast_delivers msg m Hok) as [cmd Hb].
  exists cmd. destruct msg as [key|w h| | | |]; try done.
  - by destruct (Hkey key).
  - by destruct (Hsize w h).
Qed.

Lemma refresh_loop ps (done : list P) (cmds : list Cmd) :
  foldl (λ '(ps, cmds) pane,
           let '(pane', cmd) := PaneInterface.Refresh pane in
           (ps ++ [pane'], append_cmd cmds cmd))
        (done, cmds) ps
  = (done ++ ((λ pane, (PaneInterface.Refresh pane).1) <$> ps),
     cmds ++ omap (λ pane, (PaneInterface.Refresh pane).2) ps).
Proof.
  revert done cmds. induction ps as [|pane ps IH]; intros done cmds; simpl.
  - by rewrite !app_nil_r.
  - destruct (PaneInterface.Refresh pane) as [pane' [cmd|]] eqn:Hr; simpl;
      rewrite IH, <- !app_assoc; simpl; by rewrite ?app_nil_r.
Qed.

(** X6. [refreshAll] refreshes every pane and batches the commands the
    panes returned, in order, leaving out the [nil] ones. *)
Theorem X6_refreshAll_refreshes_every_pane m :
  refreshAll Batch m
  = (set_panes ((λ pane, (PaneInterface.Refresh pane).1) <$> panes m) m,
     Batch (omap (λ pane, (PaneInterface.Refresh pane).2) (panes m))).
Proof. unfold refreshAll. by rewrite refresh_loop. Qed.

End Dispatch.

End Router.
End AppFacts.

(** ** Key routing *)

Module KeyRouting.
Import GoInt GoIntFacts Slice SliceFacts Messages.

(** The keys [handleKeyMsg] has a case for, in either revision. *)
Definition handled_keys : list string :=
  ["q"; "ctrl+c"; "tab"; "shift+tab"; "1"; "2"; "3"; "4"; "5"; "ctrl+r"; "?";
   "j"; "down"; "k"; "up"; "g"; "G"].

Ltac no_case Hkey :=
  unfold handled_keys in Hkey;
  repeat (apply not_elem_of_cons in Hkey as [? Hkey]);
  repeat (rewrite decide_False by (intuition congruence)).

Section Router.
Context {P : Type} `{!PaneInterface.Pane P}.
Variable Batch : list Cmd → option Cmd.

(** *** The revision with a focus *)

Lemma focus_toggle_returns (m : AppDetails.Model P) :
  AppDetails.Update Batch (KeyMsg " ") m = Ok (AppDetails.toggleFocus m, None).
Proof. reflexivity. Qed.

Lemma focus_quit_returns (m : AppDetails.Model P) key :
  key = "q" ∨ key = "ctrl+c" →
  AppDetails.Update Batch (KeyMsg key) m
  = Ok (AppDetails.set_quitting true m, Some Quit).
Proof. by intros [-> | ->]. Qed.

Lemma focus_command_returns (m m1 : AppDetails.Model P) key cmd :
  key ≠ " " →
  AppDetails.handleKeyMsg Batch key m = Ok (m1, Some cmd) →
  AppDetails.Update Batch (KeyMsg key) m = Ok (m1, Some cmd).
Proof.
  intros Hkey Hh. unfold AppDetails.Update.
  rewrite decide_False by done. by rewrite Hh.
Qed.

Lemma focus_no_command (m m1 : AppDetails.Model P) key :
  key ≠ " " →
  AppDetails.handleKeyMsg Batch key m = Ok (m1, None) →
  AppDetails.Update Batch (KeyMsg key) m
  = if decide (AppDetails.focus m1 = AppDetails.FocusDetails)
    then Ok (m1, None)
    else AppDetails.forward Batch (KeyMsg key) m1.
Proof.
  intros Hkey Hh. unfold AppDetails.Update.
  rewrite decide_False by done. by rewrite Hh.
Qed.

Lemma focus_forward_delivers msg (m : AppDetails.Model P) pane r :
  0 ≤ AppDetails.activePane m →
  AppDetails.panes m !! Z.to_nat (AppDetails.activePane m) = Some pane →
  PaneInterface.Update msg pane = Ok r →
  AppDetails.forward Batch msg m
  = Ok (AppDetails.set_panes
          (<[Z.to_nat (AppDetails.activePane m) := r.1]> (AppDetails.panes m)) m,
        Batch (AppDetails.append_cmd [] r.2)).
Proof.
  intros Hact Hpane Hr. unfold AppDetails.forward.
  assert (AppDetails.activePane m < len (AppDetails.panes m)).
  { apply lookup_lt_Some in Hpane. unfold len. lia. }
  rewrite decide_True by done.
  destruct (index_ok (AppDetails.panes m) (AppDetails.activePane m))
    as (q & Hq & ->); [lia|].
  simpl. rewrite Hpane in Hq. injection Hq as <-. by rewrite Hr.
Qed.

Lemma focus_other_key (m : AppDetails.Model P) key :
  key ∉ handled_keys → AppDetails.handleKeyMsg Batch key m = Ok (m, None).
Proof. intros Hkey. unfold AppDetails.handleKeyMsg. by no_case Hkey. Qed.

(** *** The five-pane revision *)

Lemma quit_returns (m : App.Model P) key :
  key = "q" ∨ key = "ctrl+c" →
  App.Update Batch (KeyMsg key) m = Ok (App.set_quitting true m, Some Quit).
Proof. by intros [-> | ->]. Qed.

Lemma command_returns (m m1 : App.Model P) key cmd :
  App.handleKeyMsg Batch key m = Ok (m1, Some cmd) →
  App.Update Batch (KeyMsg key) m = Ok (m1, Some cmd).
Proof. intros Hh. unfold App.Update. by rewrite Hh. Qed.

Lemma no_command (m m1 : App.Model P) key :
  App.handleKeyMsg Batch key m = Ok (m1, None) →
  App.Update Batch (KeyMsg key) m = App.forward Batch (KeyMsg key) m1.
Proof. intros Hh. unfold App.Update. by rewrite Hh. Qed.

Lemma other_key (m : App.Model P) key :
  key ∉ handled_keys → App.handleKeyMsg Batch key m = Ok (m, None).
Proof. intros Hkey. unfold App.handleKeyMsg. by no_case Hkey. Qed.

Lemma focus_nextPane_focus (m m1 : AppDetails.Model P) :
  AppDetails.nextPane m = Ok m1 → AppDetails.focus m1 = AppDetails.focus m.
Proof.
  unfold AppDetails.nextPane, AppDetails.mod_len. case_decide; [done|].
  simpl. intros [= <-]. unfold AppDetails.setActivePane. by case_decide.
Qed.

Lemma focus_setActivePane_focus index (m : AppDetails.Model P) :
  AppDetails.focus (AppDetails.setActivePane index m) = AppDetails.focus m.
Proof. unfold AppDetails.setActivePane. by case_decide. Qed.

Lemma focus_prevPane_focus (m m1 : AppDetails.Model P) :
  AppDetails.prevPane m = Ok m1 → AppDetails.focus m1 = AppDetails.focus m.
Proof.
  unfold AppDetails.prevPane.
  destruct (AppDetails.mod_len _ m) as [index|]; [|done].
  cbn [rbind]. intros Hm1. injection Hm1 as <-.
  apply focus_setActivePane_focus.
Qed.

(** The keys that switch the pane, refresh or quit, in each revision. *)
Definition switching_keys : list string :=
  ["q"; "ctrl+c"; "tab"; "shift+tab"; "1"; "2"; "3"; "4"; "5"; "ctrl+r"].

Definition focus_switching_keys : list string :=
  [" "; "q"; "ctrl+c"; "tab"; "shift+tab"; "1"; "2"; "3"; "4"; "ctrl+r"].

Definition scrolling_keys : list string := ["j"; "down"; "k"; "up"].

(** The revision with a focus, once the global handler has returned [nil]
    with the focus on the panes. *)
Lemma focus_falls_through (m m1 : AppDetails.Model P) key :
  key ≠ " " →
  AppDetails.handleKeyMsg Batch key m = Ok (m1, None) →
  AppDetails.focus m1 = AppDetails.FocusLeftPanes →
  AppDetails.Update Batch (KeyMsg key) m
  = AppDetails.forward Batch (KeyMsg key) m1.
Proof.
  intros Hkey Hh Hfocus. rewrite (focus_no_command m m1 key Hkey Hh).
  rewrite decide_False; [done|]. rewrite Hfocus. discriminate.
Qed.

(** C4. What the router does with a key when [tea.Batch], called with no
    command, returns [nil], as Bubble Tea's does.  The quit keys, and the
    space key in the revision with a focus, return at once.  The keys that
    switch the pane do not: tab, shift+tab and the digits change the active
    pane and are then forwarded to the pane that has just become active;
    ctrl+r returns at once only when the batch of the panes' refresh
    commands is a command (with no such command the key is forwarded); j,
    down, k and up scroll the diff, or the details, and are forwarded as
    well.  Every other key is forwarded to the active pane as it is, and
    forwarding stores the pane its [Update] returns and batches its
    command. *)
Theorem C4_switching_keys_reach_the_pane :
  Batch [] = None →
  (∀ (m : App.Model P) key,
     key = "q" ∨ key = "ctrl+c" →
     App.Update Batch (KeyMsg key) m = Ok (App.set_quitting true m, Some Quit)) ∧
  (∀ (m m1 : App.Model P),
     App.nextPane m = Ok m1 →
     App.Update Batch (KeyMsg "tab") m = App.forward Batch (KeyMsg "tab") m1) ∧
  (∀ (m m1 : App.Model P),
     App.prevPane m = Ok m1 →
     App.Update Batch (KeyMsg "shift+tab") m
     = App.forward Batch (KeyMsg "shift+tab") m1) ∧
  (∀ (m : App.Model P) (i : nat) key,
     ["1"; "2"; "3"; "4"; "5"] !! i = Some key →
     App.Update Batch (KeyMsg key) m
     = App.forward Batch (KeyMsg key) (App.setActivePane (Z.of_nat i) m)) ∧
  (∀ (m : App.Model P),
     let refreshed :=
       App.set_panes ((λ pane, (PaneInterface.Refresh pane).1) <$> App.panes m) m in
     App.Update Batch (KeyMsg "ctrl+r") m
     = match Batch (omap (λ pane, (PaneInterface.Refresh pane).2) (App.panes m)) with
       | Some cmd => Ok (refreshed, Some cmd)
       | None => App.forward Batch (KeyMsg "ctrl+r") refreshed
       end) ∧
  (∀ (m : App.Model P) key,
     key ∈ scrolling_keys → App.activePane m ≠ 4 →
     App.Update Batch (KeyMsg key) m
     = App.forward Batch (KeyMsg key)
         (if decide (key = "j" ∨ key = "down") then App.scrollDiffDown m
          else App.scrollDiffUp m)) ∧
  (∀ (m : App.Model P) key,
     key ∉ switching_keys →
     (key ∈ scrolling_keys → App.activePane m = 4) →
     App.Update Batch (KeyMsg key) m = App.forward Batch (KeyMsg key) m) ∧
  (∀ msg (m : App.Model P) pane r,
     0 ≤ App.activePane m →
     App.panes m !! Z.to_nat (App.activePane m) = Some pane →
     PaneInterface.Update msg pane = Ok r →
     App.forward Batch msg m
     = Ok (App.set_panes (<[Z.to_nat (App.activePane m) := r.1]> (App.panes m)) m,
           Batch (App.append_cmd [] r.2))) ∧
  (∀ (m : AppDetails.Model P) key,
     key = " " ∨ key = "q" ∨ key = "ctrl+c" →
     AppDetails.Update Batch (KeyMsg key) m
     = if decide (key = " ") then Ok (AppDetails.toggleFocus m, None)
       else Ok (AppDetails.set_quitting true m, Some Quit)) ∧
  (∀ (m : AppDetails.Model P),
     AppDetails.focus m = AppDetails.FocusLeftPanes →
     (∀ m1, AppDetails.nextPane m = Ok m1 →
        AppDetails.Update Batch (KeyMsg "tab") m
        = AppDetails.forward Batch (KeyMsg "tab") m1) ∧
     (∀ m1, AppDetails.prevPane m = Ok m1 →
        AppDetails.Update Batch (KeyMsg "shift+tab") m
        = AppDetails.forward Batch (KeyMsg "shift+tab") m1) ∧
     (∀ (i : nat) key,
        ["1"; "2"; "3"; "4"] !! i = Some key →
        AppDetails.Update Batch (KeyMsg key) m
        = AppDetails.forward Batch (KeyMsg key)
            (AppDetails.setActivePane (Z.of_nat i) m)) ∧
     (∀ key,
        key ∈ scrolling_keys → AppDetails.activePane m ≠ 3 →
        AppDetails.Update Batch (KeyMsg key) m
        = AppDetails.forward Batch (KeyMsg key)
            (AppDetails.set_details
               (if decide (key = "j" ∨ key = "down")
                then AppDetails.Details.ScrollDown (sub (AppDetails.height m) 5)
                       (AppDetails.details m)
                else AppDetails.Details.ScrollUp (AppDetails.details m)) m)) ∧
     (∀ key,
        key ∉ focus_switching_keys →
        (key ∈ scrolling_keys → AppDetails.activePane m = 3) →
        AppDetails.Update Batch (KeyMsg key) m
        = AppDetails.forward Batch (KeyMsg key) m)).
Proof.
  intros Hnil.
  split; [exact quit_returns|].
  split.
  { intros m m1 Hnext. apply no_command.
    change (App.handleKeyMsg Batch "tab" m)
      with (m' ←! App.nextPane m; Ok (m', Batch [])).
    by rewrite Hnext, Hnil. }
  split.
  { intros m m1 Hprev. apply no_command.
    change (App.handleKeyMsg Batch "shift+tab" m)
      with (m' ←! App.prevPane m; Ok (m', Batch [])).
    by rewrite Hprev, Hnil. }
  split.
  { intros m i key Hkey. apply no_command.
    do 5 (destruct i as [|i]; [injection Hkey as <-; by rewrite <- Hnil|]).
    done. }
  split.
  { intros m refreshed. unfold App.Update.
    change (App.handleKeyMsg Batch "ctrl+r" m) with (Ok (App.refreshAll Batch m)).
    unfold App.refreshAll. rewrite AppFacts.refresh_loop. simpl.
    by destruct (Batch _). }
  split.
  { intros m key Hkey Hactive. apply no_command. unfold scrolling_keys in Hkey.
    repeat (apply elem_of_cons in Hkey as [->|Hkey]);
      [| | | |by apply elem_of_nil in Hkey].
    - change (App.handleKeyMsg Batch "j" m)
        with (if decide (App.activePane m ≠ 4)
              then Ok (App.scrollDiffDown m, Batch []) else Ok (m, None)).
      rewrite decide_True by done. by rewrite Hnil.
    - change (App.handleKeyMsg Batch "down" m)
        with (if decide (App.activePane m ≠ 4)
              then Ok (App.scrollDiffDown m, Batch []) else Ok (m, None)).
      rewrite decide_True by done. by rewrite Hnil.
    - change (App.handleKeyMsg Batch "k" m)
        with (if decide (App.activePane m ≠ 4)
              then Ok (App.scrollDiffUp m, Batch []) else Ok (m, None)).
      rewrite decide_True by done. by rewrite Hnil.
    - change (App.handleKeyMsg Batch "up" m)
        with (if decide (App.activePane m ≠ 4)
              then Ok (App.scrollDiffUp m, Batch []) else Ok (m, None)).
      rewrite decide_True by done. by rewrite Hnil. }
  split.
  { intros m key Hkey Hscroll. apply no_command. unfold App.handleKeyMsg.
    unfold switching_keys in Hkey.
    repeat (apply not_elem_of_cons in Hkey as [? Hkey]).
    rewrite !(decide_False (P := key = _)) by done.
    rewrite (decide_False (P := key = "q" ∨ key = "ctrl+c"))
      by (intuition congruence).
    destruct (decide (key = "?")) as [->|_]; [by rewrite Hnil|].
    assert (Hfour : key ∈ scrolling_keys → ¬ App.activePane m ≠ 4)
      by (intros Hin; rewrite (Hscroll Hin); lia).
    unfold scrolling_keys in Hfour.
    destruct (decide (key = "j" ∨ key = "down")) as [Hj|_].
    { rewrite decide_False; [done|]. apply Hfour.
      destruct Hj as [-> | ->]; by apply (bool_decide_unpack _). }
    destruct (decide (key = "k" ∨ key = "up")) as [Hk|_]; [|done].
    rewrite decide_False; [done|]. apply Hfour.
    destruct Hk as [-> | ->]; by apply (bool_decide_unpack _). }
  split; [intros msg m pane r; apply AppFacts.forward_delivers|].
  split.
  { intros m key [-> | Hquit]; [done|]. rewrite decide_False.
    - by apply focus_quit_returns.
    - destruct Hquit as [-> | ->]; discriminate. }
  intros m Hfocus. split.
  { intros m1 Hnext. apply focus_falls_through; [done| |].
    - change (AppDetails.handleKeyMsg Batch "tab" m)
        with (AppDetails.handlePaneNavigation Batch AppDetails.nextPane m).
      unfold AppDetails.handlePaneNavigation.
      rewrite decide_True by done. by rewrite Hnext, Hnil.
    - by rewrite (focus_nextPane_focus m m1 Hnext). }
  split.
  { intros m1 Hprev. apply focus_falls_through; [done| |].
    - change (AppDetails.handleKeyMsg Batch "shift+tab" m)
        with (AppDetails.handlePaneNavigation Batch AppDetails.prevPane m).
      unfold AppDetails.handlePaneNavigation.
      rewrite decide_True by done. by rewrite Hprev, Hnil.
    - by rewrite (focus_prevPane_focus m m1 Hprev). }
  split.
  { intros i key Hkey.
    assert (Hnav : ∀ index,
      AppDetails.handlePaneNavigation Batch
        (λ m, Ok (AppDetails.setActivePane index m)) m
      = Ok (AppDetails.setActivePane index m, None)).
    { intros index. unfold AppDetails.handlePaneNavigation.
      rewrite decide_True by done. simpl. by rewrite Hnil. }
    do 4 (destruct i as [|i];
          [injection Hkey as <-;
           apply focus_falls_through;
           [done|apply Hnav|by rewrite focus_setActivePane_focus]|]).
    done. }
  split.
  { intros key Hkey Hactive. unfold scrolling_keys in Hkey.
    assert (Hvert : ∀ down,
      AppDetails.handleVerticalNavigation Batch down m
      = (AppDetails.set_details
           (if down
            then AppDetails.Details.ScrollDown (sub (AppDetails.height m) 5)
                   (AppDetails.details m)
            else AppDetails.Details.ScrollUp (AppDetails.details m)) m, None)).
    { intros down. unfold AppDetails.handleVerticalNavigation.
      rewrite decide_False by (rewrite Hfocus; discriminate).
      rewrite decide_True by done. by rewrite Hnil. }
    repeat (apply elem_of_cons in Hkey as [->|Hkey]);
      [| | | |by apply elem_of_nil in Hkey];
      (apply focus_falls_through; [done| |done]).
    - change (AppDetails.handleKeyMsg Batch "j" m)
        with (Ok (AppDetails.handleVerticalNavigation Batch true m)).
      by rewrite Hvert.
    - change (AppDetails.handleKeyMsg Batch "down" m)
        with (Ok (AppDetails.handleVerticalNavigation Batch true m)).
      by rewrite Hvert.
    - change (AppDetails.handleKeyMsg Batch "k" m)
        with (Ok (AppDetails.handleVerticalNavigation Batch false m)).
      by rewrite Hvert.
    - change (AppDetails.handleKeyMsg Batch "up" m)
        with (Ok (AppDetails.handleVerticalNavigation Batch false m)).
      by rewrite Hvert. }
  intros key Hkey Hscroll. unfold focus_switching_keys in Hkey.
  apply not_elem_of_cons in Hkey as [Hspace Hkey].
  apply focus_falls_through; [done| |done].
  unfold AppDetails.handleKeyMsg.
  repeat (apply not_elem_of_cons in Hkey as [? Hkey]).
  rewrite !(decide_False (P := key = _)) by done.
  rewrite (decide_False (P := key = "q" ∨ key = "ctrl+c"))
    by (intuition congruence).
  destruct (decide (key = "?")) as [->|_]; [by rewrite Hnil|].
  assert (Hthree : key ∈ scrolling_keys →
            ∀ down, AppDetails.handleVerticalNavigation Batch down m = (m, None)).
  { intros Hin down. unfold AppDetails.handleVerticalNavigation.
    rewrite decide_False by (rewrite Hfocus; discriminate).
    rewrite decide_False; [done|]. rewrite (Hscroll Hin). lia. }
  unfold scrolling_keys in Hthree.
  destruct (decide (key = "j" ∨ key = "down")) as [Hj|_].
  { rewrite Hthree; [done|].
    destruct Hj as [-> | ->]; by apply (bool_decide_unpack _). }
  destruct (decide (key = "k" ∨ key = "up")) as [Hk|_].
  { rewrite Hthree; [done|].
    destruct Hk as [-> | ->]; by apply (bool_decide_unpack _). }
  unfold AppDetails.handleJumpToTop, AppDetails.handleJumpToBottom.
  rewrite !(decide_False (P := AppDetails.focus m = AppDetails.FocusDetails))
    by (rewrite Hfocus; discriminate).
  by repeat case_decide.
Qed.

(** X7. What the tab key does with the focus on the panes hangs on what
    [tea.Batch] returns when it is given no command: if a command, the
    router switches to the next pane and returns; if [nil], the router
    switches to the next pane and then forwards the key to it. *)
Theorem X7_tab_key_and_empty_batch (m m1 : AppDetails.Model P) :
  AppDetails.focus m = AppDetails.FocusLeftPanes →
  AppDetails.nextPane m = Ok m1 →
  (∀ c, Batch [] = Some c →
        AppDetails.Update Batch (KeyMsg "tab") m = Ok (m1, Some c)) ∧
  (Batch [] = None →
   AppDetails.Update Batch (KeyMsg "tab") m
   = AppDetails.forward Batch (KeyMsg "tab") m1).
Proof.
  intros Hfocus Hnext.
  assert (Hh : AppDetails.handleKeyMsg Batch "tab" m = Ok (m1, Batch [])).
  { change (AppDetails.handleKeyMsg Batch "tab" m)
      with (AppDetails.handlePaneNavigation Batch AppDetails.nextPane m).
    unfold AppDetails.handlePaneNavigation.
    rewrite decide_True by done. by rewrite Hnext. }
  split.
  - intros c Hc. rewrite Hc in Hh. by apply focus_command_returns.
  - intros Hnil. rewrite Hnil in Hh.
    rewrite (focus_no_command m m1 "tab") by done.
    rewrite decide_False; [done|].
    rewrite (focus_nextPane_focus m m1 Hnext), Hfocus. discriminate.
Qed.

End Router.

(** *** The routing as the specification words it *)

(** A pane that does nothing but record the messages its [Update] receives:
    on a router of such panes a call of a pane's handler shows in the
    state. *)
Definition Probe : Type := list Msg.

#[global] Instance Probe_Pane : PaneInterface.Pane Probe := {|
  PaneInterface.Update msg log := Ok (log ++ [msg], None);
  PaneInterface.SetActive _ log := log;
  PaneInterface.IsActive _ := false;
  PaneInterface.Refresh log := (log, None)
|}.

(** The global commands the specification lists: quit, next and previous
    pane, the digits of the four panes, refresh-all and the focus toggle. *)
Definition global_commands : list string :=
  ["q"; "ctrl+c"; "tab"; "shift+tab"; "1"; "2"; "3"; "4"; "ctrl+r"; " "].

(** The routing the specification states: a global command reaches no pane,
    and any other key, with the focus on the panes, reaches the active
    pane. *)
Definition stated_routing (Batch : list Cmd → option Cmd) : Prop :=
  ∀ (m : AppDetails.Model Probe) key m' cmd,
    AppDetails.Update Batch (KeyMsg key) m = Ok (m', cmd) →
    (key ∈ global_commands → AppDetails.panes m' = AppDetails.panes m) ∧
    (key ∉ global_commands →
     AppDetails.focus m = AppDetails.FocusLeftPanes →
     ∀ log,
       0 ≤ AppDetails.activePane m →
       AppDetails.panes m !! Z.to_nat (AppDetails.activePane m) = Some log →
       AppDetails.panes m' !! Z.to_nat (AppDetails.activePane m)
       = Some (log ++ [KeyMsg key])).

Definition probe_router : AppDetails.Model Probe :=
  AppDetails.NewModel [[]; []; []; []].

(** The routing C4 states fails whatever [tea.Batch] returns for no
    command.  On the router [NewModel] builds (first pane active, focus on
    the panes): if [tea.Batch()] is a command, the key [j] scrolls the
    details and returns, so the active pane never sees it, although [j] is
    none of the global commands; if [tea.Batch()] is [nil], as it is in
    Bubble Tea, the key [tab] switches to the second pane and is then
    forwarded to it. *)
Lemma stated_routing_fails : ¬ ∃ Batch, stated_routing Batch.
Proof.
  intros [Batch Hstated]. destruct (Batch []) as [c|] eqn:Hbatch.
  - assert (Hh : AppDetails.handleKeyMsg Batch "j" probe_router
                 = Ok (probe_router, Batch [])) by reflexivity.
    rewrite Hbatch in Hh.
    pose proof (focus_command_returns Batch probe_router probe_router "j" c
                  ltac:(discriminate) Hh) as Hupd.
    destruct (Hstated _ _ _ _ Hupd) as [_ Hfwd].
    specialize (Hfwd ltac:(by apply (bool_decide_unpack _)) eq_refl []
                  ltac:(done) eq_refl).
    discriminate Hfwd.
  - assert (Hh : AppDetails.handleKeyMsg Batch "tab" probe_router
                 = Ok (AppDetails.setActivePane 1 probe_router, Batch []))
      by reflexivity.
    rewrite Hbatch in Hh.
    pose proof (focus_no_command Batch probe_router _ "tab"
                  ltac:(discriminate) Hh) as Hupd.
    change (AppDetails.Update Batch (KeyMsg "tab") probe_router
            = Ok (AppDetails.set_panes [[]; [KeyMsg "tab"]; []; []]
                    (AppDetails.setActivePane 1 probe_router), Batch []))
      in Hupd.
    destruct (Hstated _ _ _ _ Hupd) as [Hglobal _].
    specialize (Hglobal ltac:(by apply (bool_decide_unpack _))).
    discriminate Hglobal.
Qed.

(** C4 at the router [NewModel] builds in the five-pane revision (second
    pane active), with Bubble Tea's [tea.Batch]: the tab key makes the third
    pane the active one, and that pane's [Update] then receives the key;
    the key [4] makes the fourth pane the active one and is received by
    it. *)
Definition five_probes : App.Model Probe :=
  App.NewModel [[]; []; []; []; []].

Lemma C4_witness :
  teaBatch [] = None ∧
  App.Update teaBatch (KeyMsg "tab") five_probes
  = Ok (App.set_panes [[]; []; [KeyMsg "tab"]; []; []]
          (App.setActivePane 2 five_probes), None) ∧
  App.Update teaBatch (KeyMsg "4") five_probes
  = Ok (App.set_panes [[]; []; []; [KeyMsg "4"]; []]
          (App.setActivePane 3 five_probes), None).
Proof.
  destruct (C4_switching_keys_reach_the_pane (P := Probe) teaBatch eq_refl)
    as (_ & Htab & _ & Hdigit & _).
  split; [reflexivity|]. split.
  - rewrite (Htab five_probes (App.setActivePane 2 five_probes) eq_refl).
    reflexivity.
  - rewrite (Hdigit five_probes 3%nat "4" eq_refl). reflexivity.
Defined.

Lemma X7_witness :
  AppDetails.focus probe_router = AppDetails.FocusLeftPanes ∧
  AppDetails.nextPane probe_router = Ok (AppDetails.setActivePane 1 probe_router) ∧
  AppDetails.Update alwaysBatch (KeyMsg "tab") probe_router
  = Ok (AppDetails.setActivePane 1 probe_router, Some (Batched [])) ∧
  AppDetails.Update teaBatch (KeyMsg "tab") probe_router
  = Ok (AppDetails.set_panes [[]; [KeyMsg "tab"]; []; []]
          (AppDetails.setActivePane 1 probe_router), None).
Proof.
  split; [reflexivity|]. split; [reflexivity|]. split.
  - exact (proj1 (X7_tab_key_and_empty_batch alwaysBatch probe_router _
                    eq_refl eq_refl) _ eq_refl).
  - exact (proj2 (X7_tab_key_and_empty_batch teaBatch probe_router _
                    eq_refl eq_refl) eq_refl).
Defined.

End KeyRouting.

(** ** The router with a stash pane among its panes *)

Module RouterScenarios.
Import GoInt GoIntFacts Slice SliceFacts Messages App AppFacts.

(** *** A router as [NewModel] leaves it: five panes, none of them active *)

Definition fresh_router : Model (Stash.StashPane unit) :=
  NewModel (replicate 5 (Stash.NewStashPane [])).

(** C5, as stated, fails on the router [NewModel] builds: its panes are all
    inactive, and the sequence made of the single out-of-bounds call
    [setActivePane 5] returns the router unchanged, with no active pane. *)
Lemma C5_counterexample :
  len (panes fresh_router) = 5 ∧
  calls [CallSetActivePane 5] fresh_router = Ok fresh_router ∧
  active_count fresh_router = 0%nat ∧
  ¬ (∀ cs, ∃ m', calls cs fresh_router = Ok m' ∧ active_count m' = 1%nat).
Proof.
  split; [done|]. split; [done|]. split; [done|].
  intros Hall. destruct (Hall [CallSetActivePane 5]) as (m' & Hcalls & Hone).
  vm_compute in Hcalls. injection Hcalls as <-. by vm_compute in Hone.
Qed.

Lemma C5_witness :
  PaneInterface.active_flag_kept (Stash.StashPane unit) ∧
  0 < len (panes fresh_router) ≤ max_items ∧
  activePane (setActivePane 2 fresh_router) = 2 ∧
  active_count (setActivePane 2 fresh_router) = 1%nat ∧
  ∃ m', calls [CallSetActivePane 7; CallNextPane; CallPrevPane] fresh_router = Ok m' ∧
        active_count m' = 1%nat.
Proof.
  assert (Hlen : 0 < len (panes fresh_router) ≤ max_items) by (by vm_compute).
  pose proof (C5_setActivePane_one_active StashFacts.StashPane_flag_kept
                fresh_router Hlen) as (Hset & _ & Hcalls).
  split; [exact StashFacts.StashPane_flag_kept|]. split; [exact Hlen|].
  destruct (Hset 2) as (Hact & _ & Hone); [by vm_compute|].
  split; [exact Hact|]. split; [exact Hone|].
  destruct (Hcalls ltac:(by vm_compute)
              [CallSetActivePane 7; CallNextPane; CallPrevPane])
    as (m' & Hm' & _ & _ & Hcount & _).
  exists m'. split; [exact Hm'|]. apply Hcount. right.
  apply Exists_cons_tl, Exists_cons_hd. exact I.
Defined.

(** *** A refresh that completes after the active pane has changed *)

Section Completion.
Context {Meta Q : Type} `{!PaneInterface.Pane Q}.
Variable Batch : list Cmd → option Cmd.
Implicit Types (m : Model (Stash.StashPane Meta + Q)) (s : Stash.StashPane Meta).

Lemma handleKeyMsg_r m : handleKeyMsg Batch "r" m = Ok (m, None).
Proof. reflexivity. Qed.

Lemma stash_message_accepted stashes (pane : Stash.StashPane Meta + Q) :
  (∀ q : Q, ∃ r, PaneInterface.Update (StashUpdateMsg stashes) q = Ok r) →
  ∃ r, PaneInterface.Update (StashUpdateMsg stashes) pane = Ok r.
Proof.
  intros HQ. destruct pane as [s|q]; simpl; [by eexists|].
  destruct (HQ q) as [r ->]. by eexists.
Qed.

(** C6. The stash pane at index [i] is active and receives the key [r]: its
    loading flag is set.  Pane [j ≠ i] then becomes the active one.  When
    the completion message arrives, the router hands it to every pane: the
    stash pane, although inactive, takes the items of the message and
    clears its loading flag, while it ignores every key. *)
Theorem C6_completion_reaches_inactive_pane m0 (i j : nat) s0 stashes :
  panes m0 !! i = Some (inl s0) →
  activePane m0 = Z.of_nat i →
  Panes.IsActive (Stash.base s0) = true →
  j ≠ i → (j < length (panes m0))%nat →
  len stashes ≤ max_items →
  (∀ q : Q, ∃ r, PaneInterface.Update (StashUpdateMsg stashes) q = Ok r) →
  ∃ m1 cmd1 s1 m3 cmd3 s3,
    Update Batch (KeyMsg "r") m0 = Ok (m1, cmd1) ∧
    panes m1 !! i = Some (inl s1) ∧
    Panes.IsLoading (Stash.base s1) = true ∧
    activePane (setActivePane (Z.of_nat j) m1) = Z.of_nat j ∧
    (∃ s2, panes (setActivePane (Z.of_nat j) m1) !! i = Some (inl s2) ∧
           Panes.IsActive (Stash.base s2) = false ∧
           Panes.IsLoading (Stash.base s2) = true) ∧
    Update Batch (StashUpdateMsg stashes) (setActivePane (Z.of_nat j) m1)
      = Ok (m3, cmd3) ∧
    panes m3 !! i = Some (inl s3) ∧
    Panes.IsActive (Stash.base s3) = false ∧
    Panes.IsLoading (Stash.base s3) = false ∧
    Panes.items (Stash.base s3) = Stash.stashItems stashes ∧
    (∀ key, Stash.Update (KeyMsg key) s3 = Ok (s3, None)).
Proof.
  intros Hi Hact Hs0 Hij Hj Hstashes HQ.
  pose proof (lookup_lt_Some _ _ _ Hi) as Hilt.
  (* the key reaches the stash pane, which starts its refresh *)
  set (s1 := Stash.on_base (Panes.SetLoading true) s0).
  set (m1 := set_panes (<[i := inl s1]> (panes m0)) m0).
  assert (Hm1 : Update Batch (KeyMsg "r") m0
                = Ok (m1, Batch (append_cmd [] (Some LoadStashes)))).
  { unfold Update. rewrite handleKeyMsg_r. simpl.
    rewrite (forward_delivers Batch (KeyMsg "r") m0 (inl s0)
               (inl s1, Some LoadStashes)).
    - by rewrite Hact, Nat2Z.id.
    - lia.
    - by rewrite Hact, Nat2Z.id.
    - simpl. by rewrite Hs0. }
  assert (Hp1 : panes m1 !! i = Some (inl s1)).
  { simpl. by apply list_lookup_insert_eq. }
  (* another pane becomes the active one *)
  set (m2 := setActivePane (Z.of_nat j) m1).
  assert (Hjb : 0 ≤ Z.of_nat j < len (panes m1)).
  { simpl. unfold len. rewrite length_insert. lia. }
  set (s2 := Stash.on_base (Panes.SetActive false) s1).
  assert (Hp2 : panes m2 !! i = Some (inl s2)).
  { unfold m2, setActivePane. rewrite decide_True by lia. simpl.
    rewrite list_lookup_imap, list_lookup_insert_eq by done. simpl.
    by rewrite bool_decide_eq_false_2 by lia. }
  (* the completion message is handed to every pane *)
  destruct (broadcast_delivers Batch (StashUpdateMsg stashes) m2) as [cmd3 Hm3].
  { intros pane _. by apply stash_message_accepted. }
  set (s3 := Stash.updateFromStashMsg stashes s2).
  destruct (StashFacts.updateFromStashMsg_effect stashes s2 Hstashes)
    as (Hitems & Hloading & Hactive & _).
  exists m1, (Batch (append_cmd [] (Some LoadStashes))), s1.
  eexists _, cmd3, s3.
  split; [exact Hm1|]. split; [exact Hp1|]. split; [done|].
  split; [by apply setActivePane_activePane|].
  split; [by exists s2|].
  split; [exact Hm3|].
  split; [simpl; by rewrite list_lookup_fmap, Hp2|].
  split; [exact Hactive|]. split; [exact Hloading|]. split; [exact Hitems|].
  intros key. by apply StashFacts.Update_key_inactive.
Qed.

End Completion.

(** C6 at a router of five panes: the stash pane, last of the five, is
    made active and refreshed; the second pane then becomes active; the
    completion message carries one stash. *)
Definition stash_router : Model (Stash.StashPane unit + Stash.StashPane unit) :=
  setActivePane 4
    (NewModel [inr (Stash.NewStashPane []); inr (Stash.NewStashPane []);
               inr (Stash.NewStashPane []); inr (Stash.NewStashPane []);
               inl (Stash.NewStashPane [])]).

Lemma C6_witness :
  ∃ s0 m1 cmd1 m3 cmd3 s3,
    panes stash_router !! 4%nat = Some (inl s0) ∧
    activePane stash_router = 4 ∧
    Panes.IsActive (Stash.base s0) = true ∧
    Update teaBatch (KeyMsg "r") stash_router = Ok (m1, cmd1) ∧
    Update teaBatch (StashUpdateMsg ["stash@{0}: WIP on main: 1a2b3c4 fix"])
      (setActivePane 1 m1) = Ok (m3, cmd3) ∧
    panes m3 !! 4%nat = Some (inl s3) ∧
    Panes.IsActive (Stash.base s3) = false ∧
    Panes.IsLoading (Stash.base s3) = false ∧
    Panes.items (Stash.base s3)
      = Stash.stashItems ["stash@{0}: WIP on main: 1a2b3c4 fix"].
Proof.
  destruct (C6_completion_reaches_inactive_pane (Q := Stash.StashPane unit)
              teaBatch stash_router 4 1
              (Stash.on_base (Panes.SetActive true) (Stash.NewStashPane []))
              ["stash@{0}: WIP on main: 1a2b3c4 fix"])
    as (m1 & cmd1 & s1 & m3 & cmd3 & s3 & Hm1 & _ & _ & _ & _ & Hm3 & Hp3
        & Hact & Hld & Hitems & _).
  - reflexivity.
  - reflexivity.
  - reflexivity.
  - lia.
  - simpl. lia.
  - by vm_compute.
  - intros q. by eexists.
  - exists (Stash.on_base (Panes.SetActive true) (Stash.NewStashPane [])).
    exists m1, cmd1, m3, cmd3, s3. by repeat split.
Defined.

Lemma X4_witness :
  ∃ cmd,
    Update teaBatch (OtherMsg "tea.MouseMsg") stash_router
    = Ok (set_panes (updated (OtherMsg "tea.MouseMsg") <$> panes stash_router)
            stash_router, cmd).
Proof.
  apply (X4_other_messages_reach_every_pane teaBatch (OtherMsg "tea.MouseMsg")
           stash_router); [discriminate|discriminate|].
  intros pane _. destruct pane; by eexists.
Defined.

Lemma X5_witness :
  0 < len (panes stash_router) ≤ max_items ∧
  0 ≤ activePane stash_router < len (panes stash_router) ∧
  nextPane stash_router = Ok (setActivePane 0 stash_router) ∧
  prevPane stash_router = Ok (setActivePane 3 stash_router).
Proof.
  assert (Hlen : 0 < len (panes stash_router) ≤ max_items) by (by vm_compute).
  assert (Hact : 0 ≤ activePane stash_router < len (panes stash_router))
    by (by vm_compute).
  split; [exact Hlen|]. split; [exact Hact|].
  exact (X5_nextPane_prevPane_wrap stash_router Hlen Hact).
Defined.

End RouterScenarios.

(** Arithmetic within the range of [int], one [wrap] at a time from the
    inside. *)
Ltac no_wrap :=
  repeat match goal with
    | |- context [GoInt.wrap ?z] =>
        rewrite (GoIntFacts.wrap_small z)
          by (unfold GoInt.min_int, GoInt.max_int, GoInt.max_items in *; lia)
    end.

Module CursorFacts.
Import GoInt GoIntFacts Slice SliceFacts Panes PanesFacts.

Section WithMetadata.
Context {Meta : Type}.
Implicit Types (b : BasePaneModel Meta).

Lemma nonempty_len b : items b ≠ [] → 0 < len (items b).
Proof.
  intros Hne. pose proof (len_nonneg (items b)).
  destruct (decide (len (items b) = 0)) as [H0|]; [|lia].
  by apply len_nil_iff in H0.
Qed.

(** In a well-formed state with items the cursor is on an item. *)
Lemma GetSelectedItem_wf b :
  wf b → items b ≠ [] →
  ∃ it, items b !! Z.to_nat (selectedIndex b) = Some it ∧
        GetSelectedItem b = Ok (Some it).
Proof.
  intros Hb Hne. pose proof (nonempty_len b Hne) as Hpos. unfold wf in Hb.
  unfold GetSelectedItem. rewrite decide_False by lia.
  destruct (index_ok (items b) (selectedIndex b)) as (it & Hlk & ->); [lia|].
  by exists it.
Qed.

Lemma MoveDown_step b :
  0 < len (items b) ≤ max_int →
  0 ≤ selectedIndex b < len (items b) →
  items (MoveDown b) = items b ∧
  selectedIndex (MoveDown b) = (selectedIndex b + 1) `mod` len (items b).
Proof.
  intros Hlen Hsel. unfold MoveDown. rewrite decide_False by lia.
  rewrite adjustScrollOffset_items, adjustScrollOffset_selectedIndex.
  case_decide as Hc; simpl; int_simpl; (split; [done|]).
  - symmetry. apply Z.mod_small. lia.
  - replace (selectedIndex b + 1) with (len (items b)) by lia.
    by rewrite Z_mod_same_full.
Qed.

Lemma MoveUp_step b :
  0 < len (items b) ≤ max_int →
  0 ≤ selectedIndex b < len (items b) →
  items (MoveUp b) = items b ∧
  selectedIndex (MoveUp b) = (selectedIndex b - 1) `mod` len (items b).
Proof.
  intros Hlen Hsel. unfold MoveUp. rewrite decide_False by lia.
  rewrite adjustScrollOffset_items, adjustScrollOffset_selectedIndex.
  case_decide as Hc; simpl; int_simpl; (split; [done|]).
  - symmetry. apply Z.mod_small. lia.
  - replace (selectedIndex b - 1) with (len (items b) - 1 + (-1) * len (items b)) by lia.
    rewrite Z_mod_plus_full. symmetry. apply Z.mod_small. lia.
Qed.

Lemma iter_MoveDown b (k : nat) :
  0 < len (items b) ≤ max_int →
  0 ≤ selectedIndex b < len (items b) →
  items (Nat.iter k MoveDown b) = items b ∧
  selectedIndex (Nat.iter k MoveDown b)
  = (selectedIndex b + Z.of_nat k) `mod` len (items b).
Proof.
  intros Hlen Hsel. induction k as [|k [IHi IHs]].
  - simpl. split; [done|]. rewrite Z.add_0_r. symmetry. apply Z.mod_small. lia.
  - simpl. destruct (MoveDown_step (Nat.iter k MoveDown b)) as [Hi Hs].
    { by rewrite IHi. }
    { rewrite IHi, IHs. apply Z.mod_pos_bound. lia. }
    rewrite Hi, Hs, IHi, IHs. split; [done|].
    rewrite Zplus_mod_idemp_l. f_equal. lia.
Qed.

Lemma iter_MoveUp b (k : nat) :
  0 < len (items b) ≤ max_int →
  0 ≤ selectedIndex b < len (items b) →
  items (Nat.iter k MoveUp b) = items b ∧
  selectedIndex (Nat.iter k MoveUp b)
  = (selectedIndex b - Z.of_nat k) `mod` len (items b).
Proof.
  intros Hlen Hsel. induction k as [|k [IHi IHs]].
  - simpl. split; [done|]. rewrite Z.sub_0_r. symmetry. apply Z.mod_small. lia.
  - simpl. destruct (MoveUp_step (Nat.iter k MoveUp b)) as [Hi Hs].
    { by rewrite IHi. }
    { rewrite IHi, IHs. apply Z.mod_pos_bound. lia. }
    rewrite Hi, Hs, IHi, IHs. split; [done|].
    rewrite Zminus_mod_idemp_l. f_equal. lia.
Qed.

(** X8. On a list of N > 0 items the cursor counts modulo N: after [k]
    calls of [MoveDown] it is at [(selectedIndex + k) mod N], after [k]
    calls of [MoveUp] at [(selectedIndex - k) mod N]; so N calls of either
    bring it back, and each of the two undoes the other. *)
Theorem X8_cursor_counts_modulo_length b (k : nat) :
  0 < len (items b) ≤ max_int →
  0 ≤ selectedIndex b < len (items b) →
  selectedIndex (Nat.iter k MoveDown b)
    = (selectedIndex b + Z.of_nat k) `mod` len (items b) ∧
  selectedIndex (Nat.iter k MoveUp b)
    = (selectedIndex b - Z.of_nat k) `mod` len (items b) ∧
  selectedIndex (Nat.iter (length (items b)) MoveDown b) = selectedIndex b ∧
  selectedIndex (Nat.iter (length (items b)) MoveUp b) = selectedIndex b ∧
  selectedIndex (MoveUp (MoveDown b)) = selectedIndex b ∧
  selectedIndex (MoveDown (MoveUp b)) = selectedIndex b.
Proof.
  intros Hlen Hsel.
  split; [by apply iter_MoveDown|]. split; [by apply iter_MoveUp|].
  split; [|split; [|split]].
  - rewrite (proj2 (iter_MoveDown b _ Hlen Hsel)).
    change (Z.of_nat (length (items b))) with (len (items b)).
    replace (selectedIndex b + len (items b))
      with (selectedIndex b + 1 * len (items b)) by lia.
    rewrite Z_mod_plus_full. apply Z.mod_small. lia.
  - rewrite (proj2 (iter_MoveUp b _ Hlen Hsel)).
    change (Z.of_nat (length (items b))) with (len (items b)).
    replace (selectedIndex b - len (items b))
      with (selectedIndex b + (-1) * len (items b)) by lia.
    rewrite Z_mod_plus_full. apply Z.mod_small. lia.
  - destruct (MoveDown_step b Hlen Hsel) as [Hi Hs].
    destruct (MoveUp_step (MoveDown b)) as [_ Hs'].
    { by rewrite Hi. }
    { rewrite Hi, Hs. apply Z.mod_pos_bound. lia. }
    rewrite Hs', Hi, Hs, Zminus_mod_idemp_l.
    replace (selectedIndex b + 1 - 1) with (selectedIndex b) by lia.
    apply Z.mod_small. lia.
  - destruct (MoveUp_step b Hlen Hsel) as [Hi Hs].
    destruct (MoveDown_step (MoveUp b)) as [_ Hs'].
    { by rewrite Hi. }
    { rewrite Hi, Hs. apply Z.mod_pos_bound. lia. }
    rewrite Hs', Hi, Hs, Zplus_mod_idemp_l.
    replace (selectedIndex b - 1 + 1) with (selectedIndex b) by lia.
    apply Z.mod_small. lia.
Qed.

(** Where [adjustScrollOffset] puts the window of a non-empty list: at the
    cursor when the cursor is above it, one window above the cursor's next
    row when the cursor is below it, and where it was otherwise. *)
Lemma adjustScrollOffset_scrollOffset b :
  items b ≠ [] →
  1 ≤ maxDisplayItems b ≤ 2 ^ 62 →
  0 ≤ scrollOffset b ≤ max_items →
  0 ≤ selectedIndex b ≤ max_items →
  scrollOffset (adjustScrollOffset b)
  = if decide (selectedIndex b < scrollOffset b) then selectedIndex b
    else if decide (selectedIndex b >= scrollOffset b + maxDisplayItems b)
    then selectedIndex b - maxDisplayItems b + 1
    else scrollOffset b.
Proof.
  intros Hne Hmax Hscroll Hsel. pose proof (nonempty_len b Hne) as Hpos.
  unfold adjustScrollOffset. rewrite decide_False by lia.
  unfold max_items in *.
  destruct (decide (selectedIndex b < scrollOffset b)) as [Hc|Hc]; cbn;
    unfold add, sub; no_wrap;
    destruct (decide (_ >= _)) as [Hd|Hd]; cbn; try lia;
    destruct (decide (_ < 0)) as [He|He]; cbn; lia.
Qed.

(** X9. How the window follows the cursor in a well-formed state.
    [MoveDown]: the window stays while the next item is visible, moves down
    one row when the cursor leaves it at the bottom, and goes back to the
    top when the cursor wraps.  [MoveUp]: the window stays while the
    previous item is visible, moves up one row when the cursor leaves it at
    the top, and shows the last rows of the list when the cursor wraps. *)
Theorem X9_window_follows_cursor b :
  wf b → items b ≠ [] →
  scrollOffset (MoveDown b)
  = (if decide (selectedIndex b = len (items b) - 1) then 0
     else if decide (selectedIndex b + 1 < scrollOffset b + maxDisplayItems b)
     then scrollOffset b
     else scrollOffset b + 1) ∧
  scrollOffset (MoveUp b)
  = (if decide (selectedIndex b = 0)
     then Z.max 0 (len (items b) - maxDisplayItems b)
     else if decide (scrollOffset b < selectedIndex b)
     then scrollOffset b
     else scrollOffset b - 1).
Proof.
  intros Hb Hne. pose proof (nonempty_len b Hne) as Hpos.
  destruct Hb as (Hmax & Hlen & Hscroll & Hwin & Hsel).
  assert (Hbig : max_items = 2 ^ 48) by done.
  unfold MoveDown, MoveUp. rewrite !(decide_False (P := len (items b) = 0)) by lia.
  unfold sub, add.
  rewrite !wrap_small by (unfold min_int, max_int; lia).
  split.
  - destruct (decide (selectedIndex b < len (items b) - 1)) as [Hc|Hc];
      rewrite adjustScrollOffset_scrollOffset by (cbn; (done || lia)); cbn;
      repeat case_decide; lia.
  - destruct (decide (selectedIndex b > 0)) as [Hc|Hc];
      rewrite adjustScrollOffset_scrollOffset by (cbn; (done || lia)); cbn;
      repeat case_decide; lia.
Qed.

(** X10. [GetVisibleItems] in any state, reachable or not (the window size
    is whatever [SetMaxDisplayItems] was given): on a non-empty list it
    panics exactly when the offset or the end of the window is negative,
    and otherwise returns the items from the offset on, at most
    [maxDisplayItems] of them (none when that is not positive). *)
Theorem X10_GetVisibleItems_any_state b :
  items b ≠ [] → len (items b) ≤ max_items →
  min_int ≤ scrollOffset b + maxDisplayItems b ≤ max_int →
  GetVisibleItems b
  = if decide (scrollOffset b < 0 ∨ scrollOffset b + maxDisplayItems b < 0)
    then Panic
    else Ok (take (Z.to_nat (maxDisplayItems b))
               (drop (Z.to_nat (scrollOffset b)) (items b))).
Proof.
  intros Hne Hlen Hsum. pose proof (nonempty_len b Hne) as Hpos.
  unfold GetVisibleItems. rewrite decide_False by lia. cbv zeta.
  unfold add. rewrite wrap_small by done. unfold slice.
  destruct (decide (scrollOffset b + maxDisplayItems b > len (items b))) as [He|He];
    [destruct (decide (scrollOffset b > len (items b))) as [Hs|Hs]
    |destruct (decide (scrollOffset b > scrollOffset b + maxDisplayItems b))
       as [Hs|Hs]];
    repeat case_decide; try done; try lia; f_equal.
  - rewrite Z.sub_diag. simpl.
    by rewrite (drop_ge _ (Z.to_nat (scrollOffset b))), take_nil
      by (unfold len in *; lia).
  - rewrite !take_ge; [done|rewrite length_drop; unfold len in *; lia..].
  - rewrite Z.sub_diag. simpl.
    by replace (Z.to_nat (maxDisplayItems b)) with 0%nat by lia.
  - f_equal. lia.
Qed.

End WithMetadata.

(** *** The properties at concrete lists *)

(** Five items in a window of three rows, the cursor on the last visible
    row. *)
Definition narrow_list : BasePaneModel unit :=
  mkBase "Stash" StashPaneType "stash"
    [demo_item "a"; demo_item "b"; demo_item "c"; demo_item "d"; demo_item "e"]
    2 true false false 3 "" 0.

Lemma narrow_list_wf : wf narrow_list.
Proof. unfold wf. by vm_compute. Qed.

Lemma X8_witness :
  0 < len (items narrow_list) ≤ max_int ∧
  0 ≤ selectedIndex narrow_list < len (items narrow_list) ∧
  selectedIndex (Nat.iter 4 MoveDown narrow_list) = 1 ∧
  selectedIndex (Nat.iter 4 MoveUp narrow_list) = 3.
Proof.
  assert (Hlen : 0 < len (items narrow_list) ≤ max_int) by (by vm_compute).
  assert (Hsel : 0 ≤ selectedIndex narrow_list < len (items narrow_list))
    by (by vm_compute).
  split; [exact Hlen|]. split; [exact Hsel|].
  destruct (X8_cursor_counts_modulo_length narrow_list 4 Hlen Hsel)
    as (Hdown & Hup & _).
  split; [exact Hdown|exact Hup].
Defined.

Lemma X9_witness :
  wf narrow_list ∧ items narrow_list ≠ [] ∧
  scrollOffset (MoveDown narrow_list) = 1 ∧
  scrollOffset (MoveUp narrow_list) = 0 ∧
  scrollOffset (MoveUp (MoveToTop narrow_list)) = 2.
Proof.
  assert (Hne : items narrow_list ≠ []) by discriminate.
  split; [exact narrow_list_wf|]. split; [exact Hne|].
  destruct (X9_window_follows_cursor narrow_list narrow_list_wf Hne)
    as [Hdown Hup].
  split; [exact Hdown|]. split; [exact Hup|].
  exact (proj2 (X9_window_follows_cursor (MoveToTop narrow_list)
                  (wf_MoveToTop _ narrow_list_wf) Hne)).
Defined.

Lemma X10_witness :
  items narrow_list ≠ [] ∧
  GetVisibleItems (SetMaxDisplayItems (-1) narrow_list) = Panic ∧
  GetVisibleItems (SetMaxDisplayItems 0 narrow_list) = Ok [] ∧
  GetVisibleItems (SetMaxDisplayItems 2 narrow_list)
  = Ok [demo_item "a"; demo_item "b"].
Proof.
  assert (Hne : items narrow_list ≠ []) by discriminate.
  assert (Hlen : len (items narrow_list) ≤ max_items) by (by vm_compute).
  split; [exact Hne|]. split; [|split].
  - rewrite (X10_GetVisibleItems_any_state (SetMaxDisplayItems (-1) narrow_list)
               Hne Hlen); [reflexivity|by vm_compute].
  - rewrite (X10_GetVisibleItems_any_state (SetMaxDisplayItems 0 narrow_list)
               Hne Hlen); [reflexivity|by vm_compute].
  - rewrite (X10_GetVisibleItems_any_state (SetMaxDisplayItems 2 narrow_list)
               Hne Hlen); [reflexivity|by vm_compute].
Defined.

End CursorFacts.

(** ** Properties of slicing, splitting and joining *)

Module GoTextFacts.
Import GoInt GoIntFacts GoStrings GoStringsFacts GoText.

Lemma slen_nonneg s : 0 ≤ slen s.
Proof. unfold slen. lia. Qed.

Lemma append_cons c s1 s2 : String c s1 +:+ s2 = String c (s1 +:+ s2).
Proof. reflexivity. Qed.

Lemma append_nil_l s : "" +:+ s = s.
Proof. reflexivity. Qed.

Lemma length_append s1 s2 :
  String.length (s1 +:+ s2) = (String.length s1 + String.length s2)%nat.
Proof. induction s1 as [|c s1 IH]; simpl; [done|]. by rewrite IH. Qed.

Lemma slen_append s1 s2 : slen (s1 +:+ s2) = slen s1 + slen s2.
Proof. unfold slen. rewrite length_append. lia. Qed.

Lemma append_assoc s1 s2 s3 : (s1 +:+ s2) +:+ s3 = s1 +:+ (s2 +:+ s3).
Proof.
  induction s1 as [|c s1 IH]; [done|]. by rewrite !append_cons, IH.
Qed.

Lemma append_nil_r s : s +:+ "" = s.
Proof. induction s as [|c s IH]; [done|]. by rewrite append_cons, IH. Qed.

Lemma substring_0_0 s : String.substring 0 0 s = "".
Proof. by destruct s. Qed.

(** The first [length s1] bytes of [s1 +:+ s2] are [s1]. *)
Lemma substring_append_prefix s1 s2 :
  String.substring 0 (String.length s1) (s1 +:+ s2) = s1.
Proof.
  induction s1 as [|c s1 IH]; [apply substring_0_0|].
  rewrite append_cons. simpl. by rewrite IH.
Qed.

Lemma length_substring_0 n s :
  (n ≤ String.length s)%nat → String.length (String.substring 0 n s) = n.
Proof.
  revert s. induction n as [|n IH]; intros s Hn.
  - by rewrite substring_0_0.
  - destruct s as [|c s]; simpl in *; [lia|]. rewrite IH; lia.
Qed.

(** A byte that does not occur in [s] is first found, in [s] followed by
    that byte, right after [s]. *)
Lemma Index_byte_absent s c rest :
  Index s (String c "") < 0 →
  Index (s +:+ String c rest) (String c "") = slen s.
Proof.
  unfold slen. induction s as [|a s IH]; rewrite ?append_cons; simpl.
  - intros _. by rewrite bool_decide_eq_true_2.
  - destruct (bool_decide (c = a)) eqn:Hca; simpl; [lia|].
    pose proof (Index_lower_bound s (String c "")).
    destruct (decide (Index s (String c "") < 0)) as [Hi|Hi]; [|lia]. intros _.
    rewrite IH by lia. destruct (decide (_ < 0)); lia.
Qed.

(** [Split] returns at least one piece, and one piece more than there are
    separators. *)
Lemma Split_nonempty s sep : Split s sep ≠ [].
Proof.
  induction s as [|c s IH]; simpl; [done|].
  case_decide; [done|]. by destruct (Split s sep).
Qed.

Lemma Split_length s sep : 1 ≤ len (Split s sep) ≤ slen s + 1.
Proof.
  unfold len, slen. induction s as [|c s IH]; simpl; [lia|].
  case_decide; simpl; [lia|].
  destruct (Split s sep); simpl in *; lia.
Qed.

End GoTextFacts.

(** ** More about the stash pane *)

Module StashListFacts.
Import Stdlib.Strings.Ascii.
Import GoInt GoIntFacts Slice SliceFacts GoStrings GoStringsFacts.
Import GoText GoTextFacts Messages Stash StashFacts StashView.

Lemma Index_cons_other (a c : ascii) s :
  c ≠ a →
  Index (String a s) (String c "")
  = if decide (Index s (String c "") < 0) then -1 else Index s (String c "") + 1.
Proof. intros Hca. simpl. by rewrite bool_decide_eq_false_2. Qed.

Lemma Index_cons_absent (a c : ascii) s :
  c ≠ a → Index s (String c "") < 0 → Index (String a s) (String c "") < 0.
Proof. intros Hca Hs. rewrite Index_cons_other by done. by rewrite decide_True. Qed.

Section WithMetadata.
Context {Meta : Type}.
Implicit Types (s : StashPane Meta) (b : Panes.BasePaneModel Meta).

(** X11. The reference of a stash is read off its line: of a line
    [stash@{n}...] it is the text up to the first closing brace, whatever
    the position [i] of the line is; of a line that does not start with
    [stash@{], or has no closing brace, it is [stash@{i}]. *)
Theorem X11_stashRefOf_reads_the_reference (i : Z) :
  (∀ n rest,
     slen n < max_items → Index n "}" < 0 →
     stashRefOf i ("stash@{" +:+ n +:+ "}" +:+ rest) = "stash@{" +:+ n +:+ "}") ∧
  (∀ line,
     HasPrefix line "stash@{" = false ∨ Index line "}" < 0 →
     stashRefOf i line = "stash@{" +:+ pretty i +:+ "}").
Proof.
  split.
  - intros n rest Hlen Hn. unfold stashRefOf.
    assert (Hp : HasPrefix ("stash@{" +:+ n +:+ "}" +:+ rest) "stash@{" = true)
      by (apply HasPrefix_spec; eauto).
    rewrite Hp.
    assert (Habs : Index ("stash@{" +:+ n) "}" < 0).
    { rewrite !append_cons, append_nil_l.
      repeat (apply Index_cons_absent; [discriminate|]). done. }
    assert (Hi : Index ("stash@{" +:+ n +:+ "}" +:+ rest) "}" = 7 + slen n).
    { change ("}" +:+ rest) with (String "}"%char rest).
      rewrite <- append_assoc.
      rewrite (Index_byte_absent ("stash@{" +:+ n) "}"%char rest Habs).
      by rewrite slen_append. }
    rewrite Hi. pose proof (slen_nonneg n). rewrite decide_True by lia.
    unfold add.
    rewrite wrap_small by (unfold min_int, max_int, max_items in *; lia).
    replace (Z.to_nat (7 + slen n + 1))
      with (String.length ("stash@{" +:+ n +:+ "}"))
      by (rewrite !length_append; unfold slen; simpl; lia).
    rewrite <- (substring_append_prefix ("stash@{" +:+ n +:+ "}") rest) at 2.
    by rewrite !append_assoc.
  - intros line [Hp|Hi]; unfold stashRefOf.
    + by rewrite Hp.
    + destruct (HasPrefix line "stash@{"); [|done].
      by rewrite decide_False by lia.
Qed.

(** *** The list of a stash pane is never empty *)

(** A stash pane as its constructor and its handlers leave it: the cursor
    and the window are well-formed and the list holds an item, a stash or
    the placeholder. *)
Definition loaded s : Prop :=
  Panes.wf (base s) ∧ Panes.items (base s) ≠ [].

Lemma addStashes_maxDisplayItems stashes i b :
  Panes.maxDisplayItems (addStashes i stashes b) = Panes.maxDisplayItems b.
Proof.
  revert i b. induction stashes as [|line rest IH]; intros i b; [done|].
  simpl. by rewrite IH.
Qed.

Lemma stashItems_length (stashes : list string) :
  len stashes ≤ max_items →
  0 < len (stashItems (Meta := Meta) stashes) ≤ max_items.
Proof.
  intros Hlen. unfold stashItems. case_decide as Hn.
  - by vm_compute.
  - pose proof (len_nonneg stashes). unfold len in *. rewrite length_imap. lia.
Qed.

Lemma new_list_loaded stashes b0 gr :
  len stashes ≤ max_items →
  1 ≤ Panes.maxDisplayItems b0 ≤ 2 ^ 62 →
  loaded (if decide (len stashes = 0)
          then mkStashPane (Panes.AddItem emptyItem (Panes.Clear b0)) gr
          else mkStashPane (addStashes 0 stashes (Panes.Clear b0)) gr).
Proof.
  intros Hlen Hmax. unfold loaded, Panes.wf.
  case_decide as Hn; cbn [base].
  - split; [|discriminate]. cbn. split; [done|]. split; [by vm_compute|].
    split; [done|]. split; [lia|]. by vm_compute.
  - destruct (addStashes_effect stashes 0 (Panes.Clear b0))
      as (Hit & _ & _ & Hsel & Hscr); [lia|int_range|].
    rewrite addStashes_maxDisplayItems, Hit, Hsel, Hscr. cbn.
    assert (Hl : ∀ f : nat → string → Panes.PaneItem Meta,
               len (imap f stashes) = len stashes).
    { intros f. unfold len. by rewrite length_imap. }
    pose proof (len_nonneg stashes). split.
    + rewrite Hl. split; [done|]. split; [done|]. split; [done|].
      split; [lia|]. lia.
    + intros Hnil. apply (f_equal len) in Hnil. rewrite Hl in Hnil.
      change (len []) with 0 in Hnil. lia.
Qed.

Lemma NewStashPane_loaded stashes :
  len stashes ≤ max_items → loaded (NewStashPane (Meta := Meta) stashes).
Proof.
  intros Hlen. unfold NewStashPane, loadStashes.
  apply new_list_loaded; [done|]. cbn. lia.
Qed.

Lemma updateFromStashMsg_loaded stashes s :
  len stashes ≤ max_items → loaded s → loaded (updateFromStashMsg stashes s).
Proof.
  intros Hlen [Hwf _]. unfold updateFromStashMsg.
  apply new_list_loaded; [done|]. unfold Panes.wf in Hwf. cbn. lia.
Qed.

Lemma on_base_loaded f s :
  (∀ b, Panes.wf b → Panes.wf (f b)) →
  (∀ b, Panes.items (f b) = Panes.items b) →
  loaded s → loaded (on_base f s).
Proof.
  intros Hwf Hitems [Hb Hne]. split; cbn; [by apply Hwf|by rewrite Hitems].
Qed.

Lemma HandleAction_loaded action s :
  loaded s → ∃ cmd, HandleAction action s = Ok cmd.
Proof.
  intros [Hb Hne]. unfold HandleAction.
  destruct (CursorFacts.GetSelectedItem_wf (base s) Hb Hne) as (it & _ & ->).
  by eexists.
Qed.

Lemma act_loaded action s :
  loaded s → ∃ cmd, act action s = Ok (s, cmd).
Proof.
  intros Hs. unfold act.
  destruct (HandleAction_loaded action s Hs) as [cmd ->]. by eexists.
Qed.

Lemma Update_loaded msg s :
  loaded s →
  (∀ stashes, msg = StashUpdateMsg stashes → len stashes ≤ max_items) →
  ∃ s' cmd, Update msg s = Ok (s', cmd) ∧ loaded s'.
Proof.
  intros Hs Hfit.
  assert (Hmove : ∀ f,
    (∀ b, Panes.wf b → Panes.wf (f b)) →
    (∀ b, Panes.items (f b) = Panes.items b) →
    ∃ s' (cmd : option Cmd), Ok (on_base f s, None) = Ok (s', cmd) ∧ loaded s').
  { intros f Hwf Hitems. eexists _, _. split; [done|]. by apply on_base_loaded. }
  assert (Hact : ∀ action,
    ∃ s' cmd, act action s = Ok (s', cmd) ∧ loaded s').
  { intros action. destruct (act_loaded action s Hs) as [cmd ->]. by eexists _, _. }
  destruct msg as [key| |stashes| | |]; simpl;
    try (by eexists _, _).
  - destruct (negb _); [by eexists _, _|].
    repeat (case_decide; [first
      [ apply Hact
      | apply Hmove;
        [ first [apply PanesFacts.wf_MoveDown | apply PanesFacts.wf_MoveUp
                | apply PanesFacts.wf_MoveToTop | apply PanesFacts.wf_MoveToBottom]
        | intros b;
          first [ apply (PanesFacts.move_items PanesFacts.Down)
                | apply (PanesFacts.move_items PanesFacts.Up)
                | done
                | unfold Panes.MoveToBottom; case_decide; [|done];
                  by rewrite PanesFacts.adjustScrollOffset_items ] ]
      | eexists _, _; split; [done|];
        apply (on_base_loaded (Panes.SetLoading true)); done ]|]).
    by eexists _, _.
  - eexists _, _. split; [done|]. apply updateFromStashMsg_loaded; eauto.
Qed.

(** X12. The list of a stash pane is never empty and its cursor is always
    on an item: this holds of the pane [NewStashPane] builds, and every
    message handled by [Update] (which then returns, whatever the message),
    every [Refresh] and every [SetActive] keeps it so. *)
Theorem X12_stash_list_never_empty :
  (∀ stashes, len stashes ≤ max_items →
     loaded (NewStashPane (Meta := Meta) stashes)) ∧
  (∀ s msg,
     loaded s →
     (∀ stashes, msg = StashUpdateMsg stashes → len stashes ≤ max_items) →
     ∃ s' cmd, Update msg s = Ok (s', cmd) ∧ loaded s') ∧
  (∀ s v, loaded s →
     loaded (Refresh s).1 ∧ loaded (on_base (Panes.SetActive v) s)) ∧
  (∀ s, loaded s →
     ∃ it, Panes.GetSelectedItem (base s) = Ok (Some it) ∧
           Panes.items (base s) !! Z.to_nat (Panes.selectedIndex (base s))
           = Some it).
Proof.
  split; [exact NewStashPane_loaded|].
  split; [intros s msg; apply Update_loaded|].
  split.
  - intros s v Hs. split.
    + by apply (on_base_loaded (Panes.SetLoading true)).
    + by apply (on_base_loaded (Panes.SetActive v)).
  - intros s [Hb Hne].
    destruct (CursorFacts.GetSelectedItem_wf (base s) Hb Hne) as (it & Hlk & Hget).
    by exists it.
Qed.

(** X13. In a stash pane whose list is loaded, every action the pane
    advertises yields a command, but for [refresh], which [HandleAction]
    has no case for; the keys enter, p, d and v of the active pane name the
    reference of the item under the cursor and leave the pane as it is.
    When there are no stashes that item is the placeholder, whose reference
    is empty: the enter key still reports a stash as applied. *)
Theorem X13_stash_actions :
  (∀ s, loaded s →
     ∃ it,
       Panes.items (base s) !! Z.to_nat (Panes.selectedIndex (base s)) = Some it ∧
       (∀ action, action ∈ GetAvailableActions → action ≠ "refresh" →
          ∃ msg, HandleAction action s = Ok (Some (Send msg))) ∧
       HandleAction "refresh" s = Ok None ∧
       (Panes.IsActive (base s) = true →
        Update (KeyMsg "enter") s
        = Ok (s, Some (Send (ActionCompleteMsg "apply_stash" true
                               ("Applied stash: " +:+ Panes.Value it)))) ∧
        Update (KeyMsg "p") s
        = Ok (s, Some (Send (ActionCompleteMsg "pop_stash" true
                               ("Popped stash: " +:+ Panes.Value it)))) ∧
        Update (KeyMsg "d") s
        = Ok (s, Some (Send (ActionCompleteMsg "drop_stash" true
                               ("Dropped stash: " +:+ Panes.Value it)))) ∧
        Update (KeyMsg "v") s
        = Ok (s, Some (Send (DiffUpdateMsg "Stash contents would be shown here"
                               (Panes.Value it)))))) ∧
  (∀ s, Panes.IsActive (base s) = true →
     Update (KeyMsg "enter") (updateFromStashMsg [] s)
     = Ok (updateFromStashMsg [] s,
           Some (Send (ActionCompleteMsg "apply_stash" true "Applied stash: ")))).
Proof.
  split.
  - intros s [Hb Hne].
    destruct (CursorFacts.GetSelectedItem_wf (base s) Hb Hne) as (it & Hlk & Hget).
    exists it. split; [done|]. split; [|split].
    + intros action Hin Hnr. unfold HandleAction. rewrite Hget. simpl.
      unfold GetAvailableActions in Hin.
      repeat (apply elem_of_cons in Hin as [->|Hin]; [first [done|by eexists]|]).
      by apply elem_of_nil in Hin.
    + unfold HandleAction. by rewrite Hget.
    + intros Hact. simpl. rewrite Hact. simpl. unfold act, HandleAction.
      rewrite Hget. by simpl.
  - intros s Hact. unfold Panes.IsActive in Hact. simpl. rewrite Hact.
    reflexivity.
Qed.

End WithMetadata.

(** *** The properties at a concrete pane *)

Definition two_stashes : StashPane unit :=
  on_base (Panes.SetActive true)
    (NewStashPane ["stash@{0}: WIP on main: 1a2b3c4 fix"; "stash@{1}: On dev: try"]).

Lemma X11_witness :
  slen "12" < max_items ∧ Index "12" "}" < 0 ∧
  stashRefOf 0 "stash@{12}: On main: later" = "stash@{12}" ∧
  stashRefOf 3 "WIP on main" = "stash@{3}".
Proof.
  assert (Hlen : slen "12" < max_items) by (by vm_compute).
  assert (Hn : Index "12" "}" < 0) by (by vm_compute).
  split; [exact Hlen|]. split; [exact Hn|].
  destruct (X11_stashRefOf_reads_the_reference 0) as [Href _].
  destruct (X11_stashRefOf_reads_the_reference 3) as [_ Hfallback].
  split.
  - exact (Href "12" ": On main: later" Hlen Hn).
  - exact (Hfallback "WIP on main" (or_introl eq_refl)).
Defined.

Lemma X12_witness :
  loaded two_stashes ∧
  ∃ s' cmd, Update (KeyMsg "G") two_stashes = Ok (s', cmd) ∧ loaded s'.
Proof.
  destruct (X12_stash_list_never_empty (Meta := unit))
    as (Hnew & Hupd & Hflag & _).
  assert (Hs : loaded two_stashes).
  { apply Hflag, Hnew. by vm_compute. }
  split; [exact Hs|].
  apply (Hupd two_stashes (KeyMsg "G") Hs). intros stashes Hmsg. discriminate Hmsg.
Defined.

Lemma two_stashes_loaded : loaded two_stashes.
Proof.
  apply (on_base_loaded (Panes.SetActive true)); [done|done|].
  apply NewStashPane_loaded. by vm_compute.
Qed.

Lemma X13_witness :
  loaded two_stashes ∧
  Panes.IsActive (base two_stashes) = true ∧
  Update (KeyMsg "enter") two_stashes
  = Ok (two_stashes,
        Some (Send (ActionCompleteMsg "apply_stash" true "Applied stash: stash@{0}"))).
Proof.
  split; [exact two_stashes_loaded|]. split; [reflexivity|].
  destruct (proj1 (X13_stash_actions (Meta := unit)) two_stashes two_stashes_loaded)
    as (it & Hit & _ & _ & Hkeys).
  destruct (Hkeys eq_refl) as (Henter & _).
  rewrite Henter. vm_compute in Hit. by injection Hit as <-.
Defined.

End StashListFacts.

Module StashViewFacts.
Import GoInt GoIntFacts Slice SliceFacts GoStrings GoStringsFacts.
Import GoText GoTextFacts Messages Lipgloss Stash StashFacts StashView StashListFacts.

Section WithRenderer.
Context {Meta : Type} `{!Renderer}.
Implicit Types (s : StashPane Meta) (b : Panes.BasePaneModel Meta).

(** X14. What the stash pane draws.  While loading it draws the loading
    text, whatever its list holds.  Otherwise, in a loaded pane, [View]
    returns: it draws the rows of the visible window between the two scroll
    indicators, each shown exactly when items are hidden on its side, and
    the footer; exactly one row is drawn as the selected one, the row of
    the item under the cursor; and the footer counts the cursor from one,
    within the number of items. *)
Theorem X14_stash_view s :
  (Panes.IsLoading (base s) = true →
   View s = Ok (Render (NewStyle ++ [Foreground "#74B9FF"]) "Loading stashes...")) ∧
  (Panes.IsLoading (base s) = false → loaded s →
   let b := base s in
   let scroll := Panes.scrollOffset b in
   let sel := Panes.selectedIndex b in
   ∃ vis it,
     Panes.GetVisibleItems b = Ok vis ∧
     View s
     = Ok (JoinVertical
             ((if decide (scroll > 0) then ["  ↑ more stashes above"] else []) ++
              imap (λ i item,
                      formatStashItem item (bool_decide (Z.of_nat i = sel - scroll)))
                   vis ++
              (if decide (scroll + Panes.maxDisplayItems b < len (Panes.items b))
               then ["  ↓ more stashes below"] else []) ++
              [""; getFooter s])) ∧
     0 ≤ sel - scroll < len vis ∧
     vis !! Z.to_nat (sel - scroll) = Some it ∧
     Panes.GetSelectedItem b = Ok (Some it) ∧
     getFooter s
     = Render (NewStyle ++ [Foreground "#74B9FF"])
         ("Stashes: " +:+ pretty (sel + 1) +:+ "/" +:+ pretty (len (Panes.items b))) ∧
     1 ≤ sel + 1 ≤ len (Panes.items b)).
Proof.
  split.
  - intros Hld. unfold View. by rewrite Hld.
  - intros Hld [Hb Hne] b scroll sel.
    pose proof (CursorFacts.nonempty_len b Hne) as Hpos.
    destruct (CursorFacts.GetSelectedItem_wf b Hb Hne) as (it & Hlk & Hget).
    pose proof (PanesFacts.GetVisibleItems_wf b Hb) as Hvis.
    destruct Hb as (Hmax & Hlen & Hscroll & Hwin & Hsel).
    fold b scroll sel in Hmax, Hlen, Hscroll, Hwin, Hsel, Hlk.
    rewrite Z.max_r in Hsel by lia.
    set (vis := take (Z.to_nat (Panes.maxDisplayItems b))
                  (drop (Z.to_nat scroll) (Panes.items b))) in *.
    assert (Hvlen : len vis = Z.min (Panes.maxDisplayItems b)
                                (len (Panes.items b) - scroll)).
    { unfold vis, len in *. rewrite length_take, length_drop. lia. }
    exists vis, it. split; [exact Hvis|].
    assert (Hfooter : getFooter s
      = Render (NewStyle ++ [Foreground "#74B9FF"])
          ("Stashes: " +:+ pretty (sel + 1) +:+ "/" +:+ pretty (len (Panes.items b)))).
    { unfold getFooter, Panes.GetSelectedIndex. fold b sel. unfold add.
      by rewrite wrap_small by (unfold min_int, max_int, max_items in *; lia). }
    split; [|split; [lia|split; [|split; [done|split; [done|lia]]]]].
    + unfold View. rewrite Hld. fold b.
      rewrite decide_False by lia. rewrite Hvis. simpl.
      unfold Panes.GetScrollOffset, Panes.GetSelectedIndex. fold scroll sel.
      rewrite decide_True by lia. do 2 f_equal.
      rewrite (imap_ext _ (λ i item,
                 formatStashItem item (bool_decide (Z.of_nat i = sel - scroll)))).
      2:{ intros i x Hi. simpl. f_equal. apply lookup_lt_Some in Hi.
          fold vis in Hi.
          assert (Z.of_nat i < len vis) by (unfold len; lia).
          unfold add.
          rewrite wrap_small by (unfold min_int, max_int, max_items in *; lia).
          apply bool_decide_ext. lia. }
      fold vis. unfold add.
      rewrite wrap_small
        by (rewrite Hvlen; unfold min_int, max_int, max_items in *; lia).
      rewrite Hvlen.
      destruct (decide (scroll > 0)), (decide (scroll + _ < _)),
        (decide (scroll + _ < _)); try lia; simpl; by rewrite <- ?app_assoc.
    + unfold vis. rewrite lookup_take_lt by lia. rewrite lookup_drop.
      rewrite <- Hlk. f_equal. lia.
Qed.

End WithRenderer.

#[local] Existing Instance plain.

Lemma X14_witness :
  Panes.IsLoading (base two_stashes) = false ∧ loaded two_stashes ∧
  ∃ vis it,
    Panes.GetVisibleItems (base two_stashes) = Ok vis ∧
    vis !! 0%nat = Some it ∧
    Panes.Value it = "stash@{0}" ∧
    View two_stashes
    = Ok (JoinVertical
            (imap (λ i item, formatStashItem item (bool_decide (Z.of_nat i = 0)))
               vis ++ [""; "Stashes: 1/2"])).
Proof.
  split; [reflexivity|]. split; [exact two_stashes_loaded|].
  destruct (proj2 (X14_stash_view two_stashes) eq_refl two_stashes_loaded)
    as (vis & it & Hvis & Hview & _ & Hit & Hget & _).
  exists vis, it. split; [exact Hvis|]. split; [exact Hit|]. split.
  - vm_compute in Hget. by injection Hget as <-.
  - exact Hview.
Defined.

End StashViewFacts.

Module LayoutFacts.
Import GoInt GoIntFacts Slice SliceFacts GoStrings GoStringsFacts.
Import GoText GoTextFacts Messages Lipgloss PaneDrawing App AppFacts Layout.

Lemma Repeat_space (n : Z) :
  0 ≤ n →
  ∃ pad, Repeat " " n = Ok pad ∧ slen pad = n.
Proof.
  intros Hn. unfold Repeat. rewrite decide_False by lia.
  eexists. split; [done|].
  unfold slen. rewrite <- (Z2Nat.id n) at 2 by done.
  f_equal. induction (Z.to_nat n) as [|k IH]; [done|].
  simpl. by rewrite length_append, IH.
Qed.

Lemma substr_prefix s (k : Z) :
  0 ≤ k ≤ slen s →
  ∃ cut, substr s 0 k = Ok cut ∧ slen cut = k.
Proof.
  intros Hk. unfold substr. rewrite decide_True by lia.
  eexists. split; [done|]. unfold slen in *. rewrite Z.sub_0_r.
  change (Z.to_nat 0) with 0%nat. rewrite length_substring_0; lia.
Qed.

(** The fields of a model whose diff lines were replaced. *)
Ltac diff_fields :=
  unfold set_diffLines;
  cbn [panes activePane width height quitting diffScrollPos diffLines].

Section Rendering.
Context {Meta P : Type} `{!PaneInterface.Pane P} `{!PaneView Meta P} `{!Renderer}.
Variable isDir : string → bool.
Variable GetFileDiff : string → string.
Implicit Types (m : Model P).

(** The text on the left of the status bar, for a pane name. *)
Definition leftStatusOf (activePane : Z) (name : string) : string :=
  if decide (activePane ≠ 4)
  then "Active: " +:+ name
       +:+ " | 1-5: Switch | Tab: Next | j/k: Scroll diff | q: Quit"
  else "Active: " +:+ name
       +:+ " | 1-5: Switch | Tab: Next | j/k: Navigate | q: Quit".

Lemma leftStatusOf_length a name :
  slen (leftStatusOf a name)
  = slen name + (if decide (a ≠ 4) then 63 else 60).
Proof.
  unfold leftStatusOf. case_decide; rewrite !slen_append;
    unfold slen; simpl; lia.
Qed.

(** The name the status bar shows: the title of the active pane. *)
Definition currentPaneName m : result string :=
  if decide (activePane m < len (panes m))
  then pane ←! index (panes m) (activePane m); Ok (GetTitle pane)
  else Ok "Unknown".

Definition statusBarStyle m : Style :=
  NewStyle ++ [Width (width m); Background "#1A202C"; Foreground "#04B575"].

Lemma renderStatusBar_narrow m :
  min_int + 21 ≤ width m < 21 → renderStatusBar m = Panic.
Proof.
  intros Hw. unfold renderStatusBar.
  destruct (if decide (activePane m < len (panes m)) then _ else _)
    as [name|]; [|done].
  simpl. fold (leftStatusOf (activePane m) name).
  pose proof (leftStatusOf_length (activePane m) name) as Hlen.
  pose proof (slen_nonneg name).
  change (slen "TUI101 v0.1.0") with 13.
  unfold sub. rewrite (wrap_small (width m - 13)) by int_range.
  rewrite (wrap_small (width m - 13 - 5)) by int_range.
  rewrite decide_True by (case_decide; lia).
  rewrite wrap_small by int_range.
  unfold substr. by rewrite decide_False by lia.
Qed.

Lemma renderStatusBar_wide m name :
  21 ≤ width m ≤ max_items →
  currentPaneName m = Ok name →
  slen name ≤ max_items →
  ∃ left pad,
    renderStatusBar m
    = Ok (Render (statusBarStyle m) (left +:+ pad +:+ "TUI101 v0.1.0")) ∧
    slen (left +:+ pad +:+ "TUI101 v0.1.0") = width m ∧
    5 ≤ slen pad ∧
    pad = Nat.iter (Z.to_nat (slen pad)) (String.append " ") "" ∧
    (if decide (slen (leftStatusOf (activePane m) name) ≤ width m - 18)
     then left = leftStatusOf (activePane m) name
     else left
          = String.substring 0 (Z.to_nat (width m - 21))
              (leftStatusOf (activePane m) name) +:+ "...").
Proof.
  intros Hw Hname Hn. unfold renderStatusBar.
  fold (currentPaneName m). rewrite Hname.
  simpl. fold (leftStatusOf (activePane m) name).
  pose proof (leftStatusOf_length (activePane m) name) as Hlen.
  pose proof (slen_nonneg name).
  change (slen "TUI101 v0.1.0") with 13.
  assert (Hbig : max_items = 2 ^ 48) by done.
  unfold sub, add. rewrite (wrap_small (width m - 13)) by int_range.
  rewrite (wrap_small (width m - 13 - 5)) by int_range.
  destruct (decide (slen (leftStatusOf (activePane m) name) > width m - 13 - 5))
    as [Hcut|Hfit].
  + rewrite wrap_small by int_range.
    destruct (substr_prefix (leftStatusOf (activePane m) name) (width m - 13 - 5 - 3))
      as (cut & Hsub & Hcl); [lia|].
    rewrite Hsub. simpl.
    assert (Hleft : slen (cut +:+ "...") = width m - 18).
    { rewrite slen_append, Hcl. change (slen "...") with 3. lia. }
    rewrite Hleft.
    rewrite (wrap_small (width m - 18 + 13)) by int_range.
    rewrite (wrap_small (width m - (width m - 18 + 13))) by int_range.
    rewrite decide_False by lia.
    destruct (Repeat_space (width m - (width m - 18 + 13))) as (pad & Hpad & Hpl);
      [lia|].
    rewrite Hpad. simpl. exists (cut +:+ "..."), pad.
    split; [done|]. split.
    { rewrite !slen_append, Hcl, Hpl. change (slen "...") with 3.
      change (slen "TUI101 v0.1.0") with 13. lia. }
    split; [lia|]. split.
    { unfold Repeat in Hpad. rewrite decide_False in Hpad by lia.
      injection Hpad as <-. by rewrite Hpl. }
    rewrite decide_False by lia.
    unfold substr in Hsub. rewrite decide_True in Hsub by lia.
    injection Hsub as <-. do 2 f_equal. lia.
  + assert (Hused : slen (leftStatusOf (activePane m) name) ≤ width m - 18) by lia.
    simpl.
    rewrite (wrap_small (slen (leftStatusOf (activePane m) name) + 13))
      by (case_decide; int_range).
    rewrite wrap_small by (case_decide; int_range).
    rewrite decide_False by lia.
    destruct (Repeat_space
                (width m - (slen (leftStatusOf (activePane m) name) + 13)))
      as (pad & Hpad & Hpl); [lia|].
    rewrite Hpad. simpl. exists (leftStatusOf (activePane m) name), pad.
    split; [done|]. split.
    { rewrite !slen_append, Hpl. change (slen "TUI101 v0.1.0") with 13. lia. }
    split; [lia|]. split.
    { unfold Repeat in Hpad. rewrite decide_False in Hpad by lia.
      injection Hpad as <-. by rewrite Hpl. }
    by rewrite decide_True by lia.
Qed.

(** X15. The status bar.  On a terminal narrower than 21 columns drawing it
    panics: the text on the left, at least 60 bytes long, is cut to
    [width - 21] bytes, a negative slice bound.  From 21 columns on it is
    drawn as one line of exactly [width] bytes: the text on the left, cut
    and ended by three dots when it would come closer than five columns to
    the version, then at least five spaces, then the version. *)
Theorem X15_status_bar m :
  (min_int + 21 ≤ width m < 21 → renderStatusBar m = Panic) ∧
  (∀ name,
     21 ≤ width m ≤ max_items →
     currentPaneName m = Ok name →
     slen name ≤ max_items →
     ∃ left pad,
       renderStatusBar m
       = Ok (Render (statusBarStyle m) (left +:+ pad +:+ "TUI101 v0.1.0")) ∧
       slen (left +:+ pad +:+ "TUI101 v0.1.0") = width m ∧
       5 ≤ slen pad ∧
       pad = Nat.iter (Z.to_nat (slen pad)) (String.append " ") "" ∧
       (if decide (slen (leftStatusOf (activePane m) name) ≤ width m - 18)
        then left = leftStatusOf (activePane m) name
        else left
             = String.substring 0 (Z.to_nat (width m - 21))
                 (leftStatusOf (activePane m) name) +:+ "...")).
Proof.
  split; [apply renderStatusBar_narrow|].
  intros name. apply renderStatusBar_wide.
Qed.

Lemma diffLines_length m : diffLines m ≠ [] → 0 < len (diffLines m).
Proof.
  intros Hne. pose proof (len_nonneg (diffLines m)).
  destruct (decide (len (diffLines m) = 0)) as [Hz|]; [|lia].
  by apply len_nil_iff in Hz.
Qed.

(** The slice expression of [renderScrollableDiffContent], its bounds
    written without the intermediate assignments. *)
Lemma renderScrollableDiffContent_slice (maxLines : Z) m :
  diffLines m ≠ [] → len (diffLines m) ≤ max_items →
  - 2 ^ 61 ≤ diffScrollPos m ≤ 2 ^ 61 → - 2 ^ 61 ≤ maxLines ≤ 2 ^ 61 →
  let n := len (diffLines m) in
  let pos := diffScrollPos m in
  let start := Z.max 0 (Z.min pos (n - 1)) in
  let end_ := Z.min (pos + maxLines) n in
  renderScrollableDiffContent maxLines m
  = (visibleLines ←! slice (diffLines m) start end_;
     Ok (let result := Join (styledLine <$> visibleLines) nl in
         let result :=
           if decide (pos > 0)
           then "  ↑ more content above" +:+ nl +:+ result else result in
         if decide (end_ < n)
         then result +:+ nl +:+ "  ↓ more content below" else result)).
Proof.
  intros Hne Hlen Hpos Hmax n pos start end_.
  pose proof (diffLines_length m Hne) as Hn. fold n in Hn.
  assert (Hbig : max_items = 2 ^ 48) by done.
  unfold renderScrollableDiffContent. fold n pos.
  rewrite decide_False by lia. cbv zeta.
  unfold add, sub. rewrite !wrap_small by (unfold min_int, max_int; lia).
  assert (Hend : (if decide (pos + maxLines > n) then n else pos + maxLines)
                 = end_) by (unfold end_; case_decide; lia).
  assert (Hstart :
    (let start0 := if decide (pos >= n) then n - 1 else pos in
     if decide (start0 < 0) then 0 else start0) = start)
    by (unfold start; cbv zeta; repeat case_decide; lia).
  cbv zeta in Hstart. by rewrite Hend, Hstart.
Qed.

(** X16. The window of the diff view, for a non-empty diff.  The lines
    drawn are [diffLines[start:end]] with [start] the scroll position, kept
    within [0, len-1], and [end] the scroll position plus the number of
    rows, at most [len]; drawing panics exactly when [end < start].  So it
    never panics for a scroll position and a number of rows that are not
    negative, and it always panics for a negative number of rows when the
    scroll position is that of a line. *)
Theorem X16_diff_window (maxLines : Z) m :
  diffLines m ≠ [] → len (diffLines m) ≤ max_items →
  - 2 ^ 61 ≤ diffScrollPos m ≤ 2 ^ 61 → - 2 ^ 61 ≤ maxLines ≤ 2 ^ 61 →
  let n := len (diffLines m) in
  let pos := diffScrollPos m in
  let start := Z.max 0 (Z.min pos (n - 1)) in
  let end_ := Z.min (pos + maxLines) n in
  (renderScrollableDiffContent maxLines m = Panic ↔ end_ < start) ∧
  (start ≤ end_ →
   renderScrollableDiffContent maxLines m
   = Ok (let result :=
           Join (styledLine <$> take (Z.to_nat (end_ - start))
                                  (drop (Z.to_nat start) (diffLines m))) nl in
         let result :=
           if decide (pos > 0)
           then "  ↑ more content above" +:+ nl +:+ result else result in
         if decide (end_ < n)
         then result +:+ nl +:+ "  ↓ more content below" else result)) ∧
  (0 ≤ pos → 0 ≤ maxLines → start ≤ end_) ∧
  (0 ≤ pos < n → maxLines < 0 → end_ < start).
Proof.
  intros Hne Hlen Hpos Hmax n pos start end_.
  pose proof (diffLines_length m Hne) as Hn. fold n in Hn.
  rewrite (renderScrollableDiffContent_slice maxLines m Hne Hlen Hpos Hmax).
  fold n pos start end_. unfold slice. fold n.
  split; [|split; [|split]].
  - destruct (decide (0 ≤ start ∧ start ≤ end_ ∧ end_ ≤ n)); simpl;
      split; (done || lia).
  - intros Hok. by rewrite decide_True by lia.
  - lia.
  - lia.
Qed.

(** *** The whole screen *)

(** The model after the first steps of [View]: an active index past the
    last pane is reset to 0, and every pane is told whether it is the
    active one. *)
Definition synced m : Model P :=
  let m0 := if decide (activePane m >= len (panes m))
            then set_activePane 0 m else m in
  set_panes
    (imap (λ i pane,
             PaneInterface.SetActive (bool_decide (Z.of_nat i = activePane m0)) pane)
          (panes m0))
    m0.

Lemma synced_fields m :
  width (synced m) = width m ∧ height (synced m) = height m ∧
  quitting (synced m) = quitting m ∧
  diffScrollPos (synced m) = diffScrollPos m ∧
  activePane (synced m)
  = (if decide (activePane m >= len (panes m)) then 0 else activePane m) ∧
  panes (synced m)
  = imap (λ i pane,
            PaneInterface.SetActive
              (bool_decide (Z.of_nat i = activePane (synced m))) pane)
         (panes m).
Proof. unfold synced. by case_decide. Qed.

Lemma View_unfold m :
  quitting m = false → width m ≠ 0 → height m ≠ 0 →
  Layout.View isDir GetFileDiff m
  = (m' ←! updateDiffContent isDir GetFileDiff (synced m);
     screen ←! renderLayout (quo (mul (width m) 2) 3)
                 (sub (width m) (quo (mul (width m) 2) 3))
                 (quo (sub (height m) 1) 4) m';
     Ok (m', screen)).
Proof.
  intros Hq Hw Hh. unfold Layout.View. rewrite Hq.
  by rewrite decide_False by tauto.
Qed.

(** [updateDiffContent] replaces the lines of the diff, and never by no
    line at all. *)
Lemma updateDiffContent_effect m m' :
  updateDiffContent isDir GetFileDiff m = Ok m' →
  ∃ lines, m' = set_diffLines lines m ∧ lines ≠ [] ∧
    (lines = ["Select a file to see diff"] ∨
     ∃ path, lines = Split (getRealGitDiff isDir GetFileDiff path m)
                       (Ascii.ascii_of_nat 10)).
Proof.
  unfold updateDiffContent.
  destruct (getSelectedItemForDiff m) as [sel|]; [|done].
  simpl. case_decide; intros [= <-]; eexists; (split; [done|]).
  - split; [apply Split_nonempty|]. right. by eexists.
  - split; [done|]. by left.
Qed.

Lemma renderLayout_statusBar_panic (lw rw ph : Z) m :
  renderStatusBar m = Panic → renderLayout lw rw ph m = Panic.
Proof.
  intros Hbar. unfold renderLayout. cbv zeta.
  destruct (renderLeftColumn _ _ m); [|done]. simpl.
  destruct (renderRightColumn _ _ m); [|done]. simpl.
  by rewrite Hbar.
Qed.

Lemma renderLayout_diff_panic (lw rw ph : Z) m :
  ¬ (activePane m = 4 ∧ len (panes m) > 4) →
  renderScrollableDiffContent (sub (sub (height m) 1) 4) m = Panic →
  renderLayout lw rw ph m = Panic.
Proof.
  intros Hdiff Hpanic. unfold renderLayout. cbv zeta.
  destruct (renderLeftColumn _ _ m); [|done]. simpl.
  unfold renderRightColumn. rewrite decide_False by done.
  unfold renderDiffPane. by rewrite Hpanic.
Qed.

(** X17. On a small terminal [View] panics.  Narrower than 21 columns, it
    panics whatever the model holds, in the status bar if not before.
    Lower than 5 rows, it panics when the diff is to be drawn (the active
    pane is not the fifth) from its first line: the diff is never empty,
    and its window gets a negative number of rows. *)
Theorem X17_View_panics_on_small_terminal m :
  quitting m = false →
  (0 < width m < 21 ∧ height m ≠ 0) ∨
  (width m ≠ 0 ∧ 0 < height m < 5 ∧ activePane m ≠ 4 ∧ diffScrollPos m = 0 ∧
   ∀ path, slen (GetFileDiff path) < max_items) →
  Layout.View isDir GetFileDiff m = Panic.
Proof.
  intros Hq Hsmall.
  destruct (synced_fields m) as (Hw & Hh & _ & Hpos & Hact & _).
  rewrite View_unfold by (destruct Hsmall; lia || done).
  destruct (updateDiffContent isDir GetFileDiff (synced m)) as [m'|] eqn:Hupd;
    [|done].
  simpl. apply updateDiffContent_effect in Hupd as (lines & -> & Hne & Hlines).
  destruct Hsmall as [[Hwidth _]|(_ & Hheight & Hfifth & Hfirst & Hdiff)].
  - rewrite renderLayout_statusBar_panic; [done|].
    apply renderStatusBar_narrow. diff_fields. rewrite Hw. int_range.
  - rewrite renderLayout_diff_panic; [done| |].
    + diff_fields. rewrite Hact. case_decide; lia.
    + assert (Hlen : len lines ≤ max_items).
      { destruct Hlines as [->|[path ->]]; [by vm_compute|].
        pose proof (Split_length (getRealGitDiff isDir GetFileDiff path (synced m))
                      (Ascii.ascii_of_nat 10)) as Hs.
        assert (slen (getRealGitDiff isDir GetFileDiff path (synced m)) < max_items).
        { unfold getRealGitDiff.
          repeat (destruct (_ || _) || case_decide || destruct (isDir _));
            first [apply Hdiff | by vm_compute]. }
        lia. }
      assert (Hbig : max_items = 2 ^ 48) by done.
      pose proof (diffLines_length (set_diffLines lines (synced m)) Hne) as Hn.
      revert Hn. diff_fields. intros Hn.
      rewrite renderScrollableDiffContent_slice; diff_fields;
        rewrite ?Hh, ?Hpos, ?Hfirst; try done; try lia.
      * unfold sub. no_wrap. unfold slice. by rewrite decide_False by lia.
      * unfold sub. no_wrap. lia.
Qed.

(** Panes that can be drawn, active or not: their [View] and their
    [GetSelectedItem] return, and their title is a string of the size Go
    allows. *)
Definition drawable (ps : list P) : Prop :=
  ∀ pane v, pane ∈ ps →
    (∃ out, PaneDrawing.View (PaneInterface.SetActive v pane) = Ok out) ∧
    (∃ r, PaneDrawing.GetSelectedItem (PaneInterface.SetActive v pane) = Ok r) ∧
    slen (PaneDrawing.GetTitle (PaneInterface.SetActive v pane)) ≤ max_items.

Lemma synced_drawable m pane :
  drawable (panes m) → pane ∈ panes (synced m) →
  (∃ out, PaneDrawing.View pane = Ok out) ∧
  (∃ r, PaneDrawing.GetSelectedItem pane = Ok r) ∧
  slen (PaneDrawing.GetTitle pane) ≤ max_items.
Proof.
  intros Hdraw Hin. destruct (synced_fields m) as (_ & _ & _ & _ & _ & Hpanes).
  rewrite Hpanes in Hin.
  apply elem_of_lookup_imap_1 in Hin as (j & pane0 & -> & Hpane0).
  apply Hdraw. by apply list_elem_of_lookup_2 in Hpane0.
Qed.

Lemma renderLeftPanesFrom_ok (ps : list P) (i w h : Z) m :
  (∀ pane, pane ∈ ps → ∃ out, PaneDrawing.View pane = Ok out) →
  ∃ rendered, renderLeftPanesFrom i ps w h m = Ok rendered.
Proof.
  revert i. induction ps as [|pane ps IH]; intros i Hviews; [by eexists|].
  simpl. case_decide; [|by eexists].
  destruct (Hviews pane) as [out ->]; [by left|]. simpl.
  destruct (IH (add i 1)) as [others ->]; [|by eexists].
  intros q Hq. apply Hviews. by right.
Qed.

Lemma getSelectedItemForDiff_ok m :
  0 ≤ activePane m →
  (∀ pane, pane ∈ panes m → ∃ r, PaneDrawing.GetSelectedItem pane = Ok r) →
  ∃ path, getSelectedItemForDiff m = Ok path.
Proof.
  intros Hact Hsel. unfold getSelectedItemForDiff. case_decide; [by eexists|].
  destruct (index_ok (panes m) (activePane m)) as (pane & Hlk & ->); [lia|].
  simpl. destruct (Hsel pane) as [r ->]; [by apply list_elem_of_lookup_2 in Hlk|].
  simpl. destruct r; by eexists.
Qed.

Lemma currentPaneName_ok m :
  0 ≤ activePane m →
  (∀ pane, pane ∈ panes m → slen (PaneDrawing.GetTitle pane) ≤ max_items) →
  ∃ name, currentPaneName m = Ok name ∧ slen name ≤ max_items.
Proof.
  intros Hact Htitle. unfold currentPaneName. case_decide.
  - destruct (index_ok (panes m) (activePane m)) as (pane & Hlk & ->); [lia|].
    simpl. eexists. split; [done|]. apply Htitle.
    by apply list_elem_of_lookup_2 in Hlk.
  - eexists. split; [done|]. by vm_compute.
Qed.

Lemma renderRightColumn_ok (w h : Z) m :
  (∀ pane, pane ∈ panes m → ∃ out, PaneDrawing.View pane = Ok out) →
  diffLines m ≠ [] → len (diffLines m) ≤ max_items →
  0 ≤ diffScrollPos m ≤ max_items → 4 ≤ h ≤ max_items →
  ∃ out, renderRightColumn w h m = Ok out.
Proof.
  intros Hviews Hne Hlen Hpos Hh. unfold renderRightColumn.
  assert (Hbig : max_items = 2 ^ 48) by done.
  case_decide as Hstash.
  - unfold renderStashPane. rewrite decide_False by lia.
    destruct (index_ok (panes m) 4) as (pane & Hlk & ->); [lia|]. simpl.
    destruct (Hviews pane) as [out ->];
      [by apply list_elem_of_lookup_2 in Hlk|].
    by eexists.
  - unfold renderDiffPane.
    rewrite renderScrollableDiffContent_slice;
      [|done|done|lia|unfold sub; no_wrap; lia].
    pose proof (diffLines_length m Hne).
    unfold sub. no_wrap. unfold slice. rewrite decide_True by lia.
    by eexists.
Qed.

Lemma synced_activePane_range m :
  0 ≤ activePane m → panes m ≠ [] →
  0 ≤ activePane (synced m) < len (panes m).
Proof.
  intros Hact Hne. destruct (synced_fields m) as (_ & _ & _ & _ & -> & _).
  pose proof (len_nonneg (panes m)).
  assert (len (panes m) ≠ 0) by (by rewrite len_nil_iff).
  case_decide; lia.
Qed.

(** X18. On a terminal of at least 21 columns and 5 rows [View] returns,
    for panes that can be drawn, an active index and a scroll position that
    are not negative: it leaves the model with the active index in range,
    with every pane told whether it is the active one, so that exactly one
    pane is active, and with a diff of at least one line. *)
Theorem X18_View_draws_and_marks_one_pane m :
  quitting m = false →
  21 ≤ width m ≤ max_items → 5 ≤ height m ≤ max_items →
  0 ≤ activePane m → 0 ≤ diffScrollPos m ≤ max_items →
  drawable (panes m) →
  (∀ path, slen (GetFileDiff path) < max_items) →
  ∃ lines screen,
    Layout.View isDir GetFileDiff m = Ok (set_diffLines lines (synced m), screen) ∧
    lines ≠ [] ∧
    (panes m ≠ [] →
     0 ≤ activePane (synced m) < len (panes m) ∧
     (PaneInterface.active_flag_kept P →
      active_count (set_diffLines lines (synced m)) = 1%nat ∧
      ∀ (j : nat) pane,
        panes (synced m) !! j = Some pane →
        PaneInterface.IsActive pane
        = bool_decide (Z.of_nat j = activePane (synced m)))).
Proof.
  intros Hq Hw Hh Hact Hpos Hdraw Hdiff.
  destruct (synced_fields m) as (Hsw & Hsh & _ & Hsp & Hsa & Hpanes).
  assert (Hbig : max_items = 2 ^ 48) by done.
  assert (Hact' : 0 ≤ activePane (synced m)) by (rewrite Hsa; case_decide; lia).
  rewrite View_unfold by (done || lia).
  destruct (getSelectedItemForDiff_ok (synced m) Hact') as [path Hpath].
  { intros pane Hin. by apply (synced_drawable m pane Hdraw). }
  destruct (updateDiffContent isDir GetFileDiff (synced m)) as [m'|] eqn:Hupd;
    [|by unfold updateDiffContent in Hupd; rewrite Hpath in Hupd;
         simpl in Hupd; case_decide].
  apply updateDiffContent_effect in Hupd as (lines & -> & Hne & Hlines).
  cbn [rbind].
  assert (Hlen : len lines ≤ max_items).
  { destruct Hlines as [->|[p ->]]; [by vm_compute|].
    pose proof (Split_length (getRealGitDiff isDir GetFileDiff p (synced m))
                  (Ascii.ascii_of_nat 10)) as Hs.
    assert (slen (getRealGitDiff isDir GetFileDiff p (synced m)) < max_items).
    { unfold getRealGitDiff.
      repeat (destruct (_ || _) || case_decide || destruct (isDir _));
        first [apply Hdiff | by vm_compute]. }
    lia. }
  set (m' := set_diffLines lines (synced m)).
  assert (Hviews : ∀ pane, pane ∈ panes m' → ∃ out, PaneDrawing.View pane = Ok out).
  { intros pane Hin. by apply (synced_drawable m pane Hdraw). }
  unfold renderLayout. cbv zeta. unfold renderLeftColumn.
  destruct (renderLeftPanesFrom_ok (panes m') 0 (quo (mul (width m) 2) 3)
              (quo (sub (height m') 1) 4) m' Hviews) as [rendered ->].
  cbn [rbind].
  destruct (renderRightColumn_ok (sub (width m) (quo (mul (width m) 2) 3))
              (sub (height m') 1) m' Hviews) as [right ->].
  { done. }
  { done. }
  { unfold m'. diff_fields. lia. }
  { unfold m'. diff_fields. rewrite Hsh. unfold sub. no_wrap. lia. }
  cbn [rbind].
  destruct (currentPaneName_ok m') as (name & Hname & Hnl).
  { done. }
  { intros pane Hin. by apply (synced_drawable m pane Hdraw). }
  destruct (renderStatusBar_wide m' name) as (left & pad & -> & _).
  { unfold m'. diff_fields. lia. }
  { done. }
  { done. }
  cbn [rbind]. eexists lines, _. split; [done|]. split; [done|].
  intros Hps. split; [by apply synced_activePane_range|].
  intros Hkept.
  pose proof (synced_activePane_range m Hact Hps) as Hrange.
  split.
  - unfold active_count, m'. diff_fields. rewrite Hpanes.
    pose proof (count_flags Hkept (panes m) 0 (activePane (synced m))) as Hcount.
    rewrite decide_True in Hcount by lia. exact Hcount.
  - intros j pane. rewrite Hpanes at 1. rewrite list_lookup_imap.
    destruct (panes m !! j); [|done]. simpl. intros [= <-]. apply Hkept.
Qed.

End Rendering.

(** *** The properties at a concrete router *)

#[local] Existing Instance plain.

(** Five stash panes, the last one holding a stash; no file is a directory
    and every diff is empty. *)
Definition five_panes : list (Stash.StashPane unit) :=
  [Stash.NewStashPane []; Stash.NewStashPane []; Stash.NewStashPane [];
   Stash.NewStashPane [];
   Stash.NewStashPane ["stash@{0}: WIP on main: 1a2b3c4 fix"]].

Definition screen (w h : Z) : Model (Stash.StashPane unit) :=
  set_size w h (NewModel five_panes).

Definition no_dir (path : string) : bool := false.
Definition no_diff (path : string) : string := "".

Lemma X15_witness :
  min_int + 21 ≤ width (screen 20 24) < 21 ∧
  renderStatusBar (screen 20 24) = Panic ∧
  ∃ left pad,
    renderStatusBar (screen 40 24)
    = Ok (left +:+ pad +:+ "TUI101 v0.1.0") ∧
    slen (left +:+ pad +:+ "TUI101 v0.1.0") = 40 ∧
    left = "Active: Stash | 1-5..." ∧ slen pad = 5.
Proof.
  assert (Hnarrow : min_int + 21 ≤ width (screen 20 24) < 21) by (by vm_compute).
  split; [exact Hnarrow|].
  destruct (X15_status_bar (Meta := unit) (screen 20 24)) as [Hpanic _].
  split; [exact (Hpanic Hnarrow)|].
  destruct (X15_status_bar (Meta := unit) (screen 40 24)) as [_ Hwide].
  destruct (Hwide "Stash") as (left & pad & Hbar & Hlen & Hpad & _ & Hleft);
    [by vm_compute|reflexivity|by vm_compute|].
  exists left, pad. split; [exact Hbar|]. split; [exact Hlen|].
  vm_compute in Hleft. rewrite Hleft in Hlen |- *. split; [reflexivity|].
  rewrite !slen_append in Hlen. vm_compute (slen "TUI101 v0.1.0") in Hlen.
  vm_compute (slen "Active: Stash | 1-5...") in Hlen.
  change (width (screen 40 24)) with 40 in Hlen. lia.
Defined.

(** A model whose diff holds three lines, scrolled to the second. *)
Definition three_lines : Model (Stash.StashPane unit) :=
  set_diffScrollPos 1
    (set_diffLines ["@@ -1 +1 @@"; "-old"; "+new"] (screen 80 24)).

Lemma X16_witness :
  diffLines three_lines ≠ [] ∧
  renderScrollableDiffContent (-1) three_lines = Panic ∧
  renderScrollableDiffContent 1 three_lines
  = Ok ("  ↑ more content above" +:+ nl +:+ "-old" +:+ nl
        +:+ "  ↓ more content below").
Proof.
  assert (Hne : diffLines three_lines ≠ []) by discriminate.
  assert (Hlen : len (diffLines three_lines) ≤ max_items) by (by vm_compute).
  assert (Hpos : - 2 ^ 61 ≤ diffScrollPos three_lines ≤ 2 ^ 61) by (by vm_compute).
  split; [exact Hne|]. split.
  - destruct (X16_diff_window (-1) three_lines Hne Hlen Hpos)
      as (Hpanic & _); [by vm_compute|].
    apply Hpanic. by vm_compute.
  - destruct (X16_diff_window 1 three_lines Hne Hlen Hpos)
      as (_ & Hok & _); [by vm_compute|].
    rewrite Hok; [reflexivity|by vm_compute].
Defined.

Lemma X17_witness :
  quitting (screen 20 24) = false ∧
  0 < width (screen 20 24) < 21 ∧
  Layout.View no_dir no_diff (screen 20 24) = Panic ∧
  Layout.View no_dir no_diff (screen 80 4) = Panic.
Proof.
  assert (Hnarrow : 0 < width (screen 20 24) < 21) by (by vm_compute).
  split; [reflexivity|]. split; [exact Hnarrow|]. split.
  - apply (X17_View_panics_on_small_terminal (Meta := unit) no_dir no_diff
             (screen 20 24) eq_refl).
    left. split; [exact Hnarrow|discriminate].
  - apply (X17_View_panics_on_small_terminal (Meta := unit) no_dir no_diff
             (screen 80 4) eq_refl).
    right. split; [discriminate|]. split; [by vm_compute|].
    split; [discriminate|]. split; [reflexivity|]. intros path. by vm_compute.
Defined.

Lemma five_panes_drawable : drawable (Meta := unit) five_panes.
Proof.
  intros pane v Hin. unfold five_panes in Hin.
  repeat (apply elem_of_cons in Hin as [->|Hin];
          [destruct v;
           (split; [eexists; vm_compute; reflexivity
                   |split; [eexists; vm_compute; reflexivity|by vm_compute]])|]).
  by apply elem_of_nil in Hin.
Qed.

Lemma X18_witness :
  ∃ lines out,
    Layout.View no_dir no_diff (screen 80 24)
    = Ok (set_diffLines lines (synced (screen 80 24)), out) ∧
    active_count (set_diffLines lines (synced (screen 80 24))) = 1%nat.
Proof.
  destruct (X18_View_draws_and_marks_one_pane (Meta := unit) no_dir no_diff
              (screen 80 24))
    as (lines & out & Hview & _ & Hone).
  - reflexivity.
  - by vm_compute.
  - by vm_compute.
  - by vm_compute.
  - by vm_compute.
  - exact five_panes_drawable.
  - intros path. by vm_compute.
  - exists lines, out. split; [exact Hview|].
    destruct Hone as [_ Hflags]; [discriminate|].
    exact (proj1 (Hflags StashFacts.StashPane_flag_kept)).
Defined.

End LayoutFacts.

(** ** Scrolling the diff view *)

Module DiffScrollFacts.
Import GoInt GoIntFacts Slice SliceFacts GoText GoTextFacts.
Import Messages Lipgloss PaneDrawing App AppFacts Layout LayoutFacts.

Section Router.
Context {P : Type} `{!PaneInterface.Pane P}.
Implicit Types (m : Model P).

(** The last scroll position [scrollDiffDown] goes to. *)
Definition maxScroll m : Z :=
  Z.max 0 (len (diffLines m) - (height m - 5)).

Lemma set_diffScrollPos_same m : set_diffScrollPos (diffScrollPos m) m = m.
Proof. by destruct m. Qed.

Lemma scrollDiffDown_step m :
  len (diffLines m) ≤ max_items → - max_items ≤ height m ≤ max_items →
  0 ≤ diffScrollPos m ≤ 2 ^ 60 →
  scrollDiffDown m
  = set_diffScrollPos
      (if decide (diffLines m ≠ [] ∧ diffScrollPos m < maxScroll m)
       then diffScrollPos m + 1 else diffScrollPos m) m.
Proof.
  intros Hlen Hh Hpos. assert (Hbig : max_items = 2 ^ 48) by done.
  pose proof (len_nonneg (diffLines m)).
  unfold scrollDiffDown, maxScroll. unfold sub, add. no_wrap.
  destruct (decide (len (diffLines m) > 0)) as [Hn|Hn].
  - assert (Hne : diffLines m ≠ []) by (rewrite <- len_nil_iff; lia).
    destruct (decide (diffLines m ≠ [] ∧ _)) as [[_ Hlt]|Hnot].
    + repeat case_decide; (done || lia).
    + assert (¬ diffScrollPos m < 0 `max` (len (diffLines m) - (height m - 5)))
        by tauto.
      repeat case_decide; try lia; by rewrite set_diffScrollPos_same.
  - assert (diffLines m = []) by (rewrite <- len_nil_iff; lia).
    rewrite decide_False by tauto. by rewrite set_diffScrollPos_same.
Qed.

Lemma scrollDiffUp_step m :
  0 ≤ diffScrollPos m ≤ 2 ^ 60 →
  scrollDiffUp m = set_diffScrollPos (Z.max 0 (diffScrollPos m - 1)) m.
Proof.
  intros Hpos. unfold scrollDiffUp. unfold sub. no_wrap. case_decide.
  - f_equal. lia.
  - rewrite <- (set_diffScrollPos_same m) at 1. f_equal. lia.
Qed.

Lemma iter_scrollDiffDown m (k : nat) :
  len (diffLines m) ≤ max_items → - max_items ≤ height m ≤ max_items →
  0 ≤ diffScrollPos m ≤ max_items →
  Nat.iter k scrollDiffDown m
  = set_diffScrollPos
      (if decide (diffLines m = []) then diffScrollPos m
       else Z.max (diffScrollPos m)
              (Z.min (diffScrollPos m + Z.of_nat k) (maxScroll m))) m.
Proof.
  intros Hlen Hh Hpos. assert (Hbig : max_items = 2 ^ 48) by done.
  pose proof (len_nonneg (diffLines m)) as Hn.
  induction k as [|k IH].
  - simpl. rewrite <- (set_diffScrollPos_same m) at 1. f_equal.
    case_decide; lia.
  - rewrite Nat2Z.inj_succ. simpl. rewrite IH. clear IH.
    set (v := if decide (diffLines m = []) then _ else _).
    assert (Hv : 0 ≤ v ≤ 2 ^ 60).
    { unfold v, maxScroll. case_decide; lia. }
    rewrite scrollDiffDown_step by done.
    change (maxScroll (set_diffScrollPos v m)) with (maxScroll m).
    change (diffLines (set_diffScrollPos v m)) with (diffLines m).
    change (diffScrollPos (set_diffScrollPos v m)) with v.
    unfold set_diffScrollPos at 1. cbn [panes activePane width height quitting
      filterMode filterText diffScrollPos diffLines].
    unfold set_diffScrollPos. f_equal.
    unfold v. destruct (decide (diffLines m = [])) as [Hnil|Hne].
    + by rewrite decide_False by tauto.
    + destruct (decide (diffLines m ≠ [] ∧ _)) as [[_ Hlt]|Hnot]; [lia|].
      assert (¬ Z.max (diffScrollPos m)
                  (Z.min (diffScrollPos m + Z.of_nat k) (maxScroll m))
                < maxScroll m) by tauto.
      lia.
Qed.

Lemma iter_scrollDiffUp m (k : nat) :
  0 ≤ diffScrollPos m ≤ max_items →
  Nat.iter k scrollDiffUp m
  = set_diffScrollPos (Z.max 0 (diffScrollPos m - Z.of_nat k)) m.
Proof.
  intros Hpos. assert (Hbig : max_items = 2 ^ 48) by done.
  induction k as [|k IH].
  - simpl. rewrite <- (set_diffScrollPos_same m) at 1. f_equal. lia.
  - rewrite Nat2Z.inj_succ. simpl. rewrite IH. clear IH.
    rewrite scrollDiffUp_step
      by (change (diffScrollPos (set_diffScrollPos ?v m)) with v; lia).
    unfold set_diffScrollPos. cbn [panes activePane width height quitting
      filterMode filterText diffScrollPos diffLines]. f_equal. lia.
Qed.

(** X19. Scrolling the diff stops at both ends.  [k] calls of
    [scrollDiffDown] raise the scroll position by [k] but not past
    [max(0, len(diffLines) - (height - 5))] (they leave a position already
    past it, and the position of an empty diff, where it is); [k] calls of
    [scrollDiffUp] lower it by [k] but not below 0; nothing else in the
    model changes.  A step down that moved is undone by a step up. *)
Theorem X19_diff_scrolling_stops_at_both_ends m (k : nat) :
  len (diffLines m) ≤ max_items → - max_items ≤ height m ≤ max_items →
  0 ≤ diffScrollPos m ≤ max_items →
  Nat.iter k scrollDiffDown m
  = set_diffScrollPos
      (if decide (diffLines m = []) then diffScrollPos m
       else Z.max (diffScrollPos m)
              (Z.min (diffScrollPos m + Z.of_nat k) (maxScroll m))) m ∧
  Nat.iter k scrollDiffUp m
  = set_diffScrollPos (Z.max 0 (diffScrollPos m - Z.of_nat k)) m ∧
  (diffLines m ≠ [] → diffScrollPos m < maxScroll m →
   scrollDiffUp (scrollDiffDown m) = m).
Proof.
  intros Hlen Hh Hpos. assert (Hbig : max_items = 2 ^ 48) by done.
  split; [by apply iter_scrollDiffDown|]. split; [by apply iter_scrollDiffUp|].
  intros Hne Hlt. rewrite scrollDiffDown_step by (done || lia).
  rewrite decide_True by done.
  rewrite scrollDiffUp_step
    by (change (diffScrollPos (set_diffScrollPos ?v m)) with v; lia).
  transitivity (set_diffScrollPos (diffScrollPos m) m);
    [|apply set_diffScrollPos_same].
  unfold set_diffScrollPos. cbn [panes activePane width height quitting
    filterMode filterText diffScrollPos diffLines]. f_equal. lia.
Qed.

Section Drawing.
Context `{!Renderer}.

(** X20. The scroll indicators of the diff view tell whether the keys still
    scroll.  On a terminal of five rows or more, with a diff of at least
    one line, the diff pane draws at most [height - 5] lines of the diff
    (one, the last, when the scroll position is past the end), with the
    line [more content above] exactly when [scrollDiffUp] would lower the
    scroll position, and the line [more content below] exactly when
    [scrollDiffDown] would raise it. *)
Theorem X20_indicators_tell_whether_keys_scroll m :
  diffLines m ≠ [] → len (diffLines m) ≤ max_items →
  5 ≤ height m ≤ max_items → 0 ≤ diffScrollPos m ≤ max_items →
  ∃ rows,
    renderScrollableDiffContent (sub (sub (height m) 1) 4) m
    = Ok (let result := Join (styledLine <$> rows) nl in
          let result :=
            if decide (diffScrollPos (scrollDiffUp m) < diffScrollPos m)
            then "  ↑ more content above" +:+ nl +:+ result else result in
          if decide (diffScrollPos m < diffScrollPos (scrollDiffDown m))
          then result +:+ nl +:+ "  ↓ more content below" else result) ∧
    sublist rows (diffLines m) ∧
    len rows ≤ Z.max 1 (height m - 5) ∧
    (diffScrollPos m < len (diffLines m) →
     rows = take (Z.to_nat (height m - 5))
              (drop (Z.to_nat (diffScrollPos m)) (diffLines m))).
Proof.
  intros Hne Hlen Hh Hpos. assert (Hbig : max_items = 2 ^ 48) by done.
  pose proof (diffLines_length m Hne) as Hn.
  rewrite renderScrollableDiffContent_slice;
    [|done|done|lia|unfold sub; no_wrap; lia].
  unfold sub. no_wrap.
  replace (height m - 1 - 4) with (height m - 5) by lia.
  set (n := len (diffLines m)) in *. set (pos := diffScrollPos m) in *.
  set (start := Z.max 0 (Z.min pos (n - 1))).
  set (end_ := Z.min (pos + (height m - 5)) n).
  rewrite slice_ok by lia. cbn [rbind].
  exists (take (Z.to_nat (end_ - start)) (drop (Z.to_nat start) (diffLines m))).
  split; [|split; [|split]].
  - rewrite scrollDiffUp_step by (fold pos; lia).
    rewrite scrollDiffDown_step by (fold pos; (done || lia)).
    cbn [set_diffScrollPos diffScrollPos]. fold pos. unfold maxScroll. fold n.
    f_equal. cbv zeta.
    assert (Hup : (pos > 0) ↔ (Z.max 0 (pos - 1) < pos)) by lia.
    assert (Hdown : (end_ < n) ↔
      pos < (if decide (diffLines m ≠ [] ∧ pos < Z.max 0 (n - (height m - 5)))
             then pos + 1 else pos)).
    { unfold end_. destruct (decide (_ ∧ _)) as [[_ Hlt]|Hnot]; [lia|].
      assert (¬ pos < Z.max 0 (n - (height m - 5))) by tauto. lia. }
    destruct (decide (pos > 0)), (decide (Z.max 0 (pos - 1) < pos));
      try tauto;
      destruct (decide (end_ < n)), (decide (pos < _)); tauto || done.
  - etrans; [apply sublist_take|apply sublist_drop].
  - unfold len. rewrite length_take, length_drop. fold (len (diffLines m)).
    fold n. unfold start, end_. lia.
  - intros Hin. unfold start, end_.
    replace (Z.max 0 (Z.min pos (n - 1))) with pos by lia.
    destruct (decide (pos + (height m - 5) ≤ n)).
    + f_equal. lia.
    + rewrite !take_ge; [done|rewrite length_drop; unfold n, len in *; lia..].
Qed.

End Drawing.

End Router.

(** *** The properties at a diff of three lines on a terminal of six rows *)

Definition six_rows : Model (Stash.StashPane unit) := set_size 80 6 three_lines.

Lemma X19_witness :
  len (diffLines six_rows) ≤ max_items ∧
  0 ≤ diffScrollPos six_rows ≤ max_items ∧
  diffScrollPos (Nat.iter 5 scrollDiffDown six_rows) = 2 ∧
  diffScrollPos (Nat.iter 5 scrollDiffUp six_rows) = 0 ∧
  scrollDiffUp (scrollDiffDown six_rows) = six_rows.
Proof.
  assert (Hlen : len (diffLines six_rows) ≤ max_items) by (by vm_compute).
  assert (Hh : - max_items ≤ height six_rows ≤ max_items) by (by vm_compute).
  assert (Hpos : 0 ≤ diffScrollPos six_rows ≤ max_items) by (by vm_compute).
  split; [exact Hlen|]. split; [exact Hpos|].
  destruct (X19_diff_scrolling_stops_at_both_ends six_rows 5 Hlen Hh Hpos)
    as (Hdown & Hup & Hback).
  split; [by rewrite Hdown|]. split; [by rewrite Hup|].
  apply Hback; [discriminate|by vm_compute].
Defined.

#[local] Existing Instance plain.

Lemma X20_witness :
  diffLines six_rows ≠ [] ∧ 5 ≤ height six_rows ≤ max_items ∧
  renderScrollableDiffContent (sub (sub (height six_rows) 1) 4) six_rows
  = Ok ("  ↑ more content above" +:+ nl +:+ "-old" +:+ nl
        +:+ "  ↓ more content below").
Proof.
  assert (Hne : diffLines six_rows ≠ []) by discriminate.
  assert (Hh : 5 ≤ height six_rows ≤ max_items) by (by vm_compute).
  split; [exact Hne|]. split; [exact Hh|].
  destruct (X20_indicators_tell_whether_keys_scroll six_rows Hne)
    as (rows & Hdraw & _ & _ & Hrows); [by vm_compute|exact Hh|by vm_compute|].
  rewrite Hdraw, Hrows by (by vm_compute). reflexivity.
Defined.

End DiffScrollFacts.

(** ** The details pane and the focus *)

Module DetailsFacts.
Import GoInt GoIntFacts Slice SliceFacts Messages AppDetails.

Implicit Types (d : DetailsPane).

Lemma details_same d : mkDetails (selectedLine d) (scrollPos d) (lines d) = d.
Proof. by destruct d. Qed.

Lemma Details_MoveDown_step d :
  len (lines d) ≤ max_items → - 2 ^ 60 ≤ selectedLine d ≤ 2 ^ 60 →
  Details.MoveDown d
  = mkDetails
      (if decide (lines d ≠ [] ∧ selectedLine d < len (lines d) - 1)
       then selectedLine d + 1 else selectedLine d)
      (scrollPos d) (lines d).
Proof.
  intros Hlen Hsel. assert (Hbig : max_items = 2 ^ 48) by done.
  pose proof (len_nonneg (lines d)).
  unfold Details.MoveDown. unfold sub, add. no_wrap.
  destruct (decide (len (lines d) = 0)) as [Hz|Hz].
  - apply len_nil_iff in Hz. rewrite decide_False by tauto.
    by rewrite details_same.
  - assert (Hne : lines d ≠ []) by (by rewrite <- len_nil_iff).
    destruct (decide (selectedLine d < len (lines d) - 1)).
    + by rewrite decide_True.
    + rewrite decide_False by tauto. by rewrite details_same.
Qed.

Lemma Details_MoveUp_step d :
  - 2 ^ 60 ≤ selectedLine d ≤ 2 ^ 60 →
  Details.MoveUp d
  = mkDetails (if decide (selectedLine d > 0) then selectedLine d - 1
               else selectedLine d)
      (scrollPos d) (lines d).
Proof.
  intros Hsel. unfold Details.MoveUp. unfold sub. no_wrap.
  case_decide; [done|]. by rewrite details_same.
Qed.

Lemma iter_Details_MoveDown d (k : nat) :
  len (lines d) ≤ max_items → - max_items ≤ selectedLine d ≤ max_items →
  Nat.iter k Details.MoveDown d
  = mkDetails
      (if decide (lines d = []) then selectedLine d
       else Z.max (selectedLine d)
              (Z.min (selectedLine d + Z.of_nat k) (len (lines d) - 1)))
      (scrollPos d) (lines d).
Proof.
  intros Hlen Hsel. assert (Hbig : max_items = 2 ^ 48) by done.
  induction k as [|k IH].
  - simpl. rewrite <- (details_same d) at 1. f_equal. case_decide; lia.
  - rewrite Nat2Z.inj_succ. simpl. rewrite IH. clear IH.
    set (v := if decide (lines d = []) then _ else _).
    assert (Hv : - 2 ^ 60 ≤ v ≤ 2 ^ 60) by (unfold v; case_decide; lia).
    rewrite Details_MoveDown_step by done.
    cbn [selectedLine scrollPos lines]. f_equal. unfold v.
    destruct (decide (lines d = [])) as [Hnil|Hne].
    + by rewrite decide_False by tauto.
    + destruct (decide (lines d ≠ [] ∧ _)) as [[_ Hlt]|Hnot]; [lia|].
      assert (¬ Z.max (selectedLine d)
                  (Z.min (selectedLine d + Z.of_nat k) (len (lines d) - 1))
                < len (lines d) - 1) by tauto.
      lia.
Qed.

Lemma iter_Details_MoveUp d (k : nat) :
  - max_items ≤ selectedLine d ≤ max_items →
  Nat.iter k Details.MoveUp d
  = mkDetails (Z.min (selectedLine d) (Z.max 0 (selectedLine d - Z.of_nat k)))
      (scrollPos d) (lines d).
Proof.
  intros Hsel. assert (Hbig : max_items = 2 ^ 48) by done.
  induction k as [|k IH].
  - simpl. rewrite <- (details_same d) at 1. f_equal. lia.
  - rewrite Nat2Z.inj_succ. simpl. rewrite IH. clear IH.
    rewrite Details_MoveUp_step by (cbn [selectedLine]; lia).
    cbn [selectedLine scrollPos lines]. f_equal. case_decide; lia.
Qed.

(** Where [AdjustScroll] puts the window: it keeps the cursor and the
    lines, and leaves the cursor inside a window of [max(1, maxLines)]
    rows; a window that holds the cursor already is not moved. *)
Lemma AdjustScroll_window (maxLines : Z) d :
  - 2 ^ 60 ≤ maxLines ≤ 2 ^ 60 →
  - 2 ^ 60 ≤ selectedLine d ≤ 2 ^ 60 → - 2 ^ 60 ≤ scrollPos d ≤ 2 ^ 60 →
  let d' := Details.AdjustScroll maxLines d in
  selectedLine d' = selectedLine d ∧ lines d' = lines d ∧
  scrollPos d' ≤ selectedLine d' < scrollPos d' + Z.max 1 maxLines ∧
  (scrollPos d ≤ selectedLine d < scrollPos d + Z.max 1 maxLines → d' = d).
Proof.
  intros Hmax Hsel Hscroll. unfold Details.AdjustScroll. cbv zeta.
  destruct (decide (maxLines < 1)) as [Hm|Hm]; unfold add, sub; no_wrap;
    (destruct (decide (selectedLine d >= _)) as [Hc|Hc];
       cbn [selectedLine scrollPos lines];
       (destruct (decide (selectedLine d < _)) as [He|He];
          cbn [selectedLine scrollPos lines]));
    (split; [done|]); (split; [done|]); (split; [lia|]);
    intros Hin; (done || lia).
Qed.

(** X21. The cursor of the details pane stops at both ends, where the
    cursor of a pane list wraps: [k] calls of [MoveDown] raise it by [k]
    but not past the last line, [k] calls of [MoveUp] lower it by [k] but
    not below 0, and neither touches the scroll position or the lines.
    [AdjustScroll] then moves the window, and nothing else, so that it
    holds the cursor within its [max(1, maxLines)] rows; a window that
    holds the cursor already stays where it is. *)
Theorem X21_details_cursor_stops_and_stays_visible d (k : nat) (maxLines : Z) :
  len (lines d) ≤ max_items → - max_items ≤ selectedLine d ≤ max_items →
  - max_items ≤ scrollPos d ≤ max_items → - max_items ≤ maxLines ≤ max_items →
  Nat.iter k Details.MoveDown d
  = mkDetails
      (if decide (lines d = []) then selectedLine d
       else Z.max (selectedLine d)
              (Z.min (selectedLine d + Z.of_nat k) (len (lines d) - 1)))
      (scrollPos d) (lines d) ∧
  Nat.iter k Details.MoveUp d
  = mkDetails (Z.min (selectedLine d) (Z.max 0 (selectedLine d - Z.of_nat k)))
      (scrollPos d) (lines d) ∧
  (let d' := Details.AdjustScroll maxLines d in
   selectedLine d' = selectedLine d ∧ lines d' = lines d ∧
   scrollPos d' ≤ selectedLine d' < scrollPos d' + Z.max 1 maxLines ∧
   (scrollPos d ≤ selectedLine d < scrollPos d + Z.max 1 maxLines → d' = d)).
Proof.
  intros Hlen Hsel Hscroll Hmax. assert (Hbig : max_items = 2 ^ 48) by done.
  split; [by apply iter_Details_MoveDown|].
  split; [by apply iter_Details_MoveUp|].
  apply AdjustScroll_window; lia.
Qed.

Section Router.
Context {P : Type} `{!PaneInterface.Pane P}.
Variable Batch : list Cmd → option Cmd.
Implicit Types (m : Model P).

Lemma refreshAll_fields m :
  activePane (refreshAll Batch m).1 = activePane m ∧
  focus (refreshAll Batch m).1 = focus m ∧
  details (refreshAll Batch m).1 = details m ∧
  width (refreshAll Batch m).1 = width m ∧
  height (refreshAll Batch m).1 = height m.
Proof. unfold refreshAll. by destruct (foldl _ _ _). Qed.

(** The keys that move the cursor of the details. *)
Definition cursor_keys : list string := ["j"; "down"; "k"; "up"; "g"; "G"].

(** What a key may change while the focus is on the details: [m1] is the
    model after the key. *)
Definition details_frame (key : string) m m1 : Prop :=
  focus m1 = FocusDetails ∧
  activePane m1 = activePane m ∧
  width m1 = width m ∧ height m1 = height m ∧
  lines (details m1) = lines (details m) ∧
  (key ≠ "ctrl+r" → panes m1 = panes m) ∧
  (key ∉ cursor_keys → details m1 = details m) ∧
  (key ∈ cursor_keys →
   scrollPos (details m1) ≤ selectedLine (details m1)
     < scrollPos (details m1) + Z.max 1 (height m - 5)).

Lemma frame_same key m :
  focus m = FocusDetails → key ∉ cursor_keys → details_frame key m m.
Proof. intros Hfocus Hkey. by repeat (split; [done|]). Qed.

Lemma frame_adjusted key m d0 :
  focus m = FocusDetails →
  - max_items ≤ height m ≤ max_items →
  - 2 ^ 50 ≤ selectedLine d0 ≤ 2 ^ 50 → - 2 ^ 50 ≤ scrollPos d0 ≤ 2 ^ 50 →
  lines d0 = lines (details m) →
  key ∈ cursor_keys →
  details_frame key m
    (set_details (Details.AdjustScroll (sub (height m) 5) d0) m).
Proof.
  intros Hfocus Hh Hs0 Hp0 Hl0 Hkey. assert (Hbig : max_items = 2 ^ 48) by done.
  assert (Hsub : sub (height m) 5 = height m - 5) by (unfold sub; by no_wrap).
  rewrite Hsub.
  destruct (AdjustScroll_window (height m - 5) d0)
    as (Hsame & Hlines & Hwin & _); [lia|lia|lia|].
  unfold details_frame.
  cbn [set_details focus activePane width height panes details].
  split; [done|]. split; [done|]. split; [done|]. split; [done|].
  split; [congruence|]. split; [done|]. split; [done|]. done.
Qed.

Ltac other_key Hin :=
  unfold cursor_keys in Hin;
  repeat (apply elem_of_cons in Hin as [Hin|Hin]; [discriminate Hin|]);
  by apply elem_of_nil in Hin.

(** What the global handler does with a key while the focus is on the
    details. *)
Lemma handleKeyMsg_details key m :
  focus m = FocusDetails →
  - max_items ≤ height m ≤ max_items →
  - max_items ≤ selectedLine (details m) ≤ max_items →
  - max_items ≤ scrollPos (details m) ≤ max_items →
  len (lines (details m)) ≤ max_items →
  ∃ m1 cmd, handleKeyMsg Batch key m = Ok (m1, cmd) ∧ details_frame key m m1.
Proof.
  intros Hfocus Hh Hsel Hscroll Hlen. assert (Hbig : max_items = 2 ^ 48) by done.
  pose proof (len_nonneg (lines (details m))) as Hn.
  assert (Hnav : ∀ navFunc,
    handlePaneNavigation Batch navFunc m = Ok (m, Batch [])).
  { intros navFunc. unfold handlePaneNavigation.
    by rewrite decide_False by (rewrite Hfocus; discriminate). }
  unfold handleKeyMsg.
  destruct (decide (key = "q" ∨ key = "ctrl+c")) as [Hk|_].
  { eexists _, _. split; [done|].
    unfold details_frame. cbn [set_quitting focus activePane width height panes details].
    repeat (split; [done|]). intros Hin. destruct Hk as [-> | ->]; other_key Hin. }
  repeat (destruct (decide (key = _)) as [->|_];
          [first
             [ rewrite Hnav; eexists _, _; (split; [done|]);
               apply frame_same; [done|intros Hin; other_key Hin]
             | eexists _, _; (split; [done|]);
               apply frame_same; [done|intros Hin; other_key Hin] ]|]).
  destruct (decide (key = "ctrl+r")) as [->|_].
  { destruct (refreshAll_fields m) as (Ha & Hf & Hd & Hw & Hhe).
    exists (refreshAll Batch m).1, (refreshAll Batch m).2.
    split; [by destruct (refreshAll Batch m)|].
    unfold details_frame. rewrite Ha, Hf, Hd, Hw, Hhe.
    repeat (split; [done|]). intros Hin. other_key Hin. }
  destruct (decide (key = "?")) as [->|_].
  { eexists _, _. split; [done|]. apply frame_same; [done|].
    intros Hin. other_key Hin. }
  destruct (decide (key = "j" ∨ key = "down")) as [Hj|Hnj].
  { unfold handleVerticalNavigation. rewrite decide_True by done.
    eexists _, _. split; [done|].
    apply frame_adjusted; try done.
    - rewrite Details_MoveDown_step by lia. cbn [selectedLine]. case_decide; lia.
    - rewrite Details_MoveDown_step by lia. cbn [scrollPos]. lia.
    - by rewrite Details_MoveDown_step by lia.
    - destruct Hj as [-> | ->]; by apply (bool_decide_unpack _). }
  destruct (decide (key = "k" ∨ key = "up")) as [Hk|Hnk].
  { unfold handleVerticalNavigation. rewrite decide_True by done.
    eexists _, _. split; [done|].
    apply frame_adjusted; try done.
    - rewrite Details_MoveUp_step by lia. cbn [selectedLine]. case_decide; lia.
    - rewrite Details_MoveUp_step by lia. cbn [scrollPos]. lia.
    - by rewrite Details_MoveUp_step by lia.
    - destruct Hk as [-> | ->]; by apply (bool_decide_unpack _). }
  destruct (decide (key = "g")) as [Hg|Hng].
  { unfold handleJumpToTop. rewrite decide_True by done.
    eexists _, _. split; [done|]. unfold details_frame.
    cbn [set_details Details.MoveToTop focus activePane width height
           panes details selectedLine scrollPos lines].
    repeat (split; [done|]). split.
    - intros Hnot. destruct Hnot. subst key. by apply (bool_decide_unpack _).
    - intros _. lia. }
  destruct (decide (key = "G")) as [HG|HnG].
  { unfold handleJumpToBottom. rewrite decide_True by done.
    eexists _, _. split; [done|].
    apply frame_adjusted; try done.
    - unfold Details.MoveToBottom, sub. no_wrap. case_decide;
        cbn [selectedLine]; lia.
    - unfold Details.MoveToBottom. case_decide; cbn [scrollPos]; lia.
    - unfold Details.MoveToBottom. by case_decide.
    - subst key. by apply (bool_decide_unpack _). }
  eexists _, _. split; [done|]. apply frame_same; [done|].
  unfold cursor_keys. intros Hin.
  repeat (apply elem_of_cons in Hin as [Hin|Hin]; [tauto|]).
  by apply elem_of_nil in Hin.
Qed.

(** X22. While the focus is on the details no key reaches the panes.  For
    every key the update returns (it never panics, even with no pane at
    all); the space key gives the focus back to the panes and changes
    nothing else; any other key leaves the focus on the details and leaves
    the active index, the size and the lines of the details as they are;
    it leaves the panes as they are unless it is ctrl+r, and the details as
    they are unless it is one of j, down, k, up, g and G, after which the
    cursor of the details is inside their window of [max(1, height - 5)]
    rows. *)
Theorem X22_details_focus_keeps_keys_from_panes key m :
  focus m = FocusDetails →
  - max_items ≤ height m ≤ max_items →
  - max_items ≤ selectedLine (details m) ≤ max_items →
  - max_items ≤ scrollPos (details m) ≤ max_items →
  len (lines (details m)) ≤ max_items →
  ∃ m1 cmd,
    Update Batch (KeyMsg key) m = Ok (m1, cmd) ∧
    (key = " " → m1 = set_focus FocusLeftPanes m ∧ cmd = None) ∧
    (key ≠ " " →
     focus m1 = FocusDetails ∧
     activePane m1 = activePane m ∧
     width m1 = width m ∧ height m1 = height m ∧
     lines (details m1) = lines (details m) ∧
     (key ≠ "ctrl+r" → panes m1 = panes m) ∧
     (key ∉ cursor_keys → details m1 = details m) ∧
     (key ∈ cursor_keys →
      scrollPos (details m1) ≤ selectedLine (details m1)
        < scrollPos (details m1) + Z.max 1 (height m - 5))).
Proof.
  intros Hfocus Hh Hsel Hscroll Hlen. unfold Update.
  destruct (decide (key = " ")) as [->|Hkey].
  - eexists _, _. split; [done|]. split; [|done]. intros _.
    unfold toggleFocus. by rewrite decide_False by (rewrite Hfocus; discriminate).
  - destruct (handleKeyMsg_details key m Hfocus Hh Hsel Hscroll Hlen)
      as (m1 & cmd & -> & Hframe).
    cbn [rbind fst snd]. exists m1, cmd. split.
    + destruct cmd; [done|].
      by rewrite decide_True by apply Hframe.
    + split; [done|]. intros _. exact Hframe.
Qed.


End Router.

(** *** The properties at concrete details *)

Definition four_lines : DetailsPane := mkDetails 2 0 ["a"; "b"; "c"; "d"].

Lemma X21_witness :
  len (lines four_lines) ≤ max_items ∧
  - max_items ≤ selectedLine four_lines ≤ max_items ∧
  - max_items ≤ scrollPos four_lines ≤ max_items ∧
  selectedLine (Nat.iter 5 Details.MoveDown four_lines) = 3 ∧
  selectedLine (Nat.iter 5 Details.MoveUp four_lines) = 0 ∧
  scrollPos (Details.AdjustScroll 2 four_lines) ≤ 2
    < scrollPos (Details.AdjustScroll 2 four_lines) + 2.
Proof.
  assert (Hlen : len (lines four_lines) ≤ max_items) by (by vm_compute).
  assert (Hsel : - max_items ≤ selectedLine four_lines ≤ max_items)
    by (by vm_compute).
  assert (Hscroll : - max_items ≤ scrollPos four_lines ≤ max_items)
    by (by vm_compute).
  split; [exact Hlen|]. split; [exact Hsel|]. split; [exact Hscroll|].
  destruct (X21_details_cursor_stops_and_stays_visible four_lines 5 2
              Hlen Hsel Hscroll)
    as (Hdown & Hup & Hadj); [by vm_compute|].
  split; [by rewrite Hdown|]. split; [by rewrite Hup|].
  destruct Hadj as (Hsame & _ & Hwin & _).
  rewrite Hsame in Hwin. exact Hwin.
Defined.

(** Four recording panes, the focus on the details, on 80 by 24. *)
Definition details_router : Model KeyRouting.Probe :=
  toggleFocus (set_size 80 24 KeyRouting.probe_router).

Lemma X22_witness :
  focus details_router = FocusDetails ∧
  ∃ m1 cmd,
    Update teaBatch (KeyMsg "x") details_router = Ok (m1, cmd) ∧
    focus m1 = FocusDetails ∧ panes m1 = [[]; []; []; []].
Proof.
  split; [reflexivity|].
  destruct (X22_details_focus_keeps_keys_from_panes teaBatch "x" details_router)
    as (m1 & cmd & Hupd & _ & Hframe);
    [reflexivity|by vm_compute|by vm_compute|by vm_compute|by vm_compute|].
  exists m1, cmd. split; [exact Hupd|].
  destruct (Hframe ltac:(discriminate)) as (Hfocus & _ & _ & _ & _ & Hpanes & _).
  split; [exact Hfocus|]. exact (Hpanes ltac:(discriminate)).
Defined.

End DetailsFacts.

(** ** Properties of the reading of git's output *)

Module GitFacts.
Import Stdlib.Strings.Ascii.
Import GoInt GoIntFacts Slice SliceFacts GoStrings GoStringsFacts.
Import GoText GoTextFacts Git.

(** The byte [c] occurs in [s]. *)
Fixpoint hasByte (c : ascii) (s : string) : bool :=
  match s with
  | EmptyString => false
  | String a s' => bool_decide (a = c) || hasByte c s'
  end.

Lemma hasByte_append c s1 s2 :
  hasByte c (s1 +:+ s2) = hasByte c s1 || hasByte c s2.
Proof.
  induction s1 as [|a s1 IH]; [done|].
  rewrite append_cons. simpl. by rewrite IH, orb_assoc.
Qed.

Lemma hasByte_substring c (n : nat) s :
  hasByte c s = false → hasByte c (String.substring 0 n s) = false.
Proof.
  revert s. induction n as [|n IH]; intros s Hs.
  - by rewrite substring_0_0.
  - destruct s as [|a s]; [done|]. simpl in *.
    apply orb_false_iff in Hs as [-> Hs]. simpl. by apply IH.
Qed.

Lemma Join_cons x y (rest : list string) sep :
  Join (x :: y :: rest) sep = x +:+ sep +:+ Join (y :: rest) sep.
Proof. reflexivity. Qed.

(** Joining the pieces with the separator gives the string back. *)
Lemma Join_Split s c : Join (Split s c) (String c "") = s.
Proof.
  induction s as [|a s IH]; [done|]. simpl.
  pose proof (Split_nonempty s c) as Hne.
  destruct (Split s c) as [|piece pieces]; [done|].
  case_decide as Hac.
  - subst a. rewrite Join_cons, IH. done.
  - destruct pieces as [|p ps].
    + simpl in *. by rewrite IH.
    + rewrite Join_cons in *. rewrite append_cons. by rewrite IH.
Qed.

(** No piece holds the separator. *)
Lemma Split_free s c : Forall (λ l, hasByte c l = false) (Split s c).
Proof.
  induction s as [|a s IH]; simpl; [by repeat constructor|].
  pose proof (Split_nonempty s c) as Hne.
  destruct (Split s c) as [|piece pieces]; [done|].
  case_decide as Hac.
  - by constructor.
  - apply Forall_cons in IH as [Hp Hps]. constructor; [|done].
    simpl. rewrite Hp. by rewrite bool_decide_eq_false_2.
Qed.

Lemma Split_free_one l c : hasByte c l = false → Split l c = [l].
Proof.
  induction l as [|a l IH]; [done|]. simpl.
  intros Hl. apply orb_false_iff in Hl as [Ha Hl].
  apply bool_decide_eq_false in Ha. rewrite decide_False by done.
  by rewrite IH.
Qed.

Lemma Split_free_append l c rest :
  hasByte c l = false →
  Split (l +:+ String c rest) c = l :: Split rest c.
Proof.
  induction l as [|a l IH]; intros Hl.
  - rewrite append_nil_l. simpl. by rewrite decide_True.
  - rewrite append_cons. simpl in *.
    apply orb_false_iff in Hl as [Ha Hl].
    apply bool_decide_eq_false in Ha. rewrite decide_False by done.
    by rewrite IH.
Qed.

(** Splitting the join of pieces free of the separator gives the pieces
    back. *)
Lemma Split_Join (ls : list string) c :
  ls ≠ [] → Forall (λ l, hasByte c l = false) ls →
  Split (Join ls (String c "")) c = ls.
Proof.
  induction ls as [|l ls IH]; [done|]. intros _ Hfree.
  apply Forall_cons in Hfree as [Hl Hls].
  destruct ls as [|l' ls].
  - simpl. by apply Split_free_one.
  - rewrite Join_cons.
    change (String c "" +:+ Join (l' :: ls) (String c ""))
      with (String c (Join (l' :: ls) (String c ""))).
    rewrite Split_free_append by done. by rewrite IH.
Qed.

(** *** [truncateDiffOutput] *)

Definition lf : ascii := ascii_of_nat 10.

Definition notice : string := "... (diff truncated, showing first 200 lines)".

Lemma truncateLine_short line : slen line ≤ 500 → truncateLine line = line.
Proof. intros Hl. unfold truncateLine. by rewrite decide_False by lia. Qed.

Lemma truncateLine_long line :
  slen line > 500 →
  truncateLine line = String.substring 0 500 line +:+ "... (line truncated)" ∧
  slen (truncateLine line) = 520.
Proof.
  intros Hl. unfold truncateLine. rewrite decide_True by done.
  split; [done|]. rewrite slen_append. unfold slen in *.
  rewrite length_substring_0 by lia. reflexivity.
Qed.

Lemma truncateLine_length line : slen (truncateLine line) ≤ 520.
Proof.
  destruct (decide (slen line > 500)) as [Hl|Hl].
  - destruct (truncateLine_long line Hl) as [_ ->]. lia.
  - rewrite truncateLine_short; lia.
Qed.

Lemma truncateLine_free line :
  hasByte lf line = false → hasByte lf (truncateLine line) = false.
Proof.
  intros Hl. unfold truncateLine. case_decide; [|done].
  rewrite hasByte_append, hasByte_substring by done. reflexivity.
Qed.

Lemma truncateLine_idemp line :
  truncateLine (truncateLine line) = truncateLine line.
Proof.
  destruct (decide (slen line > 500)) as [Hl|Hl].
  - destruct (truncateLine_long line Hl) as [Hcut Hlen].
    destruct (truncateLine_long (truncateLine line)) as [-> _]; [lia|].
    rewrite Hcut at 1. f_equal.
    assert (Hl500 : String.length (String.substring 0 500 line) = 500%nat).
    { apply length_substring_0. unfold slen in Hl. lia. }
    rewrite <- Hl500 at 1. by rewrite substring_append_prefix.
  - rewrite (truncateLine_short line) by lia.
    by rewrite truncateLine_short by lia.
Qed.

(** The lines [truncateDiffOutput] joins. *)
Definition truncatedLines (output : string) : list string :=
  truncateLine <$>
    (if decide (len (Split output lf) > 200)
     then take 200 (Split output lf) ++ [notice]
     else Split output lf).

Lemma truncateDiffOutput_lines output :
  truncateDiffOutput output = Join (truncatedLines output) (String lf "") ∧
  Split (truncateDiffOutput output) lf = truncatedLines output ∧
  truncatedLines output ≠ [].
Proof.
  assert (Hne : truncatedLines output ≠ []).
  { unfold truncatedLines. pose proof (Split_nonempty output lf) as Hne.
    case_decide; [by destruct (take 200 (Split output lf))|].
    by destruct (Split output lf). }
  split; [done|]. split; [|done].
  change (truncateDiffOutput output)
    with (Join (truncatedLines output) (String lf "")).
  apply Split_Join; [done|].
  unfold truncatedLines. apply Forall_fmap.
  pose proof (Split_free output lf) as Hfree.
  eapply Forall_impl; [|intros l; apply truncateLine_free].
  case_decide; [|done]. apply Forall_app. split; [by apply Forall_take|].
  by repeat constructor.
Qed.

(** X23. [truncateDiffOutput] returns at most 201 lines of at most 520
    bytes each: the first 200 lines of the output, then the notice that the
    diff was truncated if there were more, each line longer than 500 bytes
    cut to its first 500 bytes and the notice that the line was truncated.
    An output of at most 200 lines of at most 500 bytes each is returned as
    it is; and truncating a second time changes nothing. *)
Theorem X23_truncateDiffOutput_bounds_the_diff output :
  let lines := Split output lf in
  let shown := Split (truncateDiffOutput output) lf in
  len shown = Z.min (len lines) 201 ∧
  Forall (λ line, slen line ≤ 520) shown ∧
  (∀ (i : nat) line, (i < 200)%nat → lines !! i = Some line →
     shown !! i = Some (truncateLine line)) ∧
  (len lines > 200 → shown !! 200%nat = Some notice) ∧
  (len lines ≤ 200 → Forall (λ line, slen line ≤ 500) lines →
   truncateDiffOutput output = output) ∧
  truncateDiffOutput (truncateDiffOutput output) = truncateDiffOutput output.
Proof.
  intros lines shown.
  destruct (truncateDiffOutput_lines output) as (Hjoin & Hsplit & Hne).
  unfold shown. rewrite Hsplit. fold lines in Hne |- *.
  assert (Hnotice : truncateLine notice = notice) by done.
  pose proof (len_nonneg lines) as Hn.
  split; [|split; [|split; [|split; [|split]]]].
  - unfold truncatedLines. fold lines. unfold len in *. rewrite length_fmap.
    case_decide; [|lia]. rewrite length_app, length_take.
    change (length [notice]) with 1%nat. lia.
  - unfold truncatedLines. apply Forall_fmap, Forall_true.
    intros l. apply truncateLine_length.
  - intros i line Hi Hline. unfold truncatedLines. fold lines.
    rewrite list_lookup_fmap. case_decide.
    + rewrite lookup_app_l by (rewrite length_take; unfold len in *; lia).
      rewrite lookup_take_lt by done. by rewrite Hline.
    + by rewrite Hline.
  - intros Hlong. unfold truncatedLines. fold lines.
    rewrite decide_True by done. rewrite list_lookup_fmap.
    rewrite lookup_app_r by (rewrite length_take; unfold len in *; lia).
    rewrite length_take.
    replace (200 - 200 `min` length lines)%nat with 0%nat
      by (unfold len in *; lia).
    done.
  - intros Hshort Hall. rewrite Hjoin. unfold truncatedLines. fold lines.
    rewrite decide_False by lia.
    rewrite (list_fmap_ext truncateLine id lines).
    + rewrite list_fmap_id. apply Join_Split.
    + intros i l Hl. apply truncateLine_short.
      by apply (Forall_lookup_1 _ _ _ _ Hall Hl).
  - rewrite Hjoin at 2. rewrite Hjoin at 1.
    change (truncateDiffOutput (Join (truncatedLines output) (String lf "")))
      with (Join (truncatedLines (Join (truncatedLines output) (String lf "")))
              (String lf "")).
    f_equal. unfold truncatedLines at 1.
    rewrite <- Hjoin. rewrite Hsplit. unfold truncatedLines. fold lines.
    destruct (decide (len lines > 200)) as [Hlong|Hshort].
    + rewrite fmap_app. simpl. rewrite Hnotice.
      assert (Hl : length (truncateLine <$> take 200 lines) = 200%nat).
      { rewrite length_fmap, length_take. unfold len in *. lia. }
      rewrite decide_True
        by (unfold len; rewrite length_app, Hl;
            change (length [notice]) with 1%nat; lia).
      rewrite take_app_length' by done.
      rewrite fmap_app. simpl. rewrite Hnotice. f_equal.
      rewrite <- list_fmap_compose. apply list_fmap_ext.
      intros i l _. apply truncateLine_idemp.
    + rewrite decide_False
        by (unfold len in *; rewrite length_fmap; lia).
      rewrite <- list_fmap_compose. apply list_fmap_ext.
      intros i l _. apply truncateLine_idemp.
Qed.

(** *** [GetFileStatus] and [GetStashes] *)

(** [TrimSpace] takes white space characters off both ends until none is
    left there: [trimLeft] drops a white space character at the start and
    leaves a string that starts with none as it is, and [trimRight] does
    the same at the end.  Every string is a run of white space characters,
    a middle that has none at its ends, and a run of white space
    characters, so the four lemmas say what [TrimSpace] returns. *)
Lemma isSpaceRune_bytes u :
  isSpaceRune u = true →
  (∃ c, u = String c "" ∧ asciiSpace c = true) ∨
  (∃ c d, u = String c (String d "") ∧ isSpace2 c d = true) ∨
  (∃ c d e, u = String c (String d (String e "")) ∧ isSpace3 c d e = true).
Proof.
  destruct u as [|c [|d [|e [|f u]]]]; simpl; try done; intros Hu.
  - left. by exists c.
  - right; left. by exists c, d.
  - right; right. by exists c, d, e.
Qed.

Lemma trimLeft_space u s :
  isSpaceRune u = true → trimLeft (u +:+ s) = trimLeft s.
Proof.
  intros Hu.
  destruct (isSpaceRune_bytes u Hu)
    as [(c & -> & Hc)|[(c & d & -> & Hcd)|(c & d & e & -> & Hcde)]].
  - rewrite append_cons, append_nil_l. cbn [trimLeft]. by rewrite Hc.
  - rewrite !append_cons, append_nil_l. cbn [trimLeft]. rewrite Hcd.
    assert (asciiSpace c = false) as ->; [|done].
    apply bool_decide_eq_true in Hcd. apply bool_decide_eq_false. lia.
  - rewrite !append_cons, append_nil_l. cbn [trimLeft]. rewrite Hcde.
    apply bool_decide_eq_true in Hcde.
    assert (asciiSpace c = false) as ->
      by (apply bool_decide_eq_false; lia).
    assert (isSpace2 c d = false) as ->
      by (apply bool_decide_eq_false; lia).
    done.
Qed.

Lemma trimLeft_fixed s :
  (∀ u s1, s = u +:+ s1 → isSpaceRune u = false) → trimLeft s = s.
Proof.
  intros Hs. destruct s as [|c s]; [done|]. cbn [trimLeft].
  rewrite (Hs (String c "") s eq_refl : asciiSpace c = false).
  destruct s as [|d s]; [done|].
  rewrite (Hs (String c (String d "")) s eq_refl : isSpace2 c d = false).
  destruct s as [|e s]; [done|].
  by rewrite (Hs (String c (String d (String e ""))) s eq_refl
              : isSpace3 c d e = false).
Qed.

Lemma trimRight_space s u :
  isSpaceRune u = true → trimRight (s +:+ u) = trimRight s.
Proof.
  intros Hu. induction s as [|a s IH].
  - rewrite append_nil_l.
    destruct (isSpaceRune_bytes u Hu)
      as [(c & -> & Hc)|[(c & d & -> & Hcd)|(c & d & e & -> & Hcde)]].
    + cbn [trimRight isSpaceRune]. by rewrite Hc.
    + cbn [trimRight isSpaceRune].
      assert (asciiSpace d = false) as ->.
      { apply bool_decide_eq_true in Hcd. apply bool_decide_eq_false. lia. }
      cbn [isSpaceRune]. by rewrite Hcd.
    + cbn [trimRight isSpaceRune].
      pose proof Hcde as Hn. apply bool_decide_eq_true in Hn.
      assert (asciiSpace e = false) as ->
        by (apply bool_decide_eq_false; lia).
      cbn [isSpaceRune].
      assert (isSpace2 d e = false) as ->
        by (apply bool_decide_eq_false; lia).
      cbn [isSpaceRune]. by rewrite Hcde.
  - rewrite append_cons. cbn [trimRight]. by rewrite IH.
Qed.

Lemma trimRight_fixed s :
  (∀ s1 u, s = s1 +:+ u → isSpaceRune u = false) → trimRight s = s.
Proof.
  induction s as [|a s IH]; [done|]. intros Hs. cbn [trimRight].
  rewrite IH.
  - by rewrite (Hs "" (String a s) eq_refl).
  - intros s1 u ->. apply (Hs (String a s1) u). by rewrite append_cons.
Qed.

(** *** What [TrimSpace] returns

    A run of white space characters, then a middle that neither starts nor
    ends with one, then a run of white space characters: [TrimSpace]
    returns the middle. *)
Definition spaces (ws : list string) : Prop :=
  Forall (λ u, isSpaceRune u = true) ws.

Definition run (ws : list string) : string := foldr String.append "" ws.

Definition bare (t : string) : Prop :=
  (∀ u s, t = u +:+ s → isSpaceRune u = false) ∧
  (∀ s u, t = s +:+ u → isSpaceRune u = false).

(** The first byte of a white space character: a blank of ASCII, or one of
    the bytes C2, E1, E2 and E3, none of which is the second or third byte
    of a white space character. *)
Definition firstByte (c : ascii) : Prop :=
  asciiSpace c = true ∨
  (nat_of_ascii c = 194 ∨ nat_of_ascii c = 225 ∨ nat_of_ascii c = 226 ∨
   nat_of_ascii c = 227)%nat.

Lemma run_firstByte ws :
  spaces ws → run ws = "" ∨ ∃ c s, run ws = String c s ∧ firstByte c.
Proof.
  induction 1 as [|u ws Hu _ IH]; [by left|]. simpl.
  destruct (isSpaceRune_bytes u Hu)
    as [(c & -> & Hc)|[(c & d & -> & Hcd)|(c & d & e & -> & Hcde)]].
  - right. exists c, (run ws). split; [done|]. by left.
  - right. exists c, (String d "" +:+ run ws). split; [done|]. right.
    apply bool_decide_eq_true in Hcd. lia.
  - right. exists c, (String d (String e "") +:+ run ws). split; [done|].
    right. apply bool_decide_eq_true in Hcde. lia.
Qed.

Lemma firstByte_not_later c :
  firstByte c →
  (∀ a, isSpace2 a c = false) ∧
  (∀ a e, isSpace3 a c e = false) ∧ (∀ a d, isSpace3 a d c = false).
Proof.
  intros Hc.
  assert (Hn : (nat_of_ascii c < 128 ∨ nat_of_ascii c = 194 ∨
                nat_of_ascii c = 225 ∨ nat_of_ascii c = 226 ∨
                nat_of_ascii c = 227)%nat).
  { destruct Hc as [Hc|Hc]; [|lia]. apply bool_decide_eq_true in Hc. lia. }
  repeat split; intros; apply bool_decide_eq_false; lia.
Qed.

Lemma trimLeft_run ws s : spaces ws → trimLeft (run ws +:+ s) = trimLeft s.
Proof.
  induction 1 as [|u ws Hu _ IH]; [done|]. simpl.
  by rewrite append_assoc, trimLeft_space.
Qed.

Lemma trimRight_run s ws : spaces ws → trimRight (s +:+ run ws) = trimRight s.
Proof.
  intros Hws. revert s. induction Hws as [|u ws Hu _ IH]; intros s; simpl.
  - by rewrite append_nil_r.
  - by rewrite <- append_assoc, IH, trimRight_space.
Qed.

(** A middle that starts with no white space character still starts with
    none when a run of them follows it. *)
Lemma trimLeft_bare t ws :
  bare t → t ≠ "" → spaces ws → trimLeft (t +:+ run ws) = t +:+ run ws.
Proof.
  intros [Hstart _] Hne Hws.
  destruct t as [|c t]; [done|]. rewrite append_cons. cbn [trimLeft].
  rewrite (Hstart (String c "") t eq_refl : asciiSpace c = false).
  destruct (run_firstByte ws Hws) as [Hrun|(x & r & Hrun & Hx)].
  - rewrite Hrun, append_nil_r in *.
    destruct t as [|d t]; [done|].
    rewrite (Hstart (String c (String d "")) t eq_refl : isSpace2 c d = false).
    destruct t as [|e t]; [done|].
    by rewrite (Hstart (String c (String d (String e ""))) t eq_refl
                : isSpace3 c d e = false).
  - destruct (firstByte_not_later x Hx) as (Hx2 & Hx3 & Hx3').
    rewrite Hrun. destruct t as [|d t].
    + rewrite append_nil_l, Hx2. destruct r as [|e r]; [done|]. by rewrite Hx3.
    + rewrite append_cons.
      rewrite (Hstart (String c (String d "")) t eq_refl : isSpace2 c d = false).
      destruct t as [|e t].
      * by rewrite append_nil_l, Hx3'.
      * rewrite append_cons.
        by rewrite (Hstart (String c (String d (String e ""))) t eq_refl
                    : isSpace3 c d e = false).
Qed.

Lemma TrimSpace_middle ws1 t ws2 :
  spaces ws1 → spaces ws2 → bare t →
  TrimSpace (run ws1 +:+ t +:+ run ws2) = t.
Proof.
  intros Hws1 Hws2 Ht. unfold TrimSpace. rewrite trimLeft_run by done.
  destruct (decide (t = "")) as [->|Hne].
  - rewrite append_nil_l.
    rewrite <- (append_nil_r (run ws2)), trimLeft_run by done. done.
  - rewrite trimLeft_bare, trimRight_run by done.
    apply trimRight_fixed, Ht.
Qed.

(** A byte of ASCII is a character of its own. *)
Lemma trimRight_cons_ascii (c : ascii) s :
  (nat_of_ascii c < 128)%nat → trimRight s ≠ "" →
  trimRight (String c s) = String c (trimRight s).
Proof.
  intros Hc Hs. cbn [trimRight].
  destruct (trimRight s) as [|d [|e [|f t]]]; try done.
  - cbn [isSpaceRune].
    assert (isSpace2 c d = false) as -> by (apply bool_decide_eq_false; lia).
    done.
  - cbn [isSpaceRune].
    assert (isSpace3 c d e = false) as -> by (apply bool_decide_eq_false; lia).
    done.
Qed.

Lemma trimRight_before_ascii (c d : ascii) s t :
  (nat_of_ascii d < 128)%nat → trimRight s = String d t →
  trimRight (String c s) = String c (trimRight s).
Proof.
  intros Hd Hs. cbn [trimRight]. rewrite Hs.
  destruct t as [|e [|f t]]; try done.
  - cbn [isSpaceRune].
    assert (isSpace2 c d = false) as -> by (apply bool_decide_eq_false; lia).
    done.
  - cbn [isSpaceRune].
    assert (isSpace3 c d e = false) as -> by (apply bool_decide_eq_false; lia).
    done.
Qed.

(** The letter and the blank are not trimmed away from the left. *)
Lemma trimLeft_status_line (x : ascii) s :
  asciiSpace x = false →
  trimLeft (String x (String " " s)) = String x (String " " s).
Proof.
  intros Hx. cbn [trimLeft]. rewrite Hx.
  assert (isSpace2 x " " = false) as ->
    by (apply bool_decide_eq_false;
        change (nat_of_ascii " ") with 32%nat; lia).
  destruct s as [|e s]; [done|].
  assert (isSpace3 x " " e = false) as ->
    by (apply bool_decide_eq_false;
        change (nat_of_ascii " ") with 32%nat; lia).
  done.
Qed.

(** A status line whose path is white space: the letter alone is left. *)
Lemma TrimSpace_letter_only (x : ascii) s :
  asciiSpace x = false → trimRight s = "" →
  TrimSpace (String x (String " " s)) = String x "".
Proof.
  intros Hx Hs. unfold TrimSpace. rewrite trimLeft_status_line by done.
  cbn [trimRight]. rewrite Hs.
  change (isSpaceRune (String " " "")) with true. cbn iota.
  cbn [isSpaceRune]. by rewrite Hx.
Qed.

(** The no-break space U+00A0 and the em space U+2003, as Go strings. *)
Definition nbsp : string :=
  String (ascii_of_nat 194) (String (ascii_of_nat 160) "").
Definition emsp : string :=
  String (ascii_of_nat 226) (String (ascii_of_nat 128) (String (ascii_of_nat 131) "")).

Lemma TrimSpace_unicode :
  TrimSpace (" M " +:+ nbsp +:+ String lf "") = "M" ∧
  TrimSpace (nbsp +:+ String lf "") = "" ∧
  TrimSpace (emsp +:+ "a" +:+ nbsp +:+ "b" +:+ nbsp +:+ String lf "")
  = "a" +:+ nbsp +:+ "b" ∧
  TrimSpace (String (ascii_of_nat 194) nbsp) = String (ascii_of_nat 194) "" ∧
  TrimSpace (emsp +:+ String (ascii_of_nat 128) "")
  = String (ascii_of_nat 128) "".
Proof. repeat split; vm_compute; reflexivity. Qed.

(** A status line, once trimmed: the letter [x], the blank, then what
    follows with its end trimmed. *)
Lemma TrimSpace_status_line (x : ascii) s :
  asciiSpace x = false → trimRight s ≠ "" →
  TrimSpace (String x (String " " s))
  = String x (String " " (trimRight s)).
Proof.
  intros Hx Hs. unfold TrimSpace.
  rewrite trimLeft_status_line by done.
  assert (Hblank : trimRight (String " " s) = String " " (trimRight s))
    by (apply trimRight_cons_ascii;
        [change (nat_of_ascii " ") with 32%nat; lia|done]).
  rewrite (trimRight_before_ascii x " " (String " " s) (trimRight s));
    [by rewrite Hblank|change (nat_of_ascii " ") with 32%nat; lia|done].
Qed.

(** The answer of [GetFileStatus] for a line whose second column is
    blank. *)
Definition indexAnswer (x : ascii) : string :=
  if decide (x = "A"%char) then "added"
  else if decide (x = "M"%char) then "staged"
  else if decide (x = "D"%char) then "staged_deleted"
  else if decide (x = "R"%char) then "renamed"
  else if decide (x = "C"%char) then "copied"
  else "".

(** X24. [GetFileStatus] trims the line git printed before it reads the two
    status columns, so that a blank first column is lost.  A leading blank
    never changes the answer; hence for a change that is not staged, which
    git prints as a blank, the letter [x], a blank and the path, the letter
    is read as the column of the index and the blank before the path as the
    column of the work tree: the answer is the one for the staged change
    [x], [staged] for [M] and [staged_deleted] for [D], never [modified] or
    [deleted].  That is so for every path that is not white space only; for
    a path of white space the letter alone is left and the answer is empty,
    as it is after an error of git and for every output of less than two
    bytes once trimmed. *)
Theorem X24_GetFileStatus_loses_the_blank_column :
  GetFileStatus None = "" ∧
  (∀ out, slen (TrimSpace out) < 2 → GetFileStatus (Some out) = "") ∧
  (∀ out, GetFileStatus (Some (String " " out)) = GetFileStatus (Some out)) ∧
  (∀ (x : ascii) path,
     asciiSpace x = false → trimRight path ≠ "" →
     let rest := path +:+ String lf "" in
     GetFileStatus (Some (String " " (String x (String " " rest))))
       = indexAnswer x ∧
     GetFileStatus (Some (String x (String " " (String " " rest))))
       = indexAnswer x) ∧
  (∀ (x : ascii) path,
     asciiSpace x = false → trimRight path = "" →
     GetFileStatus
       (Some (String " " (String x (String " " (path +:+ String lf "")))))
     = "").
Proof.
  split; [done|]. split; [|split; [|split]].
  - intros out Hshort. unfold GetFileStatus. by rewrite decide_True.
  - done.
  - intros x path Hx Hpath rest.
    assert (Hline : ∀ tail t,
      TrimSpace tail = String x (String " " t) →
      GetFileStatus (Some tail) = indexAnswer x).
    { intros tail t Ht. unfold GetFileStatus. rewrite Ht.
      rewrite decide_False by (unfold slen; simpl; lia).
      rewrite !decide_False by discriminate. done. }
    assert (Hrest : trimRight rest = trimRight path)
      by (by apply trimRight_space).
    assert (Hr1 : trimRight (String " " rest) = String " " (trimRight path)).
    { rewrite trimRight_cons_ascii; [by rewrite Hrest| |by rewrite Hrest].
      change (nat_of_ascii " ") with 32%nat. lia. }
    split.
    + apply (Hline _ (trimRight rest)).
      change (TrimSpace (String " " (String x (String " " rest))))
        with (TrimSpace (String x (String " " rest))).
      apply TrimSpace_status_line; [done|by rewrite Hrest].
    + apply (Hline _ (trimRight (String " " rest))).
      apply TrimSpace_status_line; [done|by rewrite Hr1].
  - intros x path Hx Hpath.
    assert (Hrest : trimRight (path +:+ String lf "") = "")
      by (by rewrite trimRight_space).
    change (GetFileStatus
              (Some (String " " (String x (String " " (path +:+ String lf ""))))))
      with (GetFileStatus (Some (String x (String " " (path +:+ String lf ""))))).
    unfold GetFileStatus.
    rewrite (TrimSpace_letter_only x (path +:+ String lf "") Hx Hrest).
    by rewrite decide_True.
Qed.


(** X25. [GetStashes] returns no stash exactly when git failed or printed
    nothing but white space, and otherwise the lines of what git printed,
    trimmed at both ends: at least one line, and the lines joined by line
    feeds are the trimmed output.  So the stash pane built from it shows
    its placeholder exactly in the first case, and one item per line in the
    second. *)
Theorem X25_GetStashes_lines (output : option string) :
  (GetStashes output = [] ↔
   output = None ∨ ∃ out, output = Some out ∧ TrimSpace out = "") ∧
  (∀ out, output = Some out → TrimSpace out ≠ "" →
     GetStashes output = Split (TrimSpace out) lf ∧
     GetStashes output ≠ [] ∧
     Join (GetStashes output) (String lf "") = TrimSpace out) ∧
  (∀ Meta : Type,
     len (GetStashes output) ≤ max_items →
     Panes.items (Stash.base (Stash.NewStashPane (Meta := Meta) (GetStashes output)))
     = if decide (GetStashes output = []) then [Stash.emptyItem]
       else imap (λ i line, Stash.stashItem (Z.of_nat i) line) (GetStashes output)).
Proof.
  assert (Hsome : ∀ out,
    GetStashes (Some out)
    = if decide (TrimSpace out = "") then [] else Split (TrimSpace out) lf).
  { intros out. unfold GetStashes. fold lf.
    pose proof (Join_Split (TrimSpace out) lf) as Hjoin.
    destruct (decide (TrimSpace out = "")) as [->|Hne]; [done|].
    destruct (Split (TrimSpace out) lf) as [|l [|l' ls]] eqn:Hs.
    - by case_decide.
    - case_decide as Hone; [|done]. destruct Hone as [_ [= ->]].
      by destruct Hne.
    - rewrite decide_False; [done|]. intros [Hl _].
      unfold len in Hl. simpl in Hl. lia. }
  split; [|split].
  - destruct output as [out|]; [|by split; [left|]].
    rewrite Hsome. split.
    + intros Hnil. right. exists out. split; [done|].
      destruct (decide (TrimSpace out = "")); [done|].
      by destruct (Split_nonempty (TrimSpace out) lf).
    + intros [|(out' & [= <-] & Ht)]; [done|]. by rewrite decide_True.
  - intros out -> Hne. rewrite Hsome, decide_False by done.
    split; [done|]. split; [apply Split_nonempty|apply Join_Split].
  - intros Meta Hfit. unfold Stash.NewStashPane, Stash.loadStashes.
    destruct (decide (GetStashes output = [])) as [->|Hne]; [done|].
    assert (Hlen : len (GetStashes output) ≠ 0) by (by rewrite len_nil_iff).
    rewrite decide_False by done. cbn [Stash.base].
    destruct (StashFacts.addStashes_effect (Meta := Meta) (GetStashes output) 0
                (Panes.Clear
                   (Panes.NewBasePaneModel "Stash" Panes.StashPaneType "stash")))
      as (-> & _); [done|unfold max_items, max_int in *; lia|].
    simpl. apply imap_ext. intros i line _. simpl. f_equal.
Qed.


(** *** The properties at concrete outputs *)

Lemma X23_witness :
  len (Split ("@@ -1 +1 @@" +:+ String lf "+new") lf) ≤ 200 ∧
  truncateDiffOutput ("@@ -1 +1 @@" +:+ String lf "+new")
  = "@@ -1 +1 @@" +:+ String lf "+new".
Proof.
  assert (Hshort : len (Split ("@@ -1 +1 @@" +:+ String lf "+new") lf) ≤ 200)
    by (by vm_compute).
  split; [exact Hshort|].
  destruct (X23_truncateDiffOutput_bounds_the_diff
              ("@@ -1 +1 @@" +:+ String lf "+new"))
    as (_ & _ & _ & _ & Hsame & _).
  apply Hsame; [exact Hshort|].
  repeat (constructor; [by vm_compute|]). constructor.
Defined.

Lemma X24_witness :
  asciiSpace "M" = false ∧ trimRight "a.go" ≠ "" ∧
  GetFileStatus (Some (" M a.go" +:+ String lf "")) = "staged" ∧
  GetFileStatus (Some ("M  a.go" +:+ String lf "")) = "staged".
Proof.
  assert (Hpath : trimRight "a.go" ≠ "") by (vm_compute; discriminate).
  split; [reflexivity|]. split; [exact Hpath|].
  destruct X24_GetFileStatus_loses_the_blank_column
    as (_ & _ & _ & Hline & _).
  exact (Hline "M"%char "a.go" eq_refl Hpath).
Defined.

Lemma X25_witness :
  TrimSpace ("stash@{0}: WIP on main: 1a2b3c4 fix" +:+ String lf "") ≠ "" ∧
  GetStashes (Some ("stash@{0}: WIP on main: 1a2b3c4 fix" +:+ String lf ""))
  = ["stash@{0}: WIP on main: 1a2b3c4 fix"] ∧
  GetStashes (Some (" " +:+ String lf "")) = [].
Proof.
  assert (Hne : TrimSpace ("stash@{0}: WIP on main: 1a2b3c4 fix" +:+ String lf "")
                ≠ "") by (vm_compute; discriminate).
  split; [exact Hne|]. split.
  - destruct (X25_GetStashes_lines
                (Some ("stash@{0}: WIP on main: 1a2b3c4 fix" +:+ String lf "")))
      as (_ & Hlines & _).
    destruct (Hlines _ eq_refl Hne) as (-> & _). vm_compute. reflexivity.
  - apply (proj1 (X25_GetStashes_lines (Some (" " +:+ String lf "")))).
    right. eexists. split; [reflexivity|]. vm_compute. reflexivity.
Defined.

End GitFacts.
